(** * TransmitanceSuite: a shallow embedding of the measurement classes

    The development follows the four Python modules of the repository:

    - [TransmitanceMeas.py]     the base ratio measurement,
    - [TransmitanceMeas1D.py]   the one-dimensional specialisation, its
                                factories, the file parser and the two array
                                utilities,
    - [ObjectCollection.py] and [TransmitanceMeas1DCollection.py]
                                the typed collection.

    Python objects are records of optional attributes (an attribute that was
    never assigned reads as [AttributeError]); functions that signal a
    failure with [print(...); return -1.] return [MinusOne] together with the
    printed text; Python exceptions are the [Raise] branch of [exc].  The
    array entries and the numpy / scipy / pandas primitives the code calls are
    taken as an interface ([Scalar], [Library]), instantiated further down with
    exact rational arithmetic. *)

From Stdlib Require Import ZArith QArith Lia Ascii String.
From stdpp Require Import base option list sorting gmap strings.

Open Scope string_scope.
Open Scope list_scope.

(** ** Exceptions and sentinel returns *)

Inductive exn :=
  | AttributeError (attr : string)
  | TypeError (msg : string)
  | InitReturnedValue (printed : string)
      (* TypeError: __init__() should return None, not 'float'; [printed] is
         the diagnostic written to stdout just before the [return -1.] *)
  | IndexError
  | ValueError (msg : string)
  | FileNotFoundError (path : string).

Inductive exc (A : Type) :=
  | Ok (a : A)
  | Raise (e : exn).
Arguments Ok {A} a.
Arguments Raise {A} e.

Global Instance exc_ret : MRet exc := fun _ a => Ok a.
Global Instance exc_bind : MBind exc := fun _ _ f m =>
  match m with Ok a => f a | Raise e => Raise e end.
Global Instance exc_fmap : FMap exc := fun _ _ f m =>
  match m with Ok a => Ok (f a) | Raise e => Raise e end.

(** What a function written in the [print(...); return -1.] style hands
    back: a proper value, or the float [-1.] after printing a diagnostic. *)
Inductive pyret (A : Type) :=
  | Val (a : A)
  | MinusOne (printed : string).
Arguments Val {A} a.
Arguments MinusOne {A} printed.

(** [return e] in a function that may also [return -1.] *)
Definition returns {A} (m : exc A) : exc (pyret A) :=
  match m with Ok a => Ok (Val a) | Raise e => Raise e end.

(** Reading an attribute of an object. *)
Definition getattr {A} (name : string) (field : option A) : exc A :=
  match field with Some a => Ok a | None => Raise (AttributeError name) end.

(** An optional result of a list operation turned into an [IndexError]. *)
Definition or_index_error {A} (o : option A) : exc A :=
  match o with Some a => Ok a | None => Raise IndexError end.

(** ** Array entries and library primitives *)

Class Scalar (R : Type) := {
  fzero : R;
  fadd : R -> R -> R;
  fsub : R -> R -> R;
  fmul : R -> R -> R;
  fdiv : R -> R -> R;
  feqb : R -> R -> bool;     (* Python [==] on two entries *)
  fleb : R -> R -> bool      (* the order [numpy.argsort] sorts by *)
}.

(** A callable of signature (float), applied entrywise to arrays. *)
Definition callable (R : Type) := R -> R.

Class Library (R : Type) := {
  (* scipy.interpolate.CubicSpline(x, y); raises on malformed knots *)
  CubicSpline : list R -> list R -> exc (callable R);
  (* scipy.optimize.curve_fit(f, xdata, ydata) for a two-parameter f:
     popt[0], popt[1] *)
  curve_fit : (R -> R -> R -> R) -> list R -> list R -> exc (R * R);
  (* numpy.argsort of a one-dimensional array *)
  argsort : list R -> list nat;
  (* Python float(s) on a str *)
  float_of_str : string -> option R
}.

(** ** numpy arrays

    The constructor fixes the number of dimensions: [A1] and [A2] are the one-
    and two-dimensional arrays the code works with, [A0] a zero-dimensional
    array and [A3p] any array of three or more dimensions (shape
    [d1, d2, d3, rest...], entries in row-major order). *)

Inductive ndarray (T : Type) :=
  | A0 (x : T)
  | A1 (v : list T)
  | A2 (ncols : nat) (rows : list (list T))
  | A3p (d1 d2 d3 : nat) (rest : list nat) (flat : list T).
Arguments A0 {T} x.
Arguments A1 {T} v.
Arguments A2 {T} ncols rows.
Arguments A3p {T} d1 d2 d3 rest flat.

Section Arrays.
Context {T : Type}.

Definition np_shape (a : ndarray T) : list nat :=
  match a with
  | A0 _ => []
  | A1 v => [length v]
  | A2 c rows => [length rows; c]
  | A3p d1 d2 d3 rest _ => d1 :: d2 :: d3 :: rest
  end.

Definition np_ndim (a : ndarray T) : nat := length (np_shape a).

(** Every row of a two-dimensional array has [ncols] entries. *)
Definition wf_rows (c : nat) (rows : list (list T)) : Prop :=
  Forall (fun row => length row = c) rows.

(** [a + s], [a / b], ... : one function applied to every entry. *)
Definition np_map (f : T -> T) (a : ndarray T) : ndarray T :=
  match a with
  | A0 x => A0 (f x)
  | A1 v => A1 (f <$> v)
  | A2 c rows => A2 c (fmap (M:=list) f <$> rows)
  | A3p d1 d2 d3 rest flat => A3p d1 d2 d3 rest (f <$> flat)
  end.

(** A binary operator on two arrays of one shape.  Broadcasting between
    different shapes is not modelled: [None]. *)
Definition np_map2 (f : T -> T -> T) (a b : ndarray T) : option (ndarray T) :=
  if decide (np_shape a = np_shape b) then
    match a, b with
    | A0 x, A0 y => Some (A0 (f x y))
    | A1 v, A1 w => Some (A1 (zip_with f v w))
    | A2 c r1, A2 _ r2 => Some (A2 c (zip_with (zip_with f) r1 r2))
    | A3p d1 d2 d3 rest f1, A3p _ _ _ _ f2 =>
        Some (A3p d1 d2 d3 rest (zip_with f f1 f2))
    | _, _ => None
    end
  else None.

(** Position of the entry [idx] in the row-major buffer. *)
Fixpoint ravel (shape idx : list nat) : option nat :=
  match shape, idx with
  | [], [] => Some 0
  | d :: shape', i :: idx' =>
      if decide (i < d) then
        k ← ravel shape' idx'; Some (i * foldr Nat.mul 1 shape' + k)
      else None
  | _, _ => None
  end.

(** [a[i]], [a[i, j]], [a[i, j, k, ...]]: the entry at a full index. *)
Definition item (a : ndarray T) (idx : list nat) : option T :=
  match a, idx with
  | A0 x, [] => Some x
  | A1 v, [i] => v !! i
  | A2 c rows, [i; j] => row ← rows !! i; row !! j
  | A3p d1 d2 d3 rest flat, _ =>
      k ← ravel (d1 :: d2 :: d3 :: rest) idx; flat !! k
  | _, _ => None
  end.
End Arrays.

(** An argument handed to a constructor: a genuine [numpy.ndarray], or some
    other Python value (a list, a tuple, a number) that numpy reads as the
    array [a] when asked for its shape. *)
Inductive pyarg (T : Type) :=
  | NdArray (a : ndarray T)
  | ArrayLike (a : ndarray T).
Arguments NdArray {T} a.
Arguments ArrayLike {T} a.

Definition arg_array {T} (x : pyarg T) : ndarray T :=
  match x with NdArray a => a | ArrayLike a => a end.

Definition is_ndarray {T} (x : pyarg T) : bool :=
  match x with NdArray _ => true | ArrayLike _ => false end.

(** ** TransmitanceMeas.py and the attributes of TransmitanceMeas1D.py

    One record holds the attributes of a [TransmitanceMeas] and of its
    subclass [TransmitanceMeas1D]; [None] is an attribute that has not been
    assigned. *)

(** The values [fInterpolator_] takes in the source: a bool, or (for the
    length of one statement) a spline object. *)
Inductive flag (R : Type) :=
  | FlagBool (b : bool)
  | FlagObj (f : callable R).
Arguments FlagBool {R} b.
Arguments FlagObj {R} f.

Definition truthy {R} (v : flag R) : bool :=
  match v with FlagBool b => b | FlagObj _ => true end.

Record instance (R : Type) := Instance {
  dep_is_available_ : option bool;
  dep_ : option (pyarg R);
  ref_ : option (ndarray R);
  meas_ : option (ndarray R);
  transmitance_ : option (ndarray R);
  (* [Some None] is the Python value None *)
  raw_ref_ : option (option (pyret (ndarray R)));
  raw_meas_ : option (option (pyret (ndarray R)));
  fInterpolator_ : option (flag R);
  refInterpolator_ : option (callable R)
}.
Arguments Instance {R}.
Arguments dep_is_available_ {R}.
Arguments dep_ {R}.
Arguments ref_ {R}.
Arguments meas_ {R}.
Arguments transmitance_ {R}.
Arguments raw_ref_ {R}.
Arguments raw_meas_ {R}.
Arguments fInterpolator_ {R}.
Arguments refInterpolator_ {R}.

Section Setters.
Context {R : Type}.
Implicit Type self : instance R.

(** The object [object.__new__] hands to [__init__]. *)
Definition fresh : instance R :=
  Instance None None None None None None None None None.

Definition set_dep_is_available_ b self :=
  Instance (Some b) (dep_ self) (ref_ self) (meas_ self)
    (transmitance_ self) (raw_ref_ self) (raw_meas_ self)
    (fInterpolator_ self) (refInterpolator_ self).
Definition set_dep_ d self :=
  Instance (dep_is_available_ self) (Some d) (ref_ self) (meas_ self)
    (transmitance_ self) (raw_ref_ self) (raw_meas_ self)
    (fInterpolator_ self) (refInterpolator_ self).
Definition set_ref_ a self :=
  Instance (dep_is_available_ self) (dep_ self) (Some a) (meas_ self)
    (transmitance_ self) (raw_ref_ self) (raw_meas_ self)
    (fInterpolator_ self) (refInterpolator_ self).
Definition set_meas_ a self :=
  Instance (dep_is_available_ self) (dep_ self) (ref_ self) (Some a)
    (transmitance_ self) (raw_ref_ self) (raw_meas_ self)
    (fInterpolator_ self) (refInterpolator_ self).
Definition set_transmitance_ a self :=
  Instance (dep_is_available_ self) (dep_ self) (ref_ self) (meas_ self)
    (Some a) (raw_ref_ self) (raw_meas_ self)
    (fInterpolator_ self) (refInterpolator_ self).
Definition set_raw_ref_ v self :=
  Instance (dep_is_available_ self) (dep_ self) (ref_ self) (meas_ self)
    (transmitance_ self) (Some v) (raw_meas_ self)
    (fInterpolator_ self) (refInterpolator_ self).
Definition set_raw_meas_ v self :=
  Instance (dep_is_available_ self) (dep_ self) (ref_ self) (meas_ self)
    (transmitance_ self) (raw_ref_ self) (Some v)
    (fInterpolator_ self) (refInterpolator_ self).
Definition set_fInterpolator_ v self :=
  Instance (dep_is_available_ self) (dep_ self) (ref_ self) (meas_ self)
    (transmitance_ self) (raw_ref_ self) (raw_meas_ self)
    (Some v) (refInterpolator_ self).
Definition set_refInterpolator_ f self :=
  Instance (dep_is_available_ self) (dep_ self) (ref_ self) (meas_ self)
    (transmitance_ self) (raw_ref_ self) (raw_meas_ self)
    (fInterpolator_ self) (Some f).
End Setters.

(** Python's rule for [C(...)]: if [__init__] returns anything but None the
    call raises a TypeError and no instance reaches the caller. *)
Definition instantiate {S} (r : exc (S * pyret unit)) : exc S :=
  '(self, ret) ← r;
  match ret with
  | Val _ => Ok self
  | MinusOne printed => Raise (InitReturnedValue printed)
  end.

Module TransmitanceMeas.
Section Methods.
Context {R : Type} `{!Scalar R}.
Implicit Type self : instance R.

Definition ERR0_init := "In method TransmitanceMeas::__init__(): ERR0.".
Definition ERR1_init := "In method TransmitanceMeas::__init__(): ERR1.".
Definition ERR2_init := "In method TransmitanceMeas::__init__(): ERR2.".
Definition ERR0_get_transmitance :=
  "In function TransmitanceMeas::get_transmitance(): ERR0.".

Definition __init__ self (ref meas : pyarg R) (ref_offset meas_offset : R)
    (dep : option (pyarg R)) : instance R * pyret unit :=
  if negb (is_ndarray ref) || negb (is_ndarray meas) then
    (self, MinusOne ERR0_init)
  else if decide (np_shape (arg_array ref) ≠ np_shape (arg_array meas)) then
    (self, MinusOne ERR1_init)
  else
    let self := set_dep_is_available_ false self in
    let store self :=
      let self :=
        set_ref_ (np_map (fun x => fadd x ref_offset) (arg_array ref)) self in
      let self :=
        set_meas_ (np_map (fun x => fadd x meas_offset) (arg_array meas)) self in
      (self, Val ()) in
    match dep with
    | Some d =>
        if decide (np_shape (arg_array d) ≠ np_shape (arg_array ref)) then
          (self, MinusOne ERR2_init)
        else
          store (set_dep_is_available_ true (set_dep_ d self))
    | None => store self
    end.

(** [TransmitanceMeas(ref, meas, ref_offset, meas_offset, dep)] *)
Definition new ref meas ref_offset meas_offset dep : exc (instance R) :=
  instantiate (Ok (__init__ fresh ref meas ref_offset meas_offset dep)).

(** Returns None (after a message) when no dependent variable is stored. *)
Definition get_dep self : exc (option (pyarg R)) :=
  avail ← getattr "dep_is_available_" (dep_is_available_ self);
  if (avail : bool) then Some <$> getattr "dep_" (dep_ self) else Ok None.

Definition get_ref self : exc (ndarray R) := getattr "ref_" (ref_ self).
Definition get_meas self : exc (ndarray R) := getattr "meas_" (meas_ self).

Definition correct_ref self (offset : R) : exc (instance R) :=
  a ← getattr "ref_" (ref_ self);
  Ok (set_ref_ (np_map (fun x => fadd x offset) a) self).

Definition correct_meas self (offset : R) : exc (instance R) :=
  a ← getattr "meas_" (meas_ self);
  Ok (set_meas_ (np_map (fun x => fadd x offset) a) self).

Definition check_compatibility self : exc bool :=
  avail ← getattr "dep_is_available_" (dep_is_available_ self);
  ref ← getattr "ref_" (ref_ self);
  meas ← getattr "meas_" (meas_ self);
  if (avail : bool) then
    if decide (np_shape ref = np_shape meas) then
      dep ← getattr "dep_" (dep_ self);
      Ok (bool_decide (np_shape ref = np_shape (arg_array dep)))
    else Ok false
  else Ok (bool_decide (np_shape ref = np_shape meas)).

Definition get_transmitance self : exc (instance R * pyret (ndarray R)) :=
  compatible ← check_compatibility self;
  if (compatible : bool) then
    meas ← getattr "meas_" (meas_ self);
    ref ← getattr "ref_" (ref_ self);
    match np_map2 fdiv meas ref with
    | Some t => Ok (set_transmitance_ t self, Val t)
    | None => Raise (ValueError "operands could not be broadcast together")
    end
  else Ok (self, MinusOne ERR0_get_transmitance).
End Methods.
End TransmitanceMeas.

(** ** TransmitanceMeas1D.py: the array utilities *)

(** A monadic left fold: the body of a [for] loop that may raise. *)
Fixpoint for_each {A B} (f : A -> B -> exc A) (acc : A) (l : list B) : exc A :=
  match l with
  | [] => Ok acc
  | i :: l' => acc' ← f acc i; for_each f acc' l'
  end.

(** Storage for the arrays that callers share with the utilities: an array
    object is a location, its contents a two-dimensional array given by its
    number of columns and its rows. *)
Definition loc := nat.
Abbreviation heap T := (gmap loc (nat * list (list T))).

Module Sorting.
Section Sort.
Context {T : Type}.
(** [numpy.argsort] on a one-dimensional array of entries of type [T]. *)
Variable argsortT : list T -> exc (list nat).

Definition msg_axis :=
  "In function sort_bidimensional_array_mutually(): Not allowed value for axis. Returning -1.".
Definition msg_line :=
  "In function sort_bidimensional_array_mutually(): Not allowed value for line. Returning -1.".

(** [a[:, j]] *)
Definition column (c : nat) (rows : list (list T)) (j : nat) : exc (list T) :=
  if decide (j < c) then or_index_error (mapM (fun row => row !! j) rows)
  else Raise IndexError.

(** [a[i, :]] *)
Definition row_at (rows : list (list T)) (i : nat) : exc (list T) :=
  or_index_error (rows !! i).

(** [a[idx, j]]: a fresh one-dimensional array. *)
Definition column_at (rows : list (list T)) (idx : list nat) (j : nat)
    : exc (list T) :=
  or_index_error (mapM (fun k => row ← rows !! k; row !! j) idx).

(** [a[i, idx]]: a fresh one-dimensional array. *)
Definition row_pick (rows : list (list T)) (i : nat) (idx : list nat)
    : exc (list T) :=
  row ← row_at rows i;
  or_index_error (mapM (fun k => row !! k) idx).

(** [a[:, j] = vals] *)
Definition assign_column (rows : list (list T)) (j : nat) (vals : list T)
    : exc (list (list T)) :=
  if decide (length vals = length rows) then
    Ok (zip_with (fun row v => <[j:=v]> row) rows vals)
  else Raise (ValueError "could not broadcast input array").

(** [a[i, :] = vals] *)
Definition assign_row (c : nat) (rows : list (list T)) (i : nat)
    (vals : list T) : exc (list (list T)) :=
  if decide (length vals = c) then Ok (<[i:=vals]> rows)
  else Raise (ValueError "could not broadcast input array").

(** The body of [sort_bidimensional_array_mutually], as it acts on the
    contents of the one array object that both [bid_array] and
    [sorted_array] name ([sorted_array = bid_array] binds a second name, it
    does not copy).  The result is the contents after the loop. *)
Definition sort_contents (c : nat) (rows : list (list T)) (axis line : Z)
    : exc (pyret (list (list T))) :=
  if decide (axis ≠ 0 ∧ axis ≠ 1)%Z then Ok (MinusOne msg_axis)
  else if decide (line < 0)%Z then Ok (MinusOne msg_line)
  else if decide (axis = 0 ∧ line >= Z.of_nat (length rows))%Z then
    Ok (MinusOne msg_line)
  else if decide (axis = 1 ∧ line >= Z.of_nat c)%Z then
    Ok (MinusOne msg_line)
  else if decide (axis = 0)%Z then
    (* iterator = range(shape[1]) *)
    keys ← column c rows (Z.to_nat line);
    sorting_indices ← argsortT keys;
    sorted ← for_each
      (fun sorted i =>
         vals ← column_at sorted sorting_indices i;
         assign_column sorted i vals)
      rows (seq 0 c);
    Ok (Val sorted)
  else
    (* iterator = range(shape[0]) *)
    keys ← row_at rows (Z.to_nat line);
    sorting_indices ← argsortT keys;
    sorted ← for_each
      (fun sorted i =>
         vals ← row_pick sorted i sorting_indices;
         assign_row c sorted i vals)
      rows (seq 0 (length rows));
    Ok (Val sorted).

(** The function as callers see it: [bid_array] is a reference.  The
    loop writes through it, and the returned reference is the argument.  (A
    location outside the heap names no array; no Python call gets there.) *)
Definition sort_bidimensional_array_mutually (h : heap T) (bid_array : loc)
    (axis line : Z) : exc (heap T * pyret loc) :=
  '(c, rows) ← getattr "bid_array" (h !! bid_array);
  r ← sort_contents c rows axis line;
  match r with
  | MinusOne printed => Ok (h, MinusOne printed)
  | Val sorted =>
      let sorted_array := bid_array in
      Ok (<[sorted_array := (c, sorted)]> h, Val sorted_array)
  end.
End Sort.
End Sorting.

Module Stacking.
Section Stick.
Context {T : Type}.

Definition ERR0 := "In function TransmitanceMeas1D::stick_together(): ERR0.".
Definition ERR1 := "In function TransmitanceMeas1D::stick_together(): ERR1.".
Definition ERR2 := "In function TransmitanceMeas1D::stick_together(): ERR2.".
Definition ERR3 := "In function TransmitanceMeas1D::stick_together(): ERR3.".
Definition ERR4 := "In function TransmitanceMeas1D::stick_together(): ERR4.".

(** [axis] is the Python value 0 ([false]) or 1 ([true]); [not axis], used
    as an index, is 1 for axis 0 and 0 for axis 1. *)
Definition not_axis (axis : bool) : nat := if axis then 0 else 1.

(** [np.shape(a)[k]] *)
Definition shape_at (a : ndarray T) (k : nat) : exc nat :=
  or_index_error (np_shape a !! k).

(** [np.expand_dims(v, axis)] of a one-dimensional array. *)
Definition expand_dims (v : list T) (axis : bool) : nat * list (list T) :=
  if axis then (1, (fun x => [x]) <$> v) else (length v, [v]).

(** [np.concatenate((a, b), axis)] of two two-dimensional arrays. *)
Definition concatenate (a b : nat * list (list T)) (axis : bool)
    : exc (ndarray T) :=
  if axis then
    if decide (length a.2 = length b.2) then
      Ok (A2 (a.1 + b.1) (zip_with app a.2 b.2))
    else Raise (ValueError "all the input array dimensions except for the concatenation axis must match exactly")
  else
    if decide (a.1 = b.1) then Ok (A2 a.1 (a.2 ++ b.2))
    else Raise (ValueError "all the input array dimensions except for the concatenation axis must match exactly").

Definition stick_together (arr1 arr2 : pyarg T) (axis : bool)
    : exc (pyret (ndarray T)) :=
  if negb (is_ndarray arr1) || negb (is_ndarray arr2) then Ok (MinusOne ERR0)
  else
    let a1 := arg_array arr1 in
    let a2 := arg_array arr2 in
    if decide (2 < np_ndim a1 ∨ 2 < np_ndim a2) then Ok (MinusOne ERR1)
    else
      match a1, a2 return exc (pyret (ndarray T)) with
      | A2 c1 r1, A2 c2 r2 =>                         (* prod == 4 *)
          n1 ← shape_at a1 (not_axis axis);
          n2 ← shape_at a2 (not_axis axis);
          if decide (n1 ≠ n2) then Ok (MinusOne ERR2)
          else returns (concatenate (c1, r1) (c2, r2) axis)
      | A1 v, A2 c r | A2 c r, A1 v =>                (* prod == 2 *)
          let unid_array := v in
          let bid_array := (c, r) in
          n1 ← shape_at (A1 unid_array) 0;
          n2 ← shape_at (A2 c r) (not_axis axis);
          if decide (n1 ≠ n2) then Ok (MinusOne ERR3)
          else
            returns (concatenate (expand_dims unid_array axis) bid_array
                                 axis)
      | _, _ =>                                       (* prod is 1 or 0 *)
          n1 ← shape_at a1 0;
          n2 ← shape_at a2 0;
          if decide (n1 ≠ n2) then Ok (MinusOne ERR4)
          else
            match a1, a2 with
            | A1 v1, A1 v2 =>
                returns (concatenate (expand_dims v1 axis)
                                     (expand_dims v2 axis) axis)
            | _, _ => Raise IndexError   (* shape_at raised before *)
            end
      end.
End Stick.
End Stacking.

(** ** TransmitanceMeas1D.py: the class *)

(** An entry of the object array pandas produces from a log file: a number
    or a piece of text (the wavelength column is read as text because of the
    "DC" entry of the dark-current row). *)
Inductive cell (R : Type) :=
  | Num (x : R)
  | Str (s : string).
Arguments Num {R} x.
Arguments Str {R} s.

(** The files on disk, seen through
    [np.array(pd.read_csv(filepath, header=None, sep=separator, skiprows=1))]:
    the number of columns and the rows that follow the header row. *)
Class Files (R : Type) := {
  read_csv : string -> string -> exc (nat * list (list (cell R)))
}.

Definition tab : string := String "009"%char "".

Module TransmitanceMeas1D.
Section Methods.
Context {R : Type} `{!Scalar R} `{!Library R} `{!Files R}.
Implicit Type self : instance R.

Definition ERR0_init := "In function TransmitanceMeas1D::__init__(): ERR0.".
Definition ERR1_init := "In function TransmitanceMeas1D::__init__(): ERR1.".
Definition ERR2_init := "In function TransmitanceMeas1D::__init__(): ERR2.".
Definition ERR0_ragged :=
  "In function TransmitanceMeas1D::from_ragged_data(): ERR0.".
Definition ERR1_ragged :=
  "In function TransmitanceMeas1D::from_ragged_data(): ERR1.".
Definition ERR2_ragged :=
  "In function TransmitanceMeas1D::from_ragged_data(): ERR2.".

(** The entries of an argument known to be one-dimensional. *)
Definition entries (x : pyarg R) : exc (list R) :=
  match arg_array x with
  | A1 v => Ok v
  | _ => Raise (ValueError "expected a one-dimensional array")
  end.

Definition __init__ self (ref meas : pyarg R) (ref_offset meas_offset : R)
    (dep : option (pyarg R))
    (raw_ref raw_meas : option (pyret (ndarray R)))
    (refInterpolator : option (callable R))
    : exc (instance R * pyret unit) :=
  if decide (np_ndim (arg_array ref) ≠ 1) then
    Ok (self, MinusOne ERR0_init)
  else if decide (np_shape (arg_array ref) ≠ np_shape (arg_array meas)) then
    Ok (self, MinusOne ERR1_init)
  else if
    match dep with
    | Some d =>
        bool_decide (np_shape (arg_array ref) ≠ np_shape (arg_array d))
    | None => false
    end
  then Ok (self, MinusOne ERR2_init)
  else
    let self := set_raw_ref_ raw_ref self in
    let self := set_raw_meas_ raw_meas self in
    self ←
      match refInterpolator with
      | None =>
          match dep with
          | None => Ok (set_fInterpolator_ (FlagBool false) self)
          | Some d =>
              x ← entries d;
              y ← entries ref;
              spline ← CubicSpline x y;
              let self := set_fInterpolator_ (FlagObj spline) self in
              Ok (set_fInterpolator_ (FlagBool true) self)
          end
      | Some f =>
          let self := set_fInterpolator_ (FlagBool true) self in
          Ok (set_refInterpolator_ f self)
      end;
    (* the value returned by the base initialiser is dropped *)
    let '(self, _) :=
      TransmitanceMeas.__init__ self ref meas ref_offset meas_offset dep in
    Ok (self, Val ()).

(** [TransmitanceMeas1D(ref, meas, ...)], also written [cls(...)]. *)
Definition new ref meas ref_offset meas_offset dep raw_ref raw_meas
    refInterpolator : exc (instance R) :=
  instantiate (__init__ fresh ref meas ref_offset meas_offset dep
                 raw_ref raw_meas refInterpolator).

Definition get_rawest_ref self : exc (pyret (ndarray R)) :=
  raw ← getattr "raw_ref_" (raw_ref_ self);
  match raw with
  | Some v => Ok v
  | None => returns (getattr "ref_" (ref_ self))
  end.

Definition get_rawest_meas self : exc (pyret (ndarray R)) :=
  raw ← getattr "raw_meas_" (raw_meas_ self);
  match raw with
  | Some v => Ok v
  | None => returns (getattr "meas_" (meas_ self))
  end.

(** Returns None (after a message) when the flag is false. *)
Definition get_refInterpolator self : exc (option (callable R)) :=
  available ← getattr "fInterpolator_" (fInterpolator_ self);
  if truthy available then
    Some <$> getattr "refInterpolator_" (refInterpolator_ self)
  else Ok None.

Definition stick_together := @Stacking.stick_together R.

Definition from_ragged_data (dep_ref ref dep_meas meas : pyarg R)
    (ref_offset meas_offset : R) (ref_ref_func : option (callable R))
    : exc (pyret (instance R)) :=
  if negb (is_ndarray dep_ref) || negb (is_ndarray ref)
     || negb (is_ndarray dep_meas) || negb (is_ndarray meas) then
    Ok (MinusOne ERR0_ragged)
  else if decide (np_ndim (arg_array dep_ref) ≠ 1 ∨ np_ndim (arg_array ref) ≠ 1
                  ∨ np_ndim (arg_array dep_meas) ≠ 1
                  ∨ np_ndim (arg_array meas) ≠ 1) then
    Ok (MinusOne ERR1_ragged)
  else if decide (np_shape (arg_array dep_ref) ≠ np_shape (arg_array ref)
                  ∨ np_shape (arg_array dep_meas) ≠ np_shape (arg_array meas))
  then Ok (MinusOne ERR2_ragged)
  else
    raw_dep_ref ← entries dep_ref;
    ref ← entries ref;
    dep_meas ← entries dep_meas;
    meas ← entries meas;
    let raw_ref := (fun x => fadd x ref_offset) <$> ref in
    '(ref_func, vectorized) ←
      match ref_ref_func with
      | None =>
          spline ← CubicSpline raw_dep_ref raw_ref; Ok (spline, false)
      | Some g =>
          let fitting_func x sca off := fmul sca (fadd off (g x)) in
          popt ← curve_fit fitting_func raw_dep_ref raw_ref;
          Ok (fun x => fmul popt.1 (fadd popt.2 (g x)), true)
      end;
    let dep := dep_meas in
    let meas := (fun x => fadd x meas_offset) <$> meas in
    (* np.vectorize refuses inputs of size 0 *)
    ref ←
      (if (vectorized : bool) && bool_decide (dep = []) then
         Raise (ValueError "cannot call `vectorize` on size 0 inputs unless `otypes` is set")
       else Ok ((ref_func : R -> R) <$> dep));
    raw_ref ← stick_together (NdArray (A1 raw_dep_ref)) (NdArray (A1 raw_ref))
                true;
    raw_meas ← stick_together (NdArray (A1 dep)) (NdArray (A1 meas)) false;
    (* offsets have already been applied *)
    returns (new (NdArray (A1 ref)) (NdArray (A1 meas)) fzero fzero
               (Some (NdArray (A1 dep))) (Some raw_ref) (Some raw_meas)
               (Some ref_func)).

(** Python's [a - b] and [float(a)] on entries of an object array. *)
Definition py_sub (a b : cell R) : exc (cell R) :=
  match a, b with
  | Num x, Num y => Ok (Num (fsub x y))
  | _, _ => Raise (TypeError "unsupported operand type(s) for -")
  end.

Definition py_float (a : cell R) : exc R :=
  match a with
  | Num x => Ok x
  | Str s =>
      match float_of_str s with
      | Some x => Ok x
      | None => Raise (ValueError "could not convert string to float")
      end
  end.

(** Reading an entry that holds a float. *)
Definition as_num (a : cell R) : exc R :=
  match a with
  | Num x => Ok x
  | Str _ => Raise (TypeError "not supported between instances of 'str' and 'float'")
  end.

(** [np.argsort] on a column of an object array holding floats. *)
Definition argsort_cells (keys : list (cell R)) : exc (list nat) :=
  ks ← mapM as_num keys; Ok (argsort ks).

Definition default_parser (filepath : string) (x_col y_col : nat)
    (separator : string) : exc (list R * list R) :=
  '(c, data) ← read_csv filepath separator;
  (* offset = data[0, 1] *)
  base ← Sorting.row_at data 0;
  offset ← (if decide (1 < c) then or_index_error (base !! 1)
            else Raise IndexError);
  let data := drop 1 data in
  (* data[:, y_col] -= offset *)
  ys ← Sorting.column c data y_col;
  ys ← mapM (fun y => py_sub y offset) ys;
  data ← Sorting.assign_column data y_col ys;
  (* data[:, x_col] = np.vectorize(float)(data[:, x_col]) *)
  xs ← Sorting.column c data x_col;
  xs ← (if decide (xs = []) then
          Raise (ValueError "cannot call `vectorize` on size 0 inputs unless `otypes` is set")
        else mapM py_float xs);
  data ← Sorting.assign_column data x_col (Num <$> xs);
  (* [data] is local to the parser and rebound to the result: only the
     contents of the array matter here *)
  sorted ← Sorting.sort_contents argsort_cells c data 0 (Z.of_nat x_col);
  match sorted with
  | MinusOne _ => Raise (TypeError "'float' object is not subscriptable")
  | Val data =>
      xs ← Sorting.column c data x_col;
      ys ← Sorting.column c data y_col;
      xs ← mapM as_num xs;
      ys ← mapM as_num ys;
      Ok (xs, ys)
  end.

(** [np.prod] of a boolean array. *)
Definition np_prod (bs : list bool) : Z :=
  foldr (fun (b : bool) acc => ((if b then 1 else 0) * acc)%Z) 1%Z bs.

(** The keyword arguments [**parsing_arguments] are accepted and never
    read: every file is parsed with the parser's defaults. *)
Definition from_files (ref_filepath meas_filepath : string)
    (ref_ref_filepath : option string) : exc (pyret (instance R)) :=
  '(dep_ref, ref) ← default_parser ref_filepath 3 1 tab;
  '(dep_meas, meas) ← default_parser meas_filepath 3 1 tab;
  let compatible :=
    if decide (length dep_ref = length dep_meas) then
      if decide (np_prod (zip_with feqb dep_ref dep_meas) ≠ 0%Z) then true
      else false
    else false in
  if negb compatible then
    match ref_ref_filepath with
    | Some path =>
        '(dep_ref_ref, ref_ref) ← default_parser path 3 1 tab;
        ref_ref_func ← CubicSpline dep_ref_ref ref_ref;
        from_ragged_data (NdArray (A1 dep_ref)) (NdArray (A1 ref))
          (NdArray (A1 dep_meas)) (NdArray (A1 meas)) fzero fzero
          (Some ref_ref_func)
    | None =>
        from_ragged_data (NdArray (A1 dep_ref)) (NdArray (A1 ref))
          (NdArray (A1 dep_meas)) (NdArray (A1 meas)) fzero fzero None
    end
  else
    returns (new (NdArray (A1 ref)) (NdArray (A1 meas)) fzero fzero
               (Some (NdArray (A1 dep_ref))) None None None).
End Methods.
End TransmitanceMeas1D.

(** ** ObjectCollection.py and TransmitanceMeas1DCollection.py

    Members are Python objects of which the collection only inspects the
    runtime type; [member_types] and [init_members] are lists by their type
    here, so the two checks [type(...) != type([])] of the initialiser cannot
    fail. *)

Module ObjectCollection.
Section Methods.
Context {Obj PyType : Type} `{!EqDecision PyType}.
(** Python's [type(x)] *)
Variable type : Obj -> PyType.

Record collection := Collection {
  member_types_ : list PyType;
  fRestrictive_ : bool;
  fRestrictivenessIsLocked_ : bool;
  name_ : string;
  ID_ : nat;
  members_ : list Obj
}.

(** The class attribute [next_id_] is threaded through as a counter. *)
Definition get_new_ID (next_id_ : nat) : nat * nat :=
  let next_id_ := next_id_ + 1 in
  (next_id_, next_id_ - 1).

Definition set_collection_name (self : collection) (new_name : string) :=
  Collection (member_types_ self) (fRestrictive_ self)
    (fRestrictivenessIsLocked_ self) new_name (ID_ self) (members_ self).

Definition get_collection_name (self : collection) := name_ self.
Definition get_restrictive (self : collection) := fRestrictive_ self.

Definition lock_restrictiveness (self : collection) :=
  Collection (member_types_ self) (fRestrictive_ self) true (name_ self)
    (ID_ self) (members_ self).

Definition get_collection_size (self : collection) := length (members_ self).

Definition switch_restrictiveness (self : collection) : collection :=
  if negb (fRestrictivenessIsLocked_ self) then
    let types :=
      if bool_decide (fRestrictive_ self = false) then
        foldl
          (fun types i =>
             match members_ self !! i with
             | Some m =>
                 if decide (type m ∉ types) then types ++ [type m] else types
             | None => types
             end)
          (member_types_ self) (seq 0 (get_collection_size self))
      else member_types_ self in
    Collection types (negb (fRestrictive_ self))
      (fRestrictivenessIsLocked_ self) (name_ self) (ID_ self)
      (members_ self)
  else self.

Definition try_adding_an_element (self : collection) (candidate_element : Obj)
    : collection :=
  let append :=
    Collection (member_types_ self) (fRestrictive_ self)
      (fRestrictivenessIsLocked_ self) (name_ self) (ID_ self)
      (members_ self ++ [candidate_element]) in
  if bool_decide (fRestrictive_ self = false) then append
  else if decide (type candidate_element ∈ member_types_ self) then append
  else self.

(** The lines [print_collection] writes after its two header lines. *)
Definition print_collection (self : collection) : list (nat * PyType) :=
  imap (fun i m => (i, type m)) (members_ self).

Definition __init__ (next_id_ : nat) (collection_name : string)
    (member_types : option (list PyType)) (init_members : option (list Obj))
    (restrictive : bool) : nat * collection :=
  let types := match member_types with Some l => l | None => [] end in
  let '(next_id_, id) := get_new_ID next_id_ in
  let self := Collection types restrictive false collection_name id [] in
  match init_members with
  | Some l => (next_id_, foldl try_adding_an_element self l)
  | None => (next_id_, self)
  end.

(** [TransmitanceMeas1DCollection.__init__], with the runtime type of
    [TransmitanceMeas1D] instances as a parameter. *)
Definition TransmitanceMeas1DCollection_init (TransmitanceMeas1D : PyType)
    (next_id_ : nat) (collection_name : string)
    (init_members : option (list Obj)) : nat * collection :=
  let '(next_id_, self) :=
    __init__ next_id_ collection_name (Some [TransmitanceMeas1D])
      init_members true in
  (next_id_, lock_restrictiveness self).

(** A method call on a collection, for statements about call sequences. *)
Inductive call :=
  | call_set_collection_name (new_name : string)
  | call_get_collection_name
  | call_get_restrictive
  | call_lock_restrictiveness
  | call_switch_restrictiveness
  | call_get_collection_size
  | call_try_adding_an_element (candidate_element : Obj)
  | call_print_collection.

Definition perform (self : collection) (c : call) : collection :=
  match c with
  | call_set_collection_name n => set_collection_name self n
  | call_lock_restrictiveness => lock_restrictiveness self
  | call_switch_restrictiveness => switch_restrictiveness self
  | call_try_adding_an_element x => try_adding_an_element self x
  | call_get_collection_name | call_get_restrictive
  | call_get_collection_size | call_print_collection => self
  end.

Definition perform_all (self : collection) (calls : list call) : collection :=
  foldl perform self calls.
End Methods.
End ObjectCollection.

(** ** The class attribute [next_id_]

    [cls.next_id_ += 1] reads the attribute through the class hierarchy and
    writes it on [cls] itself: the base class owns a counter, and the derived
    class has none of its own until its first instance is created, from when
    on it counts separately. *)

Module ClassAttributes.
Section Creation.
Context {Obj PyType : Type} `{!EqDecision PyType}.
Variable type : Obj -> PyType.

Record next_ids := NextIds {
  of_ObjectCollection : nat;
  of_TransmitanceMeas1DCollection : option nat
}.

(** The state of a program that has created no collection yet. *)
Definition at_start : next_ids := NextIds 0 None.

(** [ObjectCollection(collection_name, member_types, init_members,
    restrictive)] *)
Definition create_ObjectCollection (ids : next_ids) (collection_name : string)
    (member_types : option (list PyType)) (init_members : option (list Obj))
    (restrictive : bool) : next_ids * ObjectCollection.collection :=
  let '(next_id_, self) :=
    ObjectCollection.__init__ type (of_ObjectCollection ids) collection_name
      member_types init_members restrictive in
  (NextIds next_id_ (of_TransmitanceMeas1DCollection ids), self).

(** [TransmitanceMeas1DCollection(collection_name, init_members)] *)
Definition create_TransmitanceMeas1DCollection (TransmitanceMeas1D : PyType)
    (ids : next_ids) (collection_name : string)
    (init_members : option (list Obj))
    : next_ids * ObjectCollection.collection :=
  let inherited :=
    match of_TransmitanceMeas1DCollection ids with
    | Some n => n
    | None => of_ObjectCollection ids
    end in
  let '(next_id_, self) :=
    ObjectCollection.TransmitanceMeas1DCollection_init type TransmitanceMeas1D
      inherited collection_name init_members in
  (NextIds (of_ObjectCollection ids) (Some next_id_), self).
End Creation.
End ClassAttributes.

(** ** TransmitanceMeas1DCollection.py: the members and their data *)

(** The runtime types the collection tells apart, and the objects offered to
    it: instances of the two measurement classes, or anything else. *)
Inductive pytype :=
  | TransmitanceMeas1D_type
  | TransmitanceMeas_type
  | other_type (name : string).

Global Instance pytype_eq_dec : EqDecision pytype.
Proof. solve_decision. Defined.

Inductive pyobject (R : Type) :=
  | Meas1D (self : instance R)
  | Meas (self : instance R)
  | Other (cls : string).
Arguments Meas1D {R} self.
Arguments Meas {R} self.
Arguments Other {R} cls.

Definition type_of {R} (o : pyobject R) : pytype :=
  match o with
  | Meas1D _ => TransmitanceMeas1D_type
  | Meas _ => TransmitanceMeas_type
  | Other cls => other_type cls
  end.

Module TransmitanceMeas1DCollection.
Section Methods.
Context {R : Type} `{!Scalar R}.
Local Abbreviation collection := (@ObjectCollection.collection (pyobject R) pytype).

Definition __init__ (next_id_ : nat) (collection_name : string)
    (init_members : option (list (pyobject R))) : nat * collection :=
  ObjectCollection.TransmitanceMeas1DCollection_init type_of
    TransmitanceMeas1D_type next_id_ collection_name init_members.

(** A method that only reads its object. *)
Definition reading {A} (method : instance R -> exc A) (self : instance R)
    : exc (instance R * A) :=
  v ← method self; Ok (self, v).

(** [self.members_[i].name()] as [exec] runs it, for the name of a method
    that takes no argument: [inherited] says whether the base class
    [TransmitanceMeas] defines it too; an object of another class has no
    attribute of that name. *)
Definition call_on {A} (name : string) (inherited : bool)
    (method : instance R -> exc (instance R * A)) (m : pyobject R)
    : exc (pyobject R * A) :=
  match m with
  | Meas1D self => '(self, v) ← method self; Ok (Meas1D self, v)
  | Meas self =>
      if inherited then '(self, v) ← method self; Ok (Meas self, v)
      else Raise (AttributeError name)
  | Other _ => Raise (AttributeError name)
  end.

(** The loop of [get_list_of_members_data] over the members: the members as
    the loop leaves them (a method may write to its object) and the list
    gathered, or the exception that ended the loop. *)
Fixpoint gather {A} (f : pyobject R -> exc (pyobject R * A))
    (members : list (pyobject R)) : list (pyobject R) * exc (list A) :=
  match members with
  | [] => ([], Ok [])
  | m :: rest =>
      match f m with
      | Raise e => (m :: rest, Raise e)
      | Ok (m', v) =>
          let '(rest', r) := gather f rest in
          (m' :: rest', match r with Ok vs => Ok (v :: vs) | Raise e => Raise e end)
      end
  end.

(** [get_list_of_members_data(retrieval_func_str)] for a string that names a
    method without parameters; the method the name resolves to is passed
    along with the name. *)
Definition get_list_of_members_data {A} (retrieval_func_str : string)
    (inherited : bool) (method : instance R -> exc (instance R * A))
    (self : collection) : collection * exc (list A) :=
  let '(members, list_of_members_data) :=
    gather (call_on retrieval_func_str inherited method)
      (ObjectCollection.members_ self) in
  (ObjectCollection.Collection (ObjectCollection.member_types_ self)
     (ObjectCollection.fRestrictive_ self)
     (ObjectCollection.fRestrictivenessIsLocked_ self)
     (ObjectCollection.name_ self) (ObjectCollection.ID_ self) members,
   list_of_members_data).

Definition get_list_of_dep :=
  get_list_of_members_data "get_dep" true (reading TransmitanceMeas.get_dep).
Definition get_list_of_ref :=
  get_list_of_members_data "get_ref" true (reading TransmitanceMeas.get_ref).
Definition get_list_of_meas :=
  get_list_of_members_data "get_meas" true (reading TransmitanceMeas.get_meas).
Definition get_list_of_transmitance :=
  get_list_of_members_data "get_transmitance" true
    TransmitanceMeas.get_transmitance.
Definition get_list_of_rawest_ref :=
  get_list_of_members_data "get_rawest_ref" false
    (reading TransmitanceMeas1D.get_rawest_ref).
Definition get_list_of_rawest_meas :=
  get_list_of_members_data "get_rawest_meas" false
    (reading TransmitanceMeas1D.get_rawest_meas).
Definition get_list_of_refInterpolator :=
  get_list_of_members_data "get_refInterpolator" false
    (reading TransmitanceMeas1D.get_refInterpolator).

(** [unzip_list(aList)] on a list of two-dimensional arrays: all the first
    columns, then all the second columns. *)
Definition unzip_list (aList : list (nat * list (list R)))
    : exc (list (list R) * list (list R)) :=
  c1_list ← mapM (fun a => Sorting.column a.1 a.2 0) aList;
  c2_list ← mapM (fun a => Sorting.column a.1 a.2 1) aList;
  Ok (c1_list, c2_list).
End Methods.
End TransmitanceMeas1DCollection.

(** ** An instance with exact rational arithmetic

    Entries are rationals kept in lowest terms.  The library primitives are
    given executable stand-ins: a stable insertion sort for [numpy.argsort];
    the interpolating polynomial for [CubicSpline] (with up to four knots
    scipy's default not-a-knot spline is that polynomial; with more knots the
    two differ, and the instance is not evaluated there); the closed-form
    least-squares solution for [curve_fit] on models of the shape
    [sca * (off + g x)]; a reader of plain decimal numerals for [float]. *)

Module Rational.
Open Scope Q_scope.

Global Instance Q_scalar : Scalar Q := {|
  fzero := 0;
  fadd a b := Qred (a + b);
  fsub a b := Qred (a - b);
  fmul a b := Qred (a * b);
  fdiv a b := Qred (a / b);
  feqb := Qeq_bool;
  fleb := Qle_bool
|}.

Definition key_leb {T} (leb : T -> T -> bool) (l : list T) (j i : nat) : bool :=
  match l !! j, l !! i with
  | Some a, Some b => leb a b
  | _, _ => true
  end.

(** Insert index [i] behind every index whose key is not larger. *)
Fixpoint insert_index {T} (leb : T -> T -> bool) (l : list T) (i : nat)
    (sorted : list nat) : list nat :=
  match sorted with
  | [] => [i]
  | j :: rest =>
      if key_leb leb l j i then j :: insert_index leb l i rest
      else i :: j :: rest
  end.

Definition insertion_argsort {T} (leb : T -> T -> bool) (l : list T)
    : list nat :=
  foldl (fun sorted i => insert_index leb l i sorted) [] (seq 0 (length l)).

Fixpoint strictly_increasing (xs : list Q) : bool :=
  match xs with
  | a :: (b :: _) as rest => negb (Qle_bool b a) && strictly_increasing rest
  | _ => true
  end.

Definition lagrange_basis (xs : list Q) (j : nat) (xj x : Q) : Q :=
  foldr Qmult 1
    (imap (fun m xm => if decide (m = j) then 1 else (x - xm) / (xj - xm)) xs).

Definition lagrange (xs ys : list Q) : callable Q := fun x =>
  Qred (foldr Qplus 0
          (imap (fun j p => p.2 * lagrange_basis xs j p.1 x) (zip xs ys))).

Definition interpolate (xs ys : list Q) : exc (callable Q) :=
  if negb (bool_decide (length xs = length ys)) then
    Raise (ValueError "The length of `y` along `axis`=0 doesn't match the length of `x`")
  else if bool_decide (length xs < 2)%nat then
    Raise (ValueError "`x` must contain at least 2 elements.")
  else if negb (strictly_increasing xs) then
    Raise (ValueError "`x` must be strictly increasing sequence.")
  else Ok (lagrange xs ys).

Definition qsum (l : list Q) : Q := foldr Qplus 0 l.

Definition least_squares (f : Q -> Q -> Q -> Q) (xs ys : list Q)
    : exc (Q * Q) :=
  let g := (fun x => f x 1 0) <$> xs in
  let n := inject_Z (Z.of_nat (length xs)) in
  let det := n * qsum (zip_with Qmult g g) - qsum g * qsum g in
  let a := (n * qsum (zip_with Qmult g ys) - qsum g * qsum ys) / det in
  let b := (qsum ys - a * qsum g) / n in
  if Qeq_bool det 0 || Qeq_bool a 0 then
    Raise (ValueError "Optimal parameters not found")
  else Ok (Qred a, Qred (b / a)).

Definition digit (c : ascii) : option Z :=
  let n := Z.of_nat (nat_of_ascii c) in
  if decide (48 <= n <= 57)%Z then Some (n - 48)%Z else None.

(** The digits of [s] read as a number after the digits in [acc]. *)
Fixpoint digits (s : string) (acc : Z) : option Z :=
  match s with
  | EmptyString => Some acc
  | String c s' => d ← digit c; digits s' (10 * acc + d)%Z
  end.

(** Splits [s] at its first full stop, if it has one. *)
Fixpoint split_point (s : string) : string * option string :=
  match s with
  | EmptyString => (EmptyString, None)
  | String c s' =>
      if decide (c = "."%char) then (EmptyString, Some s')
      else let '(a, b) := split_point s' in (String c a, b)
  end.

Definition unsigned_decimal (s : string) : option Q :=
  let '(whole, frac) := split_point s in
  if decide (whole = EmptyString) then None
  else
    w ← digits whole 0;
    match frac with
    | None => Some (inject_Z w)
    | Some fr =>
        v ← digits fr w;
        Some (Qred (v # Z.to_pos (10 ^ Z.of_nat (String.length fr))))
    end.

Definition decimal (s : string) : option Q :=
  match s with
  | String "-"%char s' => Qopp <$> unsigned_decimal s'
  | _ => unsigned_decimal s
  end.

Global Instance Q_library : Library Q := {|
  CubicSpline := interpolate;
  curve_fit := least_squares;
  argsort := insertion_argsort Qle_bool;
  float_of_str := decimal
|}.
End Rational.

(** ** Vocabulary of the statements *)

(** The shape condition of the data model: reference and filtered agree,
    and so does the dependent variable when it is available. *)
Definition shapes_agree {R} (ref meas : ndarray R) (avail : bool)
    (dep : option (pyarg R)) : Prop :=
  np_shape ref = np_shape meas ∧
  (avail = true → ∃ d, dep = Some d ∧ np_shape ref = np_shape (arg_array d)).

(** What [from_files] tests before it picks a route: equal length and
    entrywise equality of the two dependent-variable arrays. *)
Definition aligned {R} `{!Scalar R} (dep_ref dep_meas : list R) : Prop :=
  length dep_ref = length dep_meas ∧
  ∀ i x y, dep_ref !! i = Some x → dep_meas !! i = Some y → feqb x y = true.

(** A one-dimensional array whose entries never decrease along [leb]. *)
Definition ascending {T} (leb : T -> T -> bool) (keys : list T) : Prop :=
  ∀ i x y, keys !! i = Some x → keys !! S i = Some y → leb x y = true.

(** What [numpy.argsort] promises of its result [idx] on [keys]: the indices
    are those of [keys], each once, and the keys read in that order ascend. *)
Definition sorting_permutation {T} (leb : T -> T -> bool) (keys : list T)
    (idx : list nat) : Prop :=
  idx ≡ₚ seq 0 (length keys) ∧
  ∃ sorted_keys,
    Forall2 (fun k x => keys !! k = Some x) idx sorted_keys ∧
    ascending leb sorted_keys.

(** The size an operand of [stick_together] has along the axis that is not
    the target axis, once a one-dimensional operand has been promoted with
    [expand_dims]. *)
Definition off_axis_size {T} (a : ndarray T) (axis : bool) : option nat :=
  match a with
  | A1 v => Some (length v)
  | A2 c rows => Some (if axis then length rows else c)
  | _ => None
  end.

(** The array in the middle of the column loop of the sort: in every row
    the first [j] entries already come from the row picked for that position,
    the others are still the row's own. *)
Definition mix {T} (j : nat) (picked rows : list (list T)) : list (list T) :=
  zip_with (fun rk ri => take j rk ++ drop j ri) picked rows.

(** An instance holds compatible data when its reference and with-filter
    arrays are stored, the availability flag is set, and the shapes agree. *)
Definition holds_compatible_data {R} (self : instance R) : Prop :=
  ∃ ref meas avail,
    ref_ self = Some ref ∧ meas_ self = Some meas ∧
    dep_is_available_ self = Some avail ∧
    shapes_agree ref meas avail (dep_ self).

(** A call of [correct_ref] or of [correct_meas], and a sequence of them. *)
Inductive correction (R : Type) :=
  | CorrectRef (offset : R)
  | CorrectMeas (offset : R).
Arguments CorrectRef {R} offset.
Arguments CorrectMeas {R} offset.

Definition apply_correction {R} `{!Scalar R} (self : instance R)
    (c : correction R) : exc (instance R) :=
  match c with
  | CorrectRef offset => TransmitanceMeas.correct_ref self offset
  | CorrectMeas offset => TransmitanceMeas.correct_meas self offset
  end.

Definition apply_corrections {R} `{!Scalar R} (self : instance R)
    (cs : list (correction R)) : exc (instance R) :=
  for_each apply_correction self cs.

(** ** Concrete inputs used by the examples below *)

Module Inputs.
Import Rational.
Open Scope Q_scope.

(** An instance holding reference [1, 2, 4] and filtered [3, 3, 2]. *)
Definition ratio_instance : instance Q :=
  Instance (Some false) None (Some (A1 [1; 2; 4])) (Some (A1 [3; 3; 2]))
    None None None None None.

Definition five : ndarray Q := A1 [1; 2; 3; 4; 5].
Definition four : ndarray Q := A1 [1; 2; 3; 4].

(** Three instrument logs as pandas hands them over: the dark-current row
    first, then four readings each (time stamp, average, STD, wavelength),
    not in ascending order of the wavelength.  The first two logs share
    their wavelengths, the third has its own. *)
Definition log (dark : Q) (readings : list (string * Q * Q * string))
    : nat * list (list (cell Q)) :=
  (4%nat,
   [Str "09:00:00"; Num dark; Num (1 # 10); Str "DC"]
     :: ((fun r => [Str r.1.1.1; Num r.1.1.2; Num r.1.2; Str r.2]) <$> readings)).

Definition reference_log := log 1
  [("09:00:03", 31, 7, "600"); ("09:00:01", 11, 5, "400");
   ("09:00:04", 41, 8, "700"); ("09:00:02", 21, 6, "500")].
Definition filtered_log := log 1
  [("09:10:01", 6, 5, "400"); ("09:10:02", 11, 6, "500");
   ("09:10:03", 16, 7, "600"); ("09:10:04", 21, 8, "700")].
Definition ragged_log := log 2
  [("09:20:01", 7, 5, "450"); ("09:20:02", 12, 6, "550");
   ("09:20:03", 17, 7, "650.5"); ("09:20:04", 22, 8, "750")].

Global Instance lab_files : Files Q := {|
  read_csv filepath separator :=
    if decide (separator = tab) then
      if decide (filepath = "reference.txt") then Ok reference_log
      else if decide (filepath = "filtered.txt") then Ok filtered_log
      else if decide (filepath = "ragged.txt") then Ok ragged_log
      else Raise (FileNotFoundError filepath)
    else Raise (ValueError "Error tokenizing data")
|}.

(** An array object holding [[2, 1], [1, 2]] at location 0. *)
Definition one_array : heap Q := {[ 0%nat := (2%nat, [[2; 1]; [1; 2]]) ]}.
End Inputs.

(** * Properties *)

(** ** The base class *)

Section RatioFacts.
Context {R : Type} `{!Scalar R}.
Implicit Type self : instance R.

Lemma np_map2_shape (f : R → R → R) (a b t : ndarray R) :
  np_map2 f a b = Some t → np_shape t = np_shape a.
Proof.
  unfold np_map2. case_decide as Hs; [|done].
  destruct a, b; simpl in *; try done; intros [= <-]; simpl; try done.
  - f_equal. rewrite length_zip_with. injection Hs as Hs. lia.
  - f_equal. rewrite length_zip_with. injection Hs as Hs _. lia.
Qed.

Lemma np_map2_item (f : R → R → R) (a b t : ndarray R) (idx : list nat) :
  np_map2 f a b = Some t →
  item t idx = (x ← item a idx; y ← item b idx; Some (f x y)).
Proof.
  unfold np_map2. case_decide as Hs; [|done].
  destruct a as [x|v|c r1|d1 d2 d3 rest f1], b as [y|w|c' r2|e1 e2 e3 rest' f2];
    try done; intros [= <-].
  - by destruct idx.
  - destruct idx as [|i [|? ?]]; try done. apply lookup_zip_with.
  - destruct idx as [|i [|j [|? ?]]]; try done.
    unfold item. rewrite lookup_zip_with.
    destruct (r1 !! i) as [row1|]; simpl; [|done].
    destruct (r2 !! i) as [row2|]; simpl.
    + apply lookup_zip_with.
    + by destruct (row1 !! j).
  - injection Hs as <- <- <- <-. unfold item.
    destruct (ravel (d1 :: d2 :: d3 :: rest) idx) as [k|]; [|done].
    apply lookup_zip_with.
Qed.

Lemma np_map2_defined (f : R → R → R) (a b : ndarray R) :
  np_shape a = np_shape b → is_Some (np_map2 f a b).
Proof.
  intros Hs. unfold np_map2. rewrite decide_True by done.
  destruct a, b; simpl in *; try done; eauto.
Qed.

(** C2.  On an instance whose attributes are set, [check_compatibility]
    returns a bool that is true exactly when the shapes of reference and
    filtered agree (and that of the dependent variable, when available);
    when they agree, [get_transmitance] returns (and caches) an array of
    the common shape whose entry at every index is the filtered entry
    divided by the reference entry.  Nothing is required of the reference
    entries: numpy's division is total, so the absence of zeros that the
    claim asks for is not needed. *)
Theorem ratio_is_entrywise_quotient self (ref meas : ndarray R) (avail : bool) :
  ref_ self = Some ref →
  meas_ self = Some meas →
  dep_is_available_ self = Some avail →
  (avail = true → is_Some (dep_ self)) →
  (∃ b, TransmitanceMeas.check_compatibility self = Ok b ∧
        (b = true ↔ shapes_agree ref meas avail (dep_ self))) ∧
  (shapes_agree ref meas avail (dep_ self) →
   TransmitanceMeas.check_compatibility self = Ok true ∧
   ∃ t, TransmitanceMeas.get_transmitance self
          = Ok (set_transmitance_ t self, Val t) ∧
        np_shape t = np_shape ref ∧
        ∀ idx, item t idx
               = (m ← item meas idx; r ← item ref idx; Some (fdiv m r))).
Proof.
  intros Href Hmeas Havail Hdep.
  assert (∃ b, TransmitanceMeas.check_compatibility self = Ok b ∧
               (b = true ↔ shapes_agree ref meas avail (dep_ self)))
    as Hcheck.
  { unfold TransmitanceMeas.check_compatibility, shapes_agree.
    rewrite Havail, Href, Hmeas. simpl.
    destruct avail.
    - destruct (Hdep eq_refl) as [d Hd]. rewrite Hd.
      case_decide as Hs; simpl.
      + eexists; split; [done|]. rewrite bool_decide_eq_true.
        split; [intros ?; split; eauto|].
        intros [_ Hd']. destruct (Hd' eq_refl) as (d' & [= <-] & ?). done.
      + eexists; split; [done|]. split; [done|]. intros [? _]. done.
    - eexists; split; [done|]. rewrite bool_decide_eq_true.
      split; [intros ?; split; [done|discriminate]|]. by intros [? _]. }
  split; [done|].
  intros Hagree. destruct Hcheck as (b & Hb & Hiff).
  apply Hiff in Hagree as Htrue. subst b. split; [done|].
  unfold TransmitanceMeas.get_transmitance. rewrite Hb. simpl.
  rewrite Hmeas, Href. simpl.
  destruct Hagree as [Hs _].
  destruct (np_map2_defined fdiv meas ref) as [t Ht]; [done|].
  rewrite Ht. exists t. split; [done|]. split.
  - rewrite (np_map2_shape _ _ _ _ Ht). done.
  - intros idx. by apply np_map2_item.
Qed.

(** C6.  Constructing a [TransmitanceMeas] from two arrays of different
    shapes, or with a dependent-variable array whose shape differs from the
    reference's, prints the diagnostic of the failed shape check (ERR1,
    resp. ERR2) and leaves [__init__] through [return -1.], which makes the
    constructor call raise: no instance is returned, and the object
    [__init__] was working on holds neither [ref_] nor [meas_]. *)
Theorem mismatched_shapes_abort_construction (ref meas : ndarray R)
    (ref_offset meas_offset : R) (dep : option (pyarg R)) :
  np_shape ref ≠ np_shape meas ∨
  (∃ d, dep = Some d ∧ np_shape (arg_array d) ≠ np_shape ref) →
  let built :=
    TransmitanceMeas.new (NdArray ref) (NdArray meas) ref_offset meas_offset
      dep in
  let partial :=
    (TransmitanceMeas.__init__ fresh (NdArray ref) (NdArray meas) ref_offset
       meas_offset dep).1 in
  (∃ printed,
     built = Raise (InitReturnedValue printed) ∧
     printed = (if decide (np_shape ref ≠ np_shape meas)
                then TransmitanceMeas.ERR1_init
                else TransmitanceMeas.ERR2_init)) ∧
  (∀ self, built ≠ Ok self) ∧
  ref_ partial = None ∧ meas_ partial = None.
Proof.
  intros Hmis built partial.
  assert (∃ self' printed,
    TransmitanceMeas.__init__ fresh (NdArray ref) (NdArray meas) ref_offset
      meas_offset dep = (self', MinusOne printed) ∧
    ref_ self' = None ∧ meas_ self' = None ∧
    printed = (if decide (np_shape ref ≠ np_shape meas)
               then TransmitanceMeas.ERR1_init
               else TransmitanceMeas.ERR2_init)) as (self' & printed & Hinit & ? & ? & ?).
  { unfold TransmitanceMeas.__init__. simpl.
    case_decide as Hs; [by eauto 10|].
    destruct Hmis as [?|(d & -> & Hd)]; [done|].
    rewrite decide_True by done. by eauto 10. }
  subst built partial.
  unfold TransmitanceMeas.new, instantiate. rewrite Hinit. simpl.
  split; [by eauto|]. split; [done|]. done.
Qed.
End RatioFacts.

(** A run of C2's statement: reference [1, 2, 4], filtered [3, 3, 2], no
    dependent variable. *)
Lemma ratio_is_entrywise_quotient_witness :
  let self := Inputs.ratio_instance in
  let ref : ndarray Q := A1 [1; 2; 4]%Q in
  let meas : ndarray Q := A1 [3; 3; 2]%Q in
  (ref_ self = Some ref ∧ meas_ self = Some meas ∧
   dep_is_available_ self = Some false ∧
   (false = true → is_Some (dep_ self))) ∧
  shapes_agree ref meas false (dep_ self) ∧
  TransmitanceMeas.check_compatibility self = Ok true ∧
  ∃ t, TransmitanceMeas.get_transmitance self
         = Ok (set_transmitance_ t self, Val t) ∧
       np_shape t = [3] ∧
       item t [1] = Some (3 # 2)%Q.
Proof.
  intros self ref meas.
  assert (shapes_agree ref meas false (dep_ self)) as Hagree.
  { split; [reflexivity | intros [=]]. }
  destruct (ratio_is_entrywise_quotient self ref meas false
              eq_refl eq_refl eq_refl (fun H => False_ind _ (Bool.diff_false_true H)))
    as [_ Hratio].
  destruct (Hratio Hagree) as (Hcheck & t & Hget & Hshape & Hitem).
  split; [repeat split; intros [=] |].
  split; [exact Hagree |].
  split; [exact Hcheck |].
  exists t. split; [exact Hget |]. split; [exact Hshape |].
  rewrite Hitem. reflexivity.
Defined.

(** A run of C6's statement: a reference of shape (5,) against a filtered
    array of shape (4,). *)
Lemma mismatched_shapes_abort_construction_witness :
  (np_shape Inputs.five ≠ np_shape Inputs.four ∨
   ∃ d, (None : option (pyarg Q)) = Some d ∧
        np_shape (arg_array d) ≠ np_shape Inputs.five) ∧
  TransmitanceMeas.new (NdArray Inputs.five) (NdArray Inputs.four) 0%Q 0%Q None
    = Raise (InitReturnedValue TransmitanceMeas.ERR1_init).
Proof.
  assert (np_shape Inputs.five ≠ np_shape Inputs.four) as Hne by (intros [=]).
  split; [left; exact Hne |].
  destruct (mismatched_shapes_abort_construction Inputs.five Inputs.four
              0%Q 0%Q None (or_introl Hne)) as ((printed & -> & ->) & _).
  reflexivity.
Defined.

(** ** The stacking utility *)

Section StackingFacts.
Context {T : Type}.

Lemma stick_1d_axis0 (v w : list T) :
  length v = length w →
  Stacking.stick_together (NdArray (A1 v)) (NdArray (A1 w)) false
  = Ok (Val (A2 (length v) [v; w])).
Proof.
  intros Hlen. unfold Stacking.stick_together. simpl.
  rewrite decide_False by lia.
  unfold Stacking.concatenate, Stacking.expand_dims. simpl.
  by rewrite decide_True.
Qed.

(** C8.  Stacking two one-dimensional arrays of one length [n] along axis 0
    returns the 2-by-[n] array whose rows are the two inputs in order; and
    whenever the sizes of two one- or two-dimensional operands along the
    non-target axis differ, the call prints one of its diagnostics and
    returns the float -1. in place of a concatenation. *)
Theorem stick_together_rows (v1 v2 : list T) (arr1 arr2 : pyarg T)
    (axis : bool) (n1 n2 : nat) :
  (length v1 = length v2 →
   Stacking.stick_together (NdArray (A1 v1)) (NdArray (A1 v2)) false
     = Ok (Val (A2 (length v1) [v1; v2])) ∧
   np_shape (A2 (length v1) [v1; v2]) = [2; length v1]) ∧
  (off_axis_size (arg_array arr1) axis = Some n1 →
   off_axis_size (arg_array arr2) axis = Some n2 →
   n1 ≠ n2 →
   ∃ printed, Stacking.stick_together arr1 arr2 axis = Ok (MinusOne printed)).
Proof.
  split.
  - intros Hlen. split; [by apply stick_1d_axis0 | done].
  - intros H1 H2 Hne. unfold Stacking.stick_together.
    destruct (negb (is_ndarray arr1) || negb (is_ndarray arr2)); [by eauto|].
    case_decide; [by eauto|].
    destruct (arg_array arr1) as [|w1|c1 r1|], (arg_array arr2) as [|w2|c2 r2|];
      simpl in H1, H2; try done;
      injection H1 as <-; injection H2 as <-;
      destruct axis; simpl; rewrite decide_True by done; eauto.
Qed.
End StackingFacts.
Arguments stick_1d_axis0 {T} v w _.

(** A run of C8's statement: [1, 2, 3] on top of [4, 5, 6], and a length-3
    array against a length-2 array. *)
Lemma stick_together_rows_witness :
  (length [1; 2; 3]%Z = length [4; 5; 6]%Z ∧
   off_axis_size (arg_array (NdArray (A1 [1; 2; 3]%Z))) true = Some 3 ∧
   off_axis_size (arg_array (NdArray (A1 [4; 5]%Z))) true = Some 2 ∧
   3 ≠ 2) ∧
  Stacking.stick_together (NdArray (A1 [1; 2; 3]%Z)) (NdArray (A1 [4; 5; 6]%Z))
    false = Ok (Val (A2 3 [[1; 2; 3]; [4; 5; 6]]%Z)) ∧
  Stacking.stick_together (NdArray (A1 [1; 2; 3]%Z)) (NdArray (A1 [4; 5]%Z))
    true = Ok (MinusOne Stacking.ERR4).
Proof.
  assert (3 ≠ 2) as Hne by lia.
  split; [repeat split; lia |].
  destruct (stick_together_rows [1; 2; 3]%Z [4; 5; 6]%Z
              (NdArray (A1 [1; 2; 3]%Z)) (NdArray (A1 [4; 5]%Z)) true 3 2)
    as [Hrows Hfail].
  split.
  - exact (proj1 (Hrows eq_refl)).
  - destruct (Hfail eq_refl eq_refl Hne) as [printed Hp].
    rewrite Hp. f_equal. f_equal.
    injection Hp. intros <-. reflexivity.
Defined.

(** ** The typed collection *)

Section CollectionFacts.
Context {Obj PyType : Type} `{!EqDecision PyType}.
Variable type : Obj → PyType.
Local Abbreviation collection := (@ObjectCollection.collection Obj PyType).
Import ObjectCollection.

Lemma switch_when_locked (self : collection) :
  fRestrictivenessIsLocked_ self = true →
  switch_restrictiveness type self = self.
Proof. intros Hl. unfold switch_restrictiveness. by rewrite Hl. Qed.

(** No method call unlocks, and under the lock no call changes the
    restriction flag or the allowed types. *)
Lemma perform_keeps_lock (self : collection) (c : call) :
  fRestrictivenessIsLocked_ self = true →
  fRestrictivenessIsLocked_ (perform type self c) = true ∧
  fRestrictive_ (perform type self c) = fRestrictive_ self ∧
  member_types_ (perform type self c) = member_types_ self.
Proof.
  intros Hl. destruct c; simpl; try done.
  - by rewrite switch_when_locked.
  - unfold try_adding_an_element.
    repeat (case_bool_decide || case_decide); done.
Qed.

Lemma perform_all_keeps_lock (calls : list call) (self : collection) :
  fRestrictivenessIsLocked_ self = true →
  fRestrictivenessIsLocked_ (perform_all type self calls) = true ∧
  fRestrictive_ (perform_all type self calls) = fRestrictive_ self ∧
  member_types_ (perform_all type self calls) = member_types_ self.
Proof.
  revert self. induction calls as [|c calls IH]; intros self Hl; [done|].
  destruct (perform_keeps_lock self c Hl) as (Hl' & Hr & Hm).
  destruct (IH _ Hl') as (? & ? & ?).
  unfold perform_all in *. simpl. repeat split; congruence.
Qed.

(** C9.  After [lock_restrictiveness], whatever method calls follow, a
    call of [switch_restrictiveness] returns the collection as it found it
    (restriction flag and allowed types included); the lock stays set, and
    flag and allowed types keep the values they had when the lock was
    taken. *)
Theorem locked_restrictiveness_is_a_latch (self : collection)
    (calls : list call) :
  let later := perform_all type (lock_restrictiveness self) calls in
  switch_restrictiveness type later = later ∧
  fRestrictivenessIsLocked_ later = true ∧
  fRestrictive_ later = fRestrictive_ self ∧
  member_types_ later = member_types_ self.
Proof.
  intros later.
  destruct (perform_all_keeps_lock calls (lock_restrictiveness self) eq_refl)
    as (Hl & Hr & Hm).
  split; [by apply switch_when_locked|]. done.
Qed.
End CollectionFacts.

(** ** The one-dimensional class *)

Section MeasurementFacts.
Context {R : Type} `{!Scalar R} `{!Library R} `{!Files R}.
Implicit Type self : instance R.

(** The base initialiser touches none of the subclass attributes. *)
Lemma base_init_frame self (ref meas : pyarg R) (ro mo : R) dep :
  let self' := (TransmitanceMeas.__init__ self ref meas ro mo dep).1 in
  raw_ref_ self' = raw_ref_ self ∧ raw_meas_ self' = raw_meas_ self ∧
  fInterpolator_ self' = fInterpolator_ self ∧
  refInterpolator_ self' = refInterpolator_ self.
Proof.
  unfold TransmitanceMeas.__init__.
  repeat (case_match || case_decide); done.
Qed.

(** What [TransmitanceMeas1D.__init__] leaves in the subclass attributes of
    an instance it completes. *)
Lemma init_attributes (ref meas : pyarg R) (ro mo : R) dep raw_ref raw_meas
    interp self :
  TransmitanceMeas1D.new ref meas ro mo dep raw_ref raw_meas interp = Ok self →
  raw_ref_ self = Some raw_ref ∧ raw_meas_ self = Some raw_meas ∧
  fInterpolator_ self
    = Some (FlagBool (bool_decide (is_Some interp ∨ is_Some dep))) ∧
  refInterpolator_ self = interp.
Proof.
  unfold TransmitanceMeas1D.new, TransmitanceMeas1D.__init__, instantiate.
  intros H.
  repeat (case_decide; [done|]).
  assert (∀ s0 : instance R,
    (let '(s, _) := TransmitanceMeas.__init__ s0 ref meas ro mo dep in
     Ok (s, Val ())) ≫=
      (λ pat : instance R * pyret (),
        match pat with
        | (s, Val _) => Ok s
        | (s, MinusOne printed) => Raise (InitReturnedValue printed)
        end) = Ok self →
    raw_ref_ self = raw_ref_ s0 ∧ raw_meas_ self = raw_meas_ s0 ∧
    fInterpolator_ self = fInterpolator_ s0 ∧
    refInterpolator_ self = refInterpolator_ s0) as Hbase.
  { intros s0 Hs0.
    pose proof (base_init_frame s0 ref meas ro mo dep) as Hf.
    destruct (TransmitanceMeas.__init__ s0 ref meas ro mo dep) as [s r].
    simpl in *. by injection Hs0 as <-. }
  destruct dep as [d|], interp as [f|]; simpl in H.
  - case_bool_decide; [done|]. simpl in H.
    apply Hbase in H as (-> & -> & -> & ->).
    rewrite bool_decide_eq_true_2 by eauto. done.
  - case_bool_decide; [done|].
    destruct (TransmitanceMeas1D.entries d) as [x|]; [|done].
    destruct (TransmitanceMeas1D.entries ref) as [y|]; [|done].
    simpl in H. destruct (CubicSpline x y) as [spline|]; [|done].
    simpl in H.
    apply Hbase in H as (-> & -> & -> & ->).
    rewrite bool_decide_eq_true_2 by eauto. done.
  - apply Hbase in H as (-> & -> & -> & ->).
    rewrite bool_decide_eq_true_2 by eauto. done.
  - apply Hbase in H as (-> & -> & -> & ->).
    rewrite bool_decide_eq_false_2; [done|].
    intros [[? [=]]|[? [=]]].
Qed.

(** C1.  Every instance the direct constructor completes from a
    dependent-variable array and no interpolator has its flag
    [fInterpolator_] set and no attribute [refInterpolator_]: the spline
    built from (dep, ref) was assigned to the flag and overwritten by
    [True].  [get_refInterpolator] therefore raises instead of handing out
    a model. *)
Theorem direct_route_never_stores_model (ref meas dep : pyarg R) (ro mo : R)
    raw_ref raw_meas self :
  TransmitanceMeas1D.new ref meas ro mo (Some dep) raw_ref raw_meas None
    = Ok self →
  fInterpolator_ self = Some (FlagBool true) ∧
  refInterpolator_ self = None ∧
  TransmitanceMeas1D.get_refInterpolator self
    = Raise (AttributeError "refInterpolator_").
Proof.
  intros H. apply init_attributes in H as (_ & _ & Hflag & Hmodel).
  rewrite bool_decide_eq_true_2 in Hflag by eauto.
  unfold TransmitanceMeas1D.get_refInterpolator.
  rewrite Hflag, Hmodel. done.
Qed.

Lemma zip_with_app_singletons (v w : list R) :
  zip_with app ((λ x, [x]) <$> v) ((λ x, [x]) <$> w)
  = zip_with (λ x y, [x; y]) v w.
Proof.
  revert w. induction v as [|x v IH]; intros [|y w]; simpl; try done.
  by rewrite IH.
Qed.

Lemma stick_1d_axis1 (v w : list R) :
  length v = length w →
  Stacking.stick_together (NdArray (A1 v)) (NdArray (A1 w)) true
  = Ok (Val (A2 2 (zip_with (λ x y, [x; y]) v w))).
Proof.
  intros Hlen. unfold Stacking.stick_together. simpl.
  rewrite decide_False by lia.
  unfold Stacking.concatenate, Stacking.expand_dims. simpl.
  rewrite !length_fmap, decide_True by done. simpl.
  by rewrite zip_with_app_singletons.
Qed.

(** C3.  On every call of [from_ragged_data] that returns an instance, the
    stored raw reference data is the [n]-by-2 array of the pairs
    (dep_ref, ref + ref_offset), one pair per row, whereas the stored raw
    with-filter data is the 2-by-[m] array whose first row is [dep_meas]
    and whose second row is [meas + meas_offset]: the second call of
    [stick_together] leaves the axis at its default 0. *)
Theorem ragged_route_raw_layout (dep_ref ref dep_meas meas : list R)
    (ro mo : R) ref_ref_func self :
  TransmitanceMeas1D.from_ragged_data (NdArray (A1 dep_ref)) (NdArray (A1 ref))
    (NdArray (A1 dep_meas)) (NdArray (A1 meas)) ro mo ref_ref_func
    = Ok (Val self) →
  raw_ref_ self
    = Some (Some (Val (A2 2 (zip_with (λ x y, [x; y]) dep_ref
                               ((λ x, fadd x ro) <$> ref))))) ∧
  raw_meas_ self
    = Some (Some (Val (A2 (length dep_meas)
                         [dep_meas; (λ x, fadd x mo) <$> meas]))) ∧
  (∀ a, raw_meas_ self = Some (Some (Val a)) →
        np_shape a = [2; length meas]).
Proof.
  unfold TransmitanceMeas1D.from_ragged_data. simpl.
  intros H.
  repeat (case_decide; [done|]).
  assert (length dep_ref = length ref ∧ length dep_meas = length meas)
    as [Hr Hm].
  { split; apply dec_stable; intros Hne; apply H0; [left|right]; congruence. }
  destruct (match ref_ref_func with Some _ => _ | None => _ end)
    as [[ref_func vectorized]|]; [|done].
  simpl in H.
  destruct (if vectorized && _ then _ else _) as [ref0|]; [|done].
  simpl in H. unfold TransmitanceMeas1D.stick_together in H.
  rewrite stick_1d_axis1 in H by (by rewrite length_fmap).
  rewrite stick_1d_axis0 in H by (by rewrite length_fmap).
  simpl in H. unfold returns in H.
  destruct (TransmitanceMeas1D.new _ _ _ _ _ _ _ _) as [s|] eqn:Hnew; [|done].
  injection H as ->.
  apply init_attributes in Hnew as (Href & Hmeas & _).
  rewrite Href, Hmeas. split; [done|]. split; [done|].
  intros a [= <-]. simpl. by rewrite Hm.
Qed.
End MeasurementFacts.

(** C1 on the inputs of the round-trip property: dep [1, 2, 3] and reference
    [10, 20, 30] build an instance, and asking it for its model raises. *)
Lemma direct_route_never_stores_model_witness :
  let built :=
    TransmitanceMeas1D.new (NdArray (A1 [10; 20; 30]%Q))
      (NdArray (A1 [5; 10; 15]%Q)) 0%Q 0%Q (Some (NdArray (A1 [1; 2; 3]%Q)))
      None None None in
  ∃ self, built = Ok self ∧
          TransmitanceMeas1D.get_refInterpolator self
            = Raise (AttributeError "refInterpolator_").
Proof.
  intros built.
  destruct built as [self|e] eqn:Hbuilt; [|discriminate Hbuilt].
  exists self. split; [reflexivity|].
  exact (proj2 (proj2 (direct_route_never_stores_model _ _ _ _ _ _ _ _ Hbuilt))).
Defined.

(** C3 on the inputs of the ragged-reconciliation property: the raw
    with-filter data of the instance is a 2-by-3 array. *)
Lemma ragged_route_raw_layout_witness :
  let built :=
    TransmitanceMeas1D.from_ragged_data (NdArray (A1 [0; 1; 2; 3]%Q))
      (NdArray (A1 [1; 2; 3; 4]%Q)) (NdArray (A1 [1 # 2; 3 # 2; 5 # 2]%Q))
      (NdArray (A1 [1; 1; 1]%Q)) 0%Q 0%Q None in
  ∃ self, built = Ok (Val self) ∧
    raw_ref_ self
      = Some (Some (Val (A2 2 [[0; 1]; [1; 2]; [2; 3]; [3; 4]]%Q))) ∧
    raw_meas_ self
      = Some (Some (Val (A2 3 [[1 # 2; 3 # 2; 5 # 2]; [1; 1; 1]]%Q))).
Proof.
  intros built.
  destruct built as [[self|?]|e] eqn:Hbuilt; try discriminate Hbuilt.
  exists self. split; [reflexivity|].
  destruct (ragged_route_raw_layout _ _ _ _ _ _ _ _ Hbuilt) as (Href & Hmeas & _).
  split; [exact Href | exact Hmeas].
Defined.

(** ** The sorting utility *)

Section SortingFacts.
Context {T : Type}.
Variable argsortT : list T → exc (list nat).
Implicit Types rows picked sorted : list (list T).

Lemma insert_take_drop (r r' : list T) (j : nat) (v : T) :
  r !! j = Some v → j < length r' →
  <[j:=v]> (take j r ++ drop j r') = take (S j) r ++ drop (S j) r'.
Proof.
  intros Hv Hj.
  assert (j < length r) by (by eapply lookup_lt_Some).
  rewrite (take_S_r _ _ _ Hv).
  destruct (lookup_lt_is_Some_2 r' j Hj) as [x Hx].
  rewrite (drop_S _ _ _ Hx).
  rewrite insert_app_r_alt by (rewrite length_take; lia).
  rewrite length_take, Nat.min_l, Nat.sub_diag by lia. simpl.
  by rewrite <- app_assoc.
Qed.

Lemma mix_length j picked rows :
  length picked = length rows → length (mix j picked rows) = length rows.
Proof. intros Hl. unfold mix. rewrite length_zip_with. lia. Qed.

Lemma mix_0 picked rows :
  length picked = length rows → mix 0 picked rows = rows.
Proof.
  unfold mix. revert rows.
  induction picked as [|r picked IH]; intros [|r' rows] [=]; simpl; [done|].
  by rewrite IH.
Qed.

Lemma mix_all c picked rows :
  length picked = length rows → wf_rows c picked → wf_rows c rows →
  mix c picked rows = picked.
Proof.
  unfold mix. revert rows.
  induction picked as [|r picked IH]; intros [|r' rows] [=];
    inversion_clear 1; inversion_clear 1; simpl; [done|].
  rewrite IH by done. subst c.
  rewrite firstn_all, drop_ge, app_nil_r by lia. done.
Qed.

(** One round of the loop over the columns. *)
Lemma column_round c rows idx picked j :
  wf_rows c rows →
  Forall2 (λ k r, rows !! k = Some r) idx picked →
  length idx = length rows →
  j < c →
  (vals ← Sorting.column_at (mix j picked rows) idx j;
   Sorting.assign_column (mix j picked rows) j vals)
  = Ok (mix (S j) picked rows).
Proof.
  intros Hwf Hpick Hlen Hj.
  assert (length picked = length rows) as Hpl
    by (by rewrite <- (Forall2_length _ _ _ Hpick)).
  assert (wf_rows c picked) as Hwfp.
  { apply Forall_forall. intros r Hr.
    apply list_elem_of_lookup in Hr as [p Hp].
    destruct (Forall2_lookup_r _ _ _ _ _ Hpick Hp) as (k & _ & Hk).
    eapply (Forall_lookup_1 _ _ _ _ Hwf Hk). }
  assert (∃ vals, Forall2 (λ r v, r !! j = Some v) picked vals) as [vals Hvals].
  { clear Hpick Hpl. induction Hwfp as [|r picked Hr _ [vals IH]]; [by eexists []|].
    destruct (lookup_lt_is_Some_2 r j) as [v Hv]; [lia|].
    exists (v :: vals). by constructor. }
  assert (Sorting.column_at (mix j picked rows) idx j = Ok vals) as ->.
  { unfold Sorting.column_at.
    replace (mapM _ idx) with (Some vals); [done|]. symmetry.
    apply mapM_Some. apply Forall2_same_length_lookup.
    split; [by rewrite (Forall2_length _ _ _ Hpick), (Forall2_length _ _ _ Hvals)|].
    intros p k v Hk Hv.
    destruct (Forall2_lookup_l _ _ _ _ _ Hpick Hk) as (r & Hr & Hrk).
    destruct (Forall2_lookup_l _ _ _ _ _ Hvals Hr) as (v' & Hv' & Hrj).
    assert (v' = v) as -> by congruence.
    assert (is_Some (picked !! k)) as [rk Hpk].
    { apply lookup_lt_is_Some. rewrite Hpl. by eapply lookup_lt_Some. }
    unfold mix. rewrite lookup_zip_with, Hpk, Hrk. simpl.
    assert (length rk = c) by (eapply (Forall_lookup_1 _ _ _ _ Hwfp Hpk)).
    rewrite lookup_app_r by (rewrite length_take; lia).
    rewrite length_take, Nat.min_l, Nat.sub_diag by lia.
    rewrite lookup_drop, Nat.add_0_r. done. }
  simpl. unfold Sorting.assign_column.
  rewrite decide_True
    by (by rewrite mix_length, <- (Forall2_length _ _ _ Hvals)).
  f_equal. unfold mix. apply list_eq. intros p.
  rewrite !lookup_zip_with.
  destruct (picked !! p) as [rk|] eqn:Hpk; simpl; [|done].
  destruct (rows !! p) as [ri|] eqn:Hri; simpl; [|done].
  destruct (Forall2_lookup_l _ _ _ _ _ Hvals Hpk) as (v & -> & Hv). simpl.
  f_equal. apply insert_take_drop; [done|].
  by rewrite (Forall_lookup_1 _ _ _ _ Hwf Hri).
Qed.

Lemma column_loop c rows idx picked n j :
  wf_rows c rows →
  Forall2 (λ k r, rows !! k = Some r) idx picked →
  length idx = length rows →
  j + n = c →
  for_each
    (λ sorted i, vals ← Sorting.column_at sorted idx i;
                 Sorting.assign_column sorted i vals)
    (mix j picked rows) (seq j n)
  = Ok (mix c picked rows).
Proof.
  intros Hwf Hpick Hlen. revert j.
  induction n as [|n IH]; intros j Hjn; simpl.
  - by replace j with c by lia.
  - rewrite (column_round c rows idx picked j) by (done || lia). simpl.
    apply IH. lia.
Qed.

(** The column loop as a whole: rows move as units. *)
Lemma sort_axis0_forward c rows line keys idx picked :
  wf_rows c rows →
  (0 ≤ line < Z.of_nat (length rows))%Z →
  Sorting.column c rows (Z.to_nat line) = Ok keys →
  argsortT keys = Ok idx →
  Forall2 (λ k r, rows !! k = Some r) idx picked →
  length idx = length rows →
  Sorting.sort_contents argsortT c rows 0 line = Ok (Val picked).
Proof.
  intros Hwf Hline Hkeys Hidx Hpick Hlen.
  assert (length picked = length rows) as Hpl
    by (by rewrite <- (Forall2_length _ _ _ Hpick)).
  assert (wf_rows c picked) as Hwfp.
  { apply Forall_forall. intros r Hr.
    apply list_elem_of_lookup in Hr as [p Hp].
    destruct (Forall2_lookup_r _ _ _ _ _ Hpick Hp) as (k & _ & Hk).
    eapply (Forall_lookup_1 _ _ _ _ Hwf Hk). }
  unfold Sorting.sort_contents.
  rewrite decide_False by lia. rewrite decide_False by lia.
  rewrite decide_False by lia. rewrite decide_False by lia.
  rewrite decide_True by done.
  rewrite Hkeys. simpl. rewrite Hidx. simpl.
  rewrite <- (mix_0 picked rows Hpl) at 1.
  rewrite (column_loop c rows idx picked c 0) by done. simpl.
  by rewrite mix_all.
Qed.

Lemma sort_axis0_inv c rows line sorted :
  wf_rows c rows →
  Sorting.sort_contents argsortT c rows 0 line = Ok (Val sorted) →
  ∃ keys idx,
    (0 ≤ line < Z.of_nat (length rows))%Z ∧
    Z.to_nat line < c ∧
    Sorting.column c rows (Z.to_nat line) = Ok keys ∧
    argsortT keys = Ok idx ∧
    length idx = length rows ∧
    Forall2 (λ k r, rows !! k = Some r) idx sorted.
Proof.
  intros Hwf H. pose proof H as Hsort. unfold Sorting.sort_contents in H.
  repeat (case_decide; [done|]).
  rewrite decide_True in H by done.
  assert (0 ≤ line < Z.of_nat (length rows))%Z as Hline by lia.
  destruct (Sorting.column c rows (Z.to_nat line)) as [keys|] eqn:Hkeys;
    [|done].
  simpl in H. destruct (argsortT keys) as [idx|] eqn:Hidx; [|done].
  simpl in H.
  assert (Z.to_nat line < c) as Hc.
  { unfold Sorting.column in Hkeys. by case_decide. }
  destruct c as [|c']; [lia|]. simpl in H.
  destruct (Sorting.column_at rows idx 0) as [vals|] eqn:Hvals; [|done].
  simpl in H.
  destruct (Sorting.assign_column rows 0 vals) as [rows1|] eqn:Hassign;
    [|done].
  clear H.
  unfold Sorting.column_at, or_index_error in Hvals.
  destruct (mapM _ idx) as [vals'|] eqn:Hm; [|done].
  injection Hvals as ->.
  assert (length idx = length rows) as Hlen.
  { unfold Sorting.assign_column in Hassign. case_decide; [|done].
    by rewrite (length_mapM _ _ _ Hm). }
  assert (∃ picked, Forall2 (λ k r, rows !! k = Some r) idx picked)
    as [picked Hpick].
  { apply mapM_Some in Hm. clear -Hm.
    induction Hm as [|k v idx vals Hk _ [picked IH]]; [by eexists []|].
    destruct (rows !! k) as [r|] eqn:Hr; [|done].
    exists (r :: picked). by constructor. }
  exists keys, idx. repeat split; try done; try lia.
  rewrite (sort_axis0_forward _ _ _ _ _ _ Hwf Hline Hkeys Hidx Hpick Hlen)
    in Hsort.
  by injection Hsort as <-.
Qed.

(** C5.  For a column index [k] that is in range ([k] below the number of
    columns) but not below the number of rows, sorting along axis 0 prints
    "Not allowed value for line" and returns -1.: the range check for axis
    0 compares the column index with [shape[0]], the number of rows. *)
Theorem sort_rejects_column_beyond_row_count (c : nat) rows (k : nat) :
  (k < c)%nat → (length rows ≤ k)%nat →
  Sorting.sort_contents argsortT c rows 0 (Z.of_nat k)
  = Ok (MinusOne Sorting.msg_line).
Proof.
  intros Hk Hrows. unfold Sorting.sort_contents.
  rewrite decide_False by lia. rewrite decide_False by lia.
  rewrite decide_True by lia. done.
Qed.

(** C4.  A call that sorts returns the reference it was given, and the
    array behind that reference now holds the sorted contents: the caller's
    array and the result are one object. *)
Theorem sort_returns_its_argument (h h' : heap T) (bid_array result : loc)
    (axis line : Z) :
  Sorting.sort_bidimensional_array_mutually argsortT h bid_array axis line
    = Ok (h', Val result) →
  result = bid_array ∧
  ∃ c rows sorted,
    h !! bid_array = Some (c, rows) ∧
    Sorting.sort_contents argsortT c rows axis line = Ok (Val sorted) ∧
    h' !! bid_array = Some (c, sorted) ∧
    ∀ l, l ≠ bid_array → h' !! l = h !! l.
Proof.
  unfold Sorting.sort_bidimensional_array_mutually. intros H.
  destruct (h !! bid_array) as [[c rows]|] eqn:Hl; [|done]. simpl in H.
  destruct (Sorting.sort_contents argsortT c rows axis line)
    as [[sorted|?]|] eqn:Hs; try done.
  simpl in H. injection H as <- <-. split; [done|].
  exists c, rows, sorted. repeat split; try done.
  - by rewrite lookup_insert_eq.
  - intros l Hne. by rewrite lookup_insert_ne.
Qed.
End SortingFacts.

(** C4 on the array [[2, 1], [1, 2]] sorted by its first column: the call
    returns location 0, where the caller's array now reads [[1, 2], [2, 1]]. *)
Lemma sort_returns_its_argument_witness :
  let sort := Sorting.sort_bidimensional_array_mutually
                (λ keys : list Q, Ok (argsort keys)) in
  ∃ h', sort Inputs.one_array 0 0%Z 0%Z = Ok (h', Val 0) ∧
        Inputs.one_array !! 0 = Some (2, [[2; 1]; [1; 2]]%Q) ∧
        h' !! 0 = Some (2, [[1; 2]; [2; 1]]%Q).
Proof.
  intros sort.
  destruct (sort Inputs.one_array 0 0%Z 0%Z) as [[h' [l|?]]|] eqn:Hsort;
    try discriminate Hsort.
  destruct (sort_returns_its_argument _ _ _ _ _ _ _ Hsort)
    as (-> & c & rows & sorted & Hbefore & Hsorted & Hafter & _).
  exists h'. split; [reflexivity|]. split; [reflexivity|].
  refine (eq_trans Hafter _).
  assert (Some (c, rows) = Some (2, [[2; 1]; [1; 2]]%Q)) as [= -> ->]
    by (refine (eq_trans (eq_sym Hbefore) _); reflexivity).
  assert (Ok (Val sorted) = Ok (Val [[1; 2]; [2; 1]]%Q)) as [= ->]
    by (rewrite <- Hsorted; reflexivity).
  reflexivity.
Defined.

(** C5 on the one-row array [[5, 7]] and its second column. *)
Lemma sort_rejects_column_beyond_row_count_witness :
  ((1 < 2)%nat ∧ (length [[5; 7]%Q] ≤ 1)%nat) ∧
  Sorting.sort_contents (λ keys : list Q, Ok (argsort keys)) 2 [[5; 7]%Q] 0 1
  = Ok (MinusOne Sorting.msg_line).
Proof.
  split; [split; simpl; lia|].
  apply (sort_rejects_column_beyond_row_count _ 2 [[5; 7]%Q] 1); simpl; lia.
Defined.

(** ** The file-based factory and the parser *)

Section FileFacts.
Context {R : Type} `{!Scalar R} `{!Library R} `{!Files R}.

Lemma np_prod_nonzero (bs : list bool) :
  TransmitanceMeas1D.np_prod bs ≠ 0%Z ↔ Forall (λ b, b = true) bs.
Proof.
  induction bs as [|b bs IH]; simpl.
  - split; [constructor | done].
  - rewrite Forall_cons, <- IH. destruct b; lia.
Qed.

Lemma aligned_test (dep_ref dep_meas : list R) :
  aligned dep_ref dep_meas ↔
  length dep_ref = length dep_meas ∧
  TransmitanceMeas1D.np_prod (zip_with feqb dep_ref dep_meas) ≠ 0%Z.
Proof.
  unfold aligned. rewrite np_prod_nonzero, Forall_lookup.
  split; intros [Hlen Heq]; (split; [done|]).
  - intros i b. rewrite lookup_zip_with.
    destruct (dep_ref !! i) as [x|] eqn:Hx; simpl; [|done].
    destruct (dep_meas !! i) as [y|] eqn:Hy; simpl; [|done].
    intros [= <-]. by eapply Heq.
  - intros i x y Hx Hy. apply (Heq i).
    by rewrite lookup_zip_with, Hx, Hy.
Qed.

(** C7.  Once both files are parsed, [from_files] takes the direct
    constructor exactly when the two dependent-variable arrays have one
    length and are entrywise equal, handing it the values of the reference
    file as [ref], those of the with-filter file as [meas] and the
    reference file's dependent variable as [dep]; otherwise it calls
    [from_ragged_data], with the spline through the third file's points as
    [ref_ref_func] when a third path is given and without one when not. *)
Theorem from_files_dispatch (ref_filepath meas_filepath : string)
    (ref_ref_filepath : option string) (dep_ref ref dep_meas meas : list R) :
  TransmitanceMeas1D.default_parser ref_filepath 3 1 tab = Ok (dep_ref, ref) →
  TransmitanceMeas1D.default_parser meas_filepath 3 1 tab
    = Ok (dep_meas, meas) →
  let built :=
    TransmitanceMeas1D.from_files ref_filepath meas_filepath ref_ref_filepath in
  let ragged :=
    TransmitanceMeas1D.from_ragged_data (NdArray (A1 dep_ref))
      (NdArray (A1 ref)) (NdArray (A1 dep_meas)) (NdArray (A1 meas))
      fzero fzero in
  (aligned dep_ref dep_meas →
   built = returns (TransmitanceMeas1D.new (NdArray (A1 ref))
                      (NdArray (A1 meas)) fzero fzero
                      (Some (NdArray (A1 dep_ref))) None None None)) ∧
  (¬ aligned dep_ref dep_meas →
   built = match ref_ref_filepath with
           | Some path =>
               '(dep_ref_ref, ref_ref) ←
                 TransmitanceMeas1D.default_parser path 3 1 tab;
               ref_ref_func ← CubicSpline dep_ref_ref ref_ref;
               ragged (Some ref_ref_func)
           | None => ragged None
           end).
Proof.
  intros Href Hmeas built ragged. subst built ragged.
  unfold TransmitanceMeas1D.from_files. rewrite Href, Hmeas. simpl.
  split; intros Hal; rewrite aligned_test in Hal.
  - destruct Hal as [Hlen Hprod].
    rewrite decide_True by done. rewrite decide_True by done. done.
  - case_decide as Hlen; [|done]. case_decide as Hprod; [|done].
    by destruct Hal.
Qed.
End FileFacts.

(** C7 on the three logs: the first two share their wavelengths and go to
    the direct constructor; the first and the third do not, and with the
    second log as shape reference the ragged route is given its spline. *)
Lemma from_files_dispatch_witness :
  let dep_ref := [400; 500; 600; 700]%Q in
  let ref := [10; 20; 30; 40]%Q in
  let meas := [5; 10; 15; 20]%Q in
  let dep_rag := [450; 550; 1301 # 2; 750]%Q in
  (TransmitanceMeas1D.default_parser "reference.txt" 3 1 tab = Ok (dep_ref, ref) ∧
   TransmitanceMeas1D.default_parser "filtered.txt" 3 1 tab = Ok (dep_ref, meas) ∧
   TransmitanceMeas1D.default_parser "ragged.txt" 3 1 tab = Ok (dep_rag, meas) ∧
   aligned dep_ref dep_ref ∧ ¬ aligned dep_ref dep_rag) ∧
  TransmitanceMeas1D.from_files "reference.txt" "filtered.txt" None
  = returns (TransmitanceMeas1D.new (NdArray (A1 ref)) (NdArray (A1 meas))
               0%Q 0%Q (Some (NdArray (A1 dep_ref))) None None None) ∧
  TransmitanceMeas1D.from_files "reference.txt" "ragged.txt"
    (Some "filtered.txt")
  = (ref_ref_func ← CubicSpline dep_ref meas;
     TransmitanceMeas1D.from_ragged_data (NdArray (A1 dep_ref))
       (NdArray (A1 ref)) (NdArray (A1 dep_rag)) (NdArray (A1 meas)) 0%Q 0%Q
       (Some ref_ref_func)).
Proof.
  intros dep_ref ref meas dep_rag.
  assert (aligned dep_ref dep_ref) as Hal.
  { split; [reflexivity|]. intros i x y Hx Hy.
    assert (x = y) as <- by congruence.
    do 4 (destruct i as [|i]; [injection Hx as <-; reflexivity|]).
    discriminate Hx. }
  assert (¬ aligned dep_ref dep_rag) as Hnal.
  { intros [_ Heq]. discriminate (Heq 0%nat 400%Q 450%Q eq_refl eq_refl). }
  split; [repeat split; try reflexivity; [apply Hal | exact Hnal] |].
  split.
  - exact (proj1 (from_files_dispatch "reference.txt" "filtered.txt" None
                    dep_ref ref dep_ref meas eq_refl eq_refl) Hal).
  - exact (proj2 (from_files_dispatch "reference.txt" "ragged.txt"
                    (Some "filtered.txt") dep_ref ref dep_rag meas
                    eq_refl eq_refl) Hnal).
Defined.

Section ParserFacts.
Context {R : Type} `{!Scalar R} `{!Library R} `{!Files R}.
Implicit Types rows data : list (list (cell R)).

Lemma mapM_Ok {A B} (f : A → exc B) (l : list A) (k : list B) :
  mapM f l = Ok k ↔ Forall2 (λ x y, f x = Ok y) l k.
Proof.
  revert k. induction l as [|x l IH]; intros k; simpl.
  - split; [intros [= <-]; constructor | by inversion 1].
  - unfold mbind, exc_bind, mret, exc_ret in *.
    destruct (f x) as [y|e] eqn:Hy.
    + destruct (mapM f l) as [k'|e'] eqn:Hk.
      * split.
        -- intros [= <-]. constructor; [done|]. by apply IH.
        -- inversion 1 as [|? y' ? k'' Hy' Hk'']; subst.
           apply IH in Hk''. congruence.
      * split; [done|].
        inversion 1 as [|? y' ? k'' Hy' Hk'']; subst.
        apply IH in Hk''. done.
    + split; [done|]. inversion 1; congruence.
Qed.

Lemma column_Ok {T} (c : nat) (rows : list (list T)) (j : nat) (col : list T) :
  Sorting.column c rows j = Ok col →
  j < c ∧ Forall2 (λ row y, row !! j = Some y) rows col.
Proof.
  unfold Sorting.column, or_index_error. case_decide; [|done].
  destruct (mapM _ rows) as [col'|] eqn:Hm; [|done].
  intros [= <-]. split; [done|]. by apply mapM_Some.
Qed.

Lemma assign_column_Ok {T} (rows rows' : list (list T)) (j : nat)
    (vals : list T) :
  Sorting.assign_column rows j vals = Ok rows' →
  length vals = length rows ∧
  rows' = zip_with (λ row v, <[j:=v]> row) rows vals.
Proof.
  unfold Sorting.assign_column. case_decide; [|done]. by intros [= <-].
Qed.

Lemma assign_column_wf {T} (c : nat) (rows rows' : list (list T)) (j : nat)
    (vals : list T) :
  wf_rows c rows → Sorting.assign_column rows j vals = Ok rows' →
  wf_rows c rows'.
Proof.
  intros Hwf [_ ->]%assign_column_Ok. unfold wf_rows in *.
  apply Forall_lookup. intros i r. rewrite lookup_zip_with.
  destruct (rows !! i) as [r0|] eqn:Hr; simpl; [|done].
  destruct (vals !! i); simpl; [|done]. intros [= <-].
  rewrite length_insert. by eapply (Forall_lookup_1 _ _ _ _ Hwf).
Qed.

(** What the two in-place column updates of [default_parser] leave in the
    value column of each data row. *)
Lemma prepared_rows (c x_col y_col : nat) rows (offset : cell R)
    (ys0 ys1 xs0 : list (cell R)) (xs1 : list R) data1 data2 :
  wf_rows c rows →
  Sorting.column c rows y_col = Ok ys0 →
  mapM (λ y, TransmitanceMeas1D.py_sub y offset) ys0 = Ok ys1 →
  Sorting.assign_column rows y_col ys1 = Ok data1 →
  Sorting.column c data1 x_col = Ok xs0 →
  mapM TransmitanceMeas1D.py_float xs0 = Ok xs1 →
  Sorting.assign_column data1 x_col (Num <$> xs1) = Ok data2 →
  length data2 = length rows ∧
  ∀ k r2, data2 !! k = Some r2 →
    ∃ r0 v o, rows !! k = Some r0 ∧ r0 !! y_col = Some (Num v) ∧
              offset = Num o ∧ r2 !! y_col = Some (Num (fsub v o)).
Proof.
  intros Hwf [Hy Hys0]%column_Ok Hys1%mapM_Ok Hd1 [Hx Hxs0]%column_Ok
    Hxs1%mapM_Ok Hd2.
  pose proof (assign_column_wf _ _ _ _ _ Hwf Hd1) as Hwf1.
  apply assign_column_Ok in Hd1 as [Hl1 ->].
  apply assign_column_Ok in Hd2 as [Hl2 ->].
  split.
  { rewrite !length_zip_with, length_fmap in *. lia. }
  intros k r2. rewrite lookup_zip_with.
  destruct (zip_with _ rows ys1 !! k) as [r1|] eqn:Hr1; simpl; [|done].
  rewrite list_lookup_fmap.
  destruct (xs1 !! k) as [x1|] eqn:Hx1; simpl; [|done].
  intros [= <-].
  rewrite lookup_zip_with in Hr1.
  destruct (rows !! k) as [r0|] eqn:Hr0; simpl in Hr1; [|done].
  destruct (ys1 !! k) as [y1|] eqn:Hy1; simpl in Hr1; [|done].
  injection Hr1 as <-.
  destruct (Forall2_lookup_l _ _ _ _ _ Hys0 Hr0) as (y0 & Hy0 & Hr0y).
  destruct (Forall2_lookup_l _ _ _ _ _ Hys1 Hy0) as (y1' & Hy1' & Hsub).
  assert (y1' = y1) as -> by congruence.
  destruct y0 as [v|], offset as [o|]; try done. injection Hsub as <-.
  exists r0, v, o. split; [done|]. split; [done|]. split; [done|].
  assert (length r0 = c) as Hlen0 by (by eapply (Forall_lookup_1 _ _ _ _ Hwf)).
  destruct (decide (x_col = y_col)) as [->|Hne].
  - rewrite list_lookup_insert_eq by (rewrite length_insert; lia).
    assert (zip_with (λ row v, <[y_col:=v]> row) rows ys1 !! k
            = Some (<[y_col:=Num (fsub v o)]> r0)) as Hr1
      by (by rewrite lookup_zip_with, Hr0, Hy1).
    destruct (Forall2_lookup_l _ _ _ _ _ Hxs0 Hr1) as (x0 & Hx0 & Hr1x).
    rewrite list_lookup_insert_eq in Hr1x by lia. injection Hr1x as <-.
    destruct (Forall2_lookup_l _ _ _ _ _ Hxs1 Hx0) as (x1' & Hx1' & Hfl).
    simpl in Hfl. congruence.
  - rewrite list_lookup_insert_ne by done.
    by rewrite list_lookup_insert_eq by lia.
Qed.

(** C10.  Whenever [default_parser] returns, the first row of the parsed
    table is the baseline row, its entry in column 1 is a number, and every
    returned value is the entry in column [y_col] of some data row minus
    that column-1 entry of the baseline row, whatever [y_col] is; the data
    rows are taken in the order [numpy.argsort] gives for the converted
    x column. *)
Theorem dark_current_comes_from_column_1 (filepath separator : string)
    (x_col y_col c : nat) (table : list (list (cell R))) (xs ys : list R) :
  read_csv filepath separator = Ok (c, table) →
  wf_rows c table →
  TransmitanceMeas1D.default_parser filepath x_col y_col separator
    = Ok (xs, ys) →
  ∃ base rows offset keys,
    table = base :: rows ∧
    base !! 1 = Some (Num offset) ∧
    length keys = length rows ∧
    Forall2
      (λ k y, ∃ row v, rows !! k = Some row ∧ row !! y_col = Some (Num v) ∧
                       y = fsub v offset)
      (argsort keys) ys.
Proof.
  intros Hread Hwf H. unfold TransmitanceMeas1D.default_parser in H.
  rewrite Hread in H. simpl in H.
  destruct table as [|base rows]; [done|]. simpl in H.
  apply Forall_cons in Hwf as [Hbase Hwf].
  case_decide as Hc; [|done].
  destruct (base !! 1) as [offset|] eqn:Hoff; [|done]. simpl in H.
  rewrite drop_0 in H.
  destruct (Sorting.column c rows y_col) as [ys0|] eqn:Hys0; [|done].
  simpl in H.
  destruct (mapM _ ys0) as [ys1|] eqn:Hys1; [|done]. simpl in H.
  destruct (Sorting.assign_column rows y_col ys1) as [data1|] eqn:Hd1; [|done].
  simpl in H.
  destruct (Sorting.column c data1 x_col) as [xs0|] eqn:Hxs0; [|done].
  simpl in H. case_decide as Hne; [done|].
  destruct (mapM _ xs0) as [xs1|] eqn:Hxs1; [|done]. simpl in H.
  destruct (Sorting.assign_column data1 x_col (Num <$> xs1)) as [data2|] eqn:Hd2;
    [|done].
  simpl in H.
  destruct (Sorting.sort_contents _ _ _ _ _) as [[sorted|?]|] eqn:Hsort;
    try done.
  simpl in H.
  destruct (Sorting.column c sorted x_col) as [xs2|]; [|done]. simpl in H.
  destruct (Sorting.column c sorted y_col) as [ys2|] eqn:Hys2; [|done].
  simpl in H.
  destruct (mapM _ xs2) as [xs3|]; [|done]. simpl in H.
  destruct (mapM _ ys2) as [ys3|] eqn:Hys3; [|done]. simpl in H.
  injection H as <- <-.
  destruct (prepared_rows c x_col y_col rows offset ys0 ys1 xs0 xs1 data1 data2)
    as [Hlen2 Hprep]; try done.
  assert (wf_rows c data2) as Hwf2
    by (eapply assign_column_wf; [eapply assign_column_wf|]; done).
  apply sort_axis0_inv in Hsort
    as (kcells & idx & _ & _ & Hkeys & Hidx & Hlen & Hpick); [|done].
  unfold TransmitanceMeas1D.argsort_cells in Hidx.
  destruct (mapM _ kcells) as [keys|] eqn:Hk; [|done].
  simpl in Hidx. injection Hidx as <-.
  apply mapM_Ok in Hk. apply column_Ok in Hkeys as [_ Hkeys].
  apply column_Ok in Hys2 as [_ Hys2]. apply mapM_Ok in Hys3.
  assert (∃ o, offset = Num o) as [o ->].
  { destruct data2 as [|r2 data2'].
    - apply column_Ok in Hxs0 as [_ Hxs0].
      apply assign_column_Ok in Hd2 as [Hl2 _].
      apply Forall2_length in Hxs0. destruct xs0; [done|].
      apply assign_column_Ok in Hd1 as [_ ->].
      simpl in *. destruct rows; simpl in *; lia.
    - destruct (Hprep 0 r2 eq_refl) as (? & ? & o & _ & _ & -> & _). eauto. }
  exists base, rows, o, keys. split; [done|]. split; [done|].
  split.
  { rewrite <- Hlen2, <- (Forall2_length _ _ _ Hk).
    by rewrite <- (Forall2_length _ _ _ Hkeys). }
  apply Forall2_same_length_lookup. split.
  { rewrite (Forall2_length _ _ _ Hpick), (Forall2_length _ _ _ Hys2).
    by rewrite (Forall2_length _ _ _ Hys3). }
  intros p k y Hp Hy.
  destruct (Forall2_lookup_l _ _ _ _ _ Hpick Hp) as (r2 & Hr2 & Hk2).
  destruct (Forall2_lookup_l _ _ _ _ _ Hys2 Hr2) as (cl & Hcl & Hr2y).
  destruct (Forall2_lookup_l _ _ _ _ _ Hys3 Hcl) as (y' & Hy' & Hnum).
  assert (y' = y) as -> by congruence.
  destruct (Hprep k r2 Hk2) as (r0 & v & o' & Hr0 & Hv & [= <-] & Hval).
  exists r0, v. split; [done|]. split; [done|].
  rewrite Hval in Hr2y. injection Hr2y as <-. simpl in Hnum. congruence.
Qed.
End ParserFacts.

(** C10 on the third log with the STD column (index 2) as value column: the
    returned values are the STD entries 5, 6, 7, 8 minus the dark current 2
    of column 1, not minus the baseline row's own STD entry 1/10. *)
Lemma dark_current_comes_from_column_1_witness :
  let table := Inputs.ragged_log.2 in
  (read_csv "ragged.txt" tab = Ok (4, table) ∧ wf_rows 4 table ∧
   TransmitanceMeas1D.default_parser "ragged.txt" 3 2 tab
     = Ok ([450; 550; 1301 # 2; 750]%Q, [3; 4; 5; 6]%Q)) ∧
  (table !! 0 ≫= (.!! 1) = Some (Num 2%Q) ∧
   table !! 0 ≫= (.!! 2) = Some (Num (1 # 10)%Q)) ∧
  ∃ base rows (offset : Q) keys,
    table = base :: rows ∧ base !! 1 = Some (Num offset) ∧
    length keys = length rows ∧
    Forall2
      (λ k y, ∃ row v, rows !! k = Some row ∧ row !! 2 = Some (Num v) ∧
                       y = fsub v offset)
      (argsort keys) [3; 4; 5; 6]%Q.
Proof.
  intros table.
  assert (wf_rows 4 table) as Hwf by (repeat constructor).
  split; [split; [reflexivity | split; [exact Hwf | reflexivity]] |].
  split; [split; reflexivity |].
  exact (dark_current_comes_from_column_1 "ragged.txt" tab 3 2 4 table
           _ _ eq_refl Hwf eq_refl).
Defined.

(** ** Where the range check lets a column through *)

Section SortedResult.
Context {T : Type}.
Variable argsortT : list T → exc (list nat).
Variable leb : T → T → bool.
Implicit Types rows picked sorted : list (list T).

Lemma picked_is_omap rows (idx : list nat) picked :
  Forall2 (λ k r, rows !! k = Some r) idx picked →
  omap (λ k, rows !! k) idx = picked.
Proof.
  induction 1 as [|k r idx picked Hk _ IH]; [done|].
  simpl. rewrite Hk. simpl. f_equal. exact IH.
Qed.

Lemma omap_all_indices {A} (l : list A) :
  omap (λ k, l !! k) (seq 0 (length l)) = l.
Proof.
  induction l as [|x l IH] using rev_ind; [done|].
  rewrite length_app. simpl. rewrite Nat.add_1_r, seq_S, omap_app. simpl.
  rewrite lookup_app_r, Nat.sub_diag by lia. simpl.
  f_equal. rewrite <- IH at 2. apply list_omap_ext, Forall2_same_length_lookup.
  split; [done|]. intros i k k' Hk Hk'.
  assert (k' = k) as -> by congruence.
  apply lookup_seq in Hk as [-> ?]. by rewrite lookup_app_l.
Qed.

Lemma picked_exists {A} (l : list A) (idx : list nat) :
  Forall (λ k, k < length l) idx →
  ∃ vals, Forall2 (λ k v, l !! k = Some v) idx vals.
Proof.
  induction 1 as [|k idx Hk _ [vals IH]]; [by eexists []|].
  destruct (lookup_lt_is_Some_2 l k Hk) as [v Hv].
  exists (v :: vals). by constructor.
Qed.

Lemma indices_in_range (idx : list nat) (n : nat) :
  idx ≡ₚ seq 0 n → Forall (λ k, k < n) idx.
Proof.
  intros Hp. rewrite Hp. apply Forall_seq. lia.
Qed.

(** X14.  For a rectangular array and a column index below both the number of
    columns and the number of rows, sorting along axis 0 with an [argsort]
    that keeps its promise returns the rows of the input, each once and each
    as a unit, in an order in which the key column ascends. *)
Theorem sort_by_column_where_accepted (c : nat) rows (k : nat)
    (keys : list T) (idx : list nat) :
  wf_rows c rows →
  k < c → k < length rows →
  Sorting.column c rows k = Ok keys →
  argsortT keys = Ok idx →
  sorting_permutation leb keys idx →
  ∃ sorted col,
    Sorting.sort_contents argsortT c rows 0 (Z.of_nat k) = Ok (Val sorted) ∧
    sorted ≡ₚ rows ∧
    Sorting.column c sorted k = Ok col ∧
    ascending leb col.
Proof.
  intros Hwf Hkc Hkr Hkeys Hidx (Hperm & sorted_keys & Hsk & Hasc).
  pose proof Hkeys as [_ Hcol]%column_Ok.
  assert (length keys = length rows) as Hlk
    by (by rewrite (Forall2_length _ _ _ Hcol)).
  rewrite Hlk in Hperm.
  destruct (picked_exists rows idx) as [picked Hpick];
    [by apply indices_in_range|].
  assert (length idx = length rows) as Hlen
    by (by rewrite Hperm, length_seq).
  exists picked, sorted_keys. split.
  { eapply sort_axis0_forward; try done; rewrite ?Nat2Z.id; (done || lia). }
  split.
  { rewrite <- (picked_is_omap _ _ _ Hpick), Hperm. by rewrite omap_all_indices. }
  split; [|done].
  unfold Sorting.column. rewrite decide_True by done.
  replace (mapM _ picked) with (Some sorted_keys); [done|]. symmetry.
  apply mapM_Some, Forall2_same_length_lookup. split.
  { by rewrite <- (Forall2_length _ _ _ Hpick), (Forall2_length _ _ _ Hsk). }
  intros p r x Hr Hx.
  destruct (Forall2_lookup_r _ _ _ _ _ Hpick Hr) as (i & Hi & Hri).
  destruct (Forall2_lookup_l _ _ _ _ _ Hsk Hi) as (x' & Hx' & Hkx).
  assert (x' = x) as -> by congruence.
  destruct (Forall2_lookup_l _ _ _ _ _ Hcol Hri) as (y & Hy & Hry).
  congruence.
Qed.
End SortedResult.

(** ** The insertion sort of the rational instance keeps argsort's promise *)

Section InsertionArgsort.
Context {T : Type}.
Variable leb : T → T → bool.
Hypothesis leb_total : ∀ x y, leb x y = false → leb y x = true.
Variable l : list T.

Local Abbreviation before := (λ j i, Rational.key_leb leb l j i = true).

Lemma key_leb_total (j i : nat) :
  Rational.key_leb leb l j i = false → Rational.key_leb leb l i j = true.
Proof.
  unfold Rational.key_leb.
  destruct (l !! j), (l !! i); try done. apply leb_total.
Qed.

Lemma insert_index_perm (i : nat) (sorted : list nat) :
  Rational.insert_index leb l i sorted ≡ₚ i :: sorted.
Proof.
  induction sorted as [|j rest IH]; simpl; [done|].
  destruct (Rational.key_leb leb l j i); [|done].
  rewrite IH. apply Permutation_swap.
Qed.

Lemma insert_index_sorted (i : nat) (sorted : list nat) :
  Sorted before sorted → Sorted before (Rational.insert_index leb l i sorted).
Proof.
  induction 1 as [|j rest Hrest IH Hhd]; simpl.
  - by repeat constructor.
  - destruct (Rational.key_leb leb l j i) eqn:Hji.
    + constructor; [done|].
      destruct Hhd as [|j' rest' Hjj']; simpl; [by constructor|].
      destruct (Rational.key_leb leb l j' i); by constructor.
    + constructor; [by constructor|].
      constructor. by apply key_leb_total.
Qed.

Lemma insertion_loop (acc todo : list nat) :
  Sorted before acc →
  let result :=
    foldl (λ sorted i, Rational.insert_index leb l i sorted) acc todo in
  result ≡ₚ acc ++ todo ∧ Sorted before result.
Proof.
  revert acc. induction todo as [|i todo IH]; intros acc Hacc; simpl.
  - by rewrite app_nil_r.
  - destruct (IH (Rational.insert_index leb l i acc)) as [Hp Hs];
      [by apply insert_index_sorted|].
    split; [|done].
    rewrite Hp, insert_index_perm. simpl. apply Permutation_middle.
Qed.

Lemma sorted_adjacent (idx : list nat) (p a b : nat) :
  Sorted before idx → idx !! p = Some a → idx !! S p = Some b → before a b.
Proof.
  intros Hs. revert p. induction Hs as [|j rest _ IH Hhd]; intros p; [done|].
  destruct p as [|p]; simpl.
  - intros [= ->] Hb. destruct Hhd as [|j' rest' Hjj']; [done|].
    by injection Hb as ->.
  - apply IH.
Qed.

Theorem insertion_argsort_sorts :
  sorting_permutation leb l (Rational.insertion_argsort leb l).
Proof.
  unfold Rational.insertion_argsort.
  destruct (insertion_loop [] (seq 0 (length l))) as [Hp Hs]; [constructor|].
  simpl in Hp. split; [done|].
  destruct (picked_exists l _ (indices_in_range _ _ Hp)) as [ks Hks].
  exists ks. split; [done|].
  intros p x y Hx Hy.
  destruct (Forall2_lookup_r _ _ _ _ _ Hks Hx) as (a & Ha & Hax).
  destruct (Forall2_lookup_r _ _ _ _ _ Hks Hy) as (b & Hb & Hby).
  pose proof (sorted_adjacent _ _ _ _ Hs Ha Hb) as Hab.
  unfold Rational.key_leb in Hab. by rewrite Hax, Hby in Hab.
Qed.
End InsertionArgsort.

Lemma Qle_bool_total (x y : Q) : Qle_bool x y = false → Qle_bool y x = true.
Proof.
  intros Hxy. apply Qle_bool_iff, Qlt_le_weak, Qnot_le_lt.
  intros Hle. apply Qle_bool_iff in Hle. congruence.
Qed.

(** [[3, 1], [1, 2], [2, 3]] sorted along axis 0 by its first column. *)
Lemma sort_by_column_where_accepted_witness :
  let rows := [[3; 1]; [1; 2]; [2; 3]]%Q in
  (wf_rows 2 rows ∧ (0 < 2)%nat ∧ (0 < length rows)%nat ∧
   Sorting.column 2 rows 0 = Ok [3; 1; 2]%Q ∧
   sorting_permutation Qle_bool [3; 1; 2]%Q (argsort [3; 1; 2]%Q)) ∧
  ∃ sorted col,
    Sorting.sort_contents (λ keys : list Q, Ok (argsort keys)) 2 rows 0 0
      = Ok (Val sorted) ∧
    sorted ≡ₚ rows ∧
    Sorting.column 2 sorted 0 = Ok col ∧
    ascending Qle_bool col.
Proof.
  intros rows.
  assert (wf_rows 2 rows) as Hwf by (by repeat constructor).
  assert (sorting_permutation Qle_bool [3; 1; 2]%Q (argsort [3; 1; 2]%Q))
    as Hsp by (apply insertion_argsort_sorts, Qle_bool_total).
  split.
  { split; [exact Hwf|]. split; [lia|]. split; [simpl; lia|].
    split; [reflexivity | exact Hsp]. }
  apply (sort_by_column_where_accepted (λ keys : list Q, Ok (argsort keys))
           Qle_bool 2 rows 0 [3; 1; 2]%Q (argsort [3; 1; 2]%Q) Hwf);
    [lia | simpl; lia | reflexivity | reflexivity | exact Hsp].
Defined.

(** * Further properties *)

(** ** TransmitanceMeas: construction, corrections and the ratio *)

Section BaseClassFacts.
Context {R : Type} `{!Scalar R}.
Implicit Type self : instance R.

Lemma np_map_shape (f : R → R) (a : ndarray R) :
  np_shape (np_map f a) = np_shape a.
Proof. destruct a; simpl; by rewrite ?length_fmap. Qed.

Lemma np_map_item (f : R → R) (a : ndarray R) (idx : list nat) :
  item (np_map f a) idx = f <$> item a idx.
Proof.
  destruct a as [x|v|c rows|d1 d2 d3 rest flat].
  - by destruct idx.
  - destruct idx as [|i [|? ?]]; try done. apply list_lookup_fmap.
  - destruct idx as [|i [|j [|? ?]]]; try done. unfold np_map, item.
    rewrite list_lookup_fmap. destruct (rows !! i) as [row|]; [|done].
    apply list_lookup_fmap.
  - unfold np_map, item.
    destruct (ravel (d1 :: d2 :: d3 :: rest) idx) as [k|]; [|done].
    apply list_lookup_fmap.
Qed.

(** What the ratio of an instance with compatible data is. *)
Lemma compatible_ratio self (ref meas : ndarray R) :
  holds_compatible_data self →
  ref_ self = Some ref → meas_ self = Some meas →
  TransmitanceMeas.check_compatibility self = Ok true ∧
  ∃ t, TransmitanceMeas.get_transmitance self
         = Ok (set_transmitance_ t self, Val t) ∧
       np_map2 fdiv meas ref = Some t.
Proof.
  intros (ref' & meas' & avail & Href & Hmeas & Havail & Hs & Hd) Hr Hm.
  assert (ref' = ref) as -> by congruence.
  assert (meas' = meas) as -> by congruence.
  assert (TransmitanceMeas.check_compatibility self = Ok true) as Hcheck.
  { unfold TransmitanceMeas.check_compatibility.
    rewrite Havail, Href, Hmeas. simpl. destruct avail.
    - destruct (Hd eq_refl) as (d & -> & Hsd). rewrite decide_True by done.
      simpl. by rewrite bool_decide_eq_true_2.
    - by rewrite bool_decide_eq_true_2. }
  split; [done|].
  unfold TransmitanceMeas.get_transmitance. rewrite Hcheck. simpl.
  rewrite Hmeas, Href. simpl.
  destruct (np_map2_defined fdiv meas ref) as [t Ht]; [done|].
  rewrite Ht. eauto.
Qed.

Lemma correction_keeps_compatible self (c : correction R) :
  holds_compatible_data self →
  ∃ self', apply_correction self c = Ok self' ∧ holds_compatible_data self' ∧
           dep_ self' = dep_ self ∧
           dep_is_available_ self' = dep_is_available_ self.
Proof.
  intros (ref & meas & avail & Href & Hmeas & Havail & Hs & Hd).
  destruct c as [off|off]; simpl.
  - unfold TransmitanceMeas.correct_ref. rewrite Href. simpl.
    eexists. split; [done|]. split; [|done].
    exists (np_map (λ x, fadd x off) ref), meas, avail.
    repeat split; try done; rewrite np_map_shape; done.
  - unfold TransmitanceMeas.correct_meas. rewrite Hmeas. simpl.
    eexists. split; [done|]. split; [|done].
    exists ref, (np_map (λ x, fadd x off) meas), avail.
    repeat split; try done; rewrite ?np_map_shape; done.
Qed.

Lemma corrections_keep_compatible (cs : list (correction R)) self :
  holds_compatible_data self →
  ∃ self', apply_corrections self cs = Ok self' ∧ holds_compatible_data self'.
Proof.
  revert self. induction cs as [|c cs IH]; intros self Hc; [by exists self|].
  destruct (correction_keeps_compatible self c Hc) as (s1 & Hs1 & Hc1 & _).
  destruct (IH s1 Hc1) as (s2 & Hs2 & Hc2).
  exists s2. split; [|done].
  unfold apply_corrections in *. simpl. rewrite Hs1. done.
Qed.

(** The outcome of [__init__] on arrays that pass its checks. *)
Lemma base_init_accepts self (ref meas : ndarray R) (ro mo : R)
    (dep : option (pyarg R)) :
  np_shape ref = np_shape meas →
  (∀ d, dep = Some d → np_shape (arg_array d) = np_shape ref) →
  ∃ self',
    TransmitanceMeas.__init__ self (NdArray ref) (NdArray meas) ro mo dep
      = (self', Val ()) ∧
    ref_ self' = Some (np_map (λ x, fadd x ro) ref) ∧
    meas_ self' = Some (np_map (λ x, fadd x mo) meas) ∧
    dep_is_available_ self' = Some (bool_decide (is_Some dep)) ∧
    (is_Some dep → dep_ self' = dep) ∧
    transmitance_ self' = transmitance_ self.
Proof.
  intros Hs Hd. unfold TransmitanceMeas.__init__. simpl.
  rewrite decide_False by (by intros ?).
  destruct dep as [d|].
  - rewrite decide_False by (intros ?; by specialize (Hd d eq_refl)).
    eexists. split; [done|]. simpl. done.
  - eexists. split; [done|]. simpl.
    split; [done|]. split; [done|]. split; [done|]. split; [|done].
    by intros [? [=]].
Qed.

Lemma base_new_accepts (ref meas : ndarray R) (ro mo : R)
    (dep : option (pyarg R)) :
  np_shape ref = np_shape meas →
  (∀ d, dep = Some d → np_shape (arg_array d) = np_shape ref) →
  ∃ self,
    TransmitanceMeas.new (NdArray ref) (NdArray meas) ro mo dep = Ok self ∧
    TransmitanceMeas.get_ref self = Ok (np_map (λ x, fadd x ro) ref) ∧
    TransmitanceMeas.get_meas self = Ok (np_map (λ x, fadd x mo) meas) ∧
    TransmitanceMeas.get_dep self = Ok dep ∧
    transmitance_ self = None ∧
    holds_compatible_data self.
Proof.
  intros Hs Hd.
  destruct (base_init_accepts fresh ref meas ro mo dep Hs Hd)
    as (self & Hinit & Href & Hmeas & Havail & Hdep & Ht).
  exists self. unfold TransmitanceMeas.new, instantiate.
  rewrite Hinit. simpl. split; [done|].
  unfold TransmitanceMeas.get_ref, TransmitanceMeas.get_meas,
    TransmitanceMeas.get_dep.
  rewrite Href, Hmeas, Havail. simpl. repeat split; try done.
  - destruct dep as [d|]; simpl; [|done]. by rewrite Hdep by eauto.
  - exists (np_map (λ x, fadd x ro) ref), (np_map (λ x, fadd x mo) meas),
      (bool_decide (is_Some dep)).
    repeat split; try done; rewrite ?np_map_shape; try done.
    intros [d ->]%bool_decide_eq_true. exists d. split; [by apply Hdep|].
    symmetry. by apply Hd.
Qed.

Lemma base_new_inv (ref meas : pyarg R) (ro mo : R) (dep : option (pyarg R))
    self :
  TransmitanceMeas.new ref meas ro mo dep = Ok self →
  ∃ r m, ref = NdArray r ∧ meas = NdArray m ∧
    np_shape r = np_shape m ∧
    ∀ d, dep = Some d → np_shape (arg_array d) = np_shape r.
Proof.
  intros Hb.
  unfold TransmitanceMeas.new, instantiate, TransmitanceMeas.__init__ in Hb.
  destruct ref as [r|r], meas as [m|m]; try done.
  simpl in Hb. case_decide as Hs; [done|].
  exists r, m. repeat split; try done. intros d ->.
  by case_decide as Hd.
Qed.

(** X1.  Construction from two arrays succeeds exactly when the shapes agree
    (with that of the dependent variable, if one is given); the instance
    then returns the arrays with their offsets added and the dependent
    variable as passed, has no ratio cached yet, and holds compatible data. *)
Theorem construction_stores_shifted_arrays (ref meas : ndarray R) (ro mo : R)
    (dep : option (pyarg R)) :
  let built :=
    TransmitanceMeas.new (NdArray ref) (NdArray meas) ro mo dep in
  ((∃ self, built = Ok self) ↔
   np_shape ref = np_shape meas ∧
   ∀ d, dep = Some d → np_shape (arg_array d) = np_shape ref) ∧
  ∀ self, built = Ok self →
    TransmitanceMeas.get_ref self = Ok (np_map (λ x, fadd x ro) ref) ∧
    TransmitanceMeas.get_meas self = Ok (np_map (λ x, fadd x mo) meas) ∧
    TransmitanceMeas.get_dep self = Ok dep ∧
    transmitance_ self = None ∧
    holds_compatible_data self.
Proof.
  intros built. split; [split|].
  - intros [self (r & m & [= <-] & [= <-] & ?)%base_new_inv]. done.
  - intros [Hs Hd].
    destruct (base_new_accepts ref meas ro mo dep Hs Hd) as (self & ? & _).
    eauto.
  - intros self Hb.
    destruct (base_new_inv _ _ _ _ _ _ Hb) as (r & m & [= <-] & [= <-] & Hs & Hd).
    destruct (base_new_accepts ref meas ro mo dep Hs Hd) as (self' & Hb' & ?).
    assert (self' = self) as -> by (subst built; congruence). done.
Qed.



(** X4.  [get_transmitance] changes nothing but its cache: a call that returns
    the float -1. returns the instance as it was; a call that returns an
    array leaves reference, with-filter data and dependent variable alone,
    stores the array in [transmitance_], and a second call returns the same
    array and the same instance again. *)
Theorem ratio_call_only_fills_its_cache self self' (r : pyret (ndarray R)) :
  TransmitanceMeas.get_transmitance self = Ok (self', r) →
  match r with
  | MinusOne printed =>
      self' = self ∧ printed = TransmitanceMeas.ERR0_get_transmitance
  | Val t =>
      self' = set_transmitance_ t self ∧
      TransmitanceMeas.get_transmitance self' = Ok (self', Val t)
  end.
Proof.
  unfold TransmitanceMeas.get_transmitance. intros H.
  destruct (TransmitanceMeas.check_compatibility self) as [[|]|] eqn:Hcheck;
    simpl in H; try done.
  - destruct (meas_ self) as [m|] eqn:Hm; [|done].
    destruct (ref_ self) as [f|] eqn:Hf; [|done]. simpl in H.
    destruct (np_map2 fdiv m f) as [t|] eqn:Ht; [|done].
    injection H as <- <-. split; [done|].
    assert (TransmitanceMeas.check_compatibility (set_transmitance_ t self)
            = Ok true) as -> by exact Hcheck.
    simpl. rewrite Hm, Hf. simpl. by rewrite Ht.
  - by injection H as <- <-.
Qed.
End BaseClassFacts.

(** Shapes (3,) and (3,) with offsets 1 and 0 and a dependent variable. *)
Lemma construction_stores_shifted_arrays_witness :
  let ref : ndarray Q := A1 [1; 2; 4]%Q in
  let meas : ndarray Q := A1 [3; 3; 2]%Q in
  let dep := Some (NdArray (A1 [400; 500; 600]%Q)) in
  ∃ self,
    TransmitanceMeas.new (NdArray ref) (NdArray meas) 1%Q 0%Q dep = Ok self ∧
    TransmitanceMeas.get_ref self = Ok (A1 [2; 3; 5]%Q) ∧
    TransmitanceMeas.get_dep self = Ok dep.
Proof.
  intros ref meas dep.
  destruct (construction_stores_shifted_arrays ref meas 1%Q 0%Q dep)
    as [[_ Hbuilds] Hdata].
  destruct Hbuilds as [self Hself].
  { split; [reflexivity|]. intros d [= <-]. reflexivity. }
  exists self. split; [exact Hself|].
  destruct (Hdata self Hself) as (Href & _ & Hdep & _).
  split; [exact Href | exact Hdep].
Defined.



(** The ratio of [Inputs.ratio_instance], asked for twice. *)
Lemma ratio_call_only_fills_its_cache_witness :
  ∃ self' t,
    TransmitanceMeas.get_transmitance Inputs.ratio_instance = Ok (self', Val t) ∧
    TransmitanceMeas.get_transmitance self' = Ok (self', Val t) ∧
    transmitance_ self' = Some (A1 [3; 3 # 2; 1 # 2]%Q).
Proof.
  destruct (TransmitanceMeas.get_transmitance Inputs.ratio_instance)
    as [[self' [t|]]|] eqn:Hget; try discriminate Hget.
  destruct (ratio_call_only_fills_its_cache _ _ _ Hget) as [-> Hagain].
  exists (set_transmitance_ t Inputs.ratio_instance), t.
  split; [reflexivity|]. split; [exact Hagain|].
  injection Hget as <-. reflexivity.
Defined.

(** ** TransmitanceMeas1D: the constructor and its accessors *)

Section OneDimensionalFacts.
Context {R : Type} `{!Scalar R} `{!Library R}.
Implicit Type self : instance R.

(** What a completed construction says about its arguments, and where the
    instance comes from. *)
Lemma new_1d_inv (ref meas : pyarg R) (ro mo : R) dep raw_ref raw_meas interp
    self :
  TransmitanceMeas1D.new ref meas ro mo dep raw_ref raw_meas interp = Ok self →
  np_ndim (arg_array ref) = 1 ∧
  np_shape (arg_array ref) = np_shape (arg_array meas) ∧
  (∀ d, dep = Some d → np_shape (arg_array d) = np_shape (arg_array ref)) ∧
  ∃ s0, transmitance_ s0 = None ∧ ref_ s0 = None ∧ meas_ s0 = None ∧
        dep_is_available_ s0 = None ∧
        self = (TransmitanceMeas.__init__ s0 ref meas ro mo dep).1.
Proof.
  unfold TransmitanceMeas1D.new, TransmitanceMeas1D.__init__, instantiate.
  intros H.
  case_decide as Hn; [done|]. case_decide as Hs; [done|].
  assert (∀ d, dep = Some d →
               np_shape (arg_array d) = np_shape (arg_array ref)) as Hd.
  { intros d ->. by case_bool_decide as Hd. }
  destruct (match dep with Some _ => _ | None => _ end); [done|].
  split; [done|]. split; [done|]. split; [done|].
  assert (∀ s0 : instance R,
    (let '(s, _) := TransmitanceMeas.__init__ s0 ref meas ro mo dep in
     Ok (s, Val ())) ≫=
      (λ pat : instance R * pyret (),
        match pat with
        | (s, Val _) => Ok s
        | (s, MinusOne printed) => Raise (InitReturnedValue printed)
        end) = Ok self →
    self = (TransmitanceMeas.__init__ s0 ref meas ro mo dep).1) as Hbase.
  { intros s0 Hs0.
    destruct (TransmitanceMeas.__init__ s0 ref meas ro mo dep) as [s r].
    simpl in *. by injection Hs0 as <-. }
  destruct interp as [f|]; simpl in H.
  - eexists. repeat split; [..|by apply Hbase]; done.
  - destruct dep as [d|]; simpl in H.
    + destruct (TransmitanceMeas1D.entries d) as [x|]; [|done].
      destruct (TransmitanceMeas1D.entries ref) as [y|]; [|done].
      simpl in H. destruct (CubicSpline x y) as [spline|]; [|done].
      simpl in H. eexists. repeat split; [..|by apply Hbase]; done.
    + eexists. repeat split; [..|by apply Hbase]; done.
Qed.

(** An instance completed from two ndarrays holds what the base class
    stores. *)
Lemma new_1d_data (ref meas : ndarray R) (ro mo : R) dep raw_ref raw_meas
    interp self :
  TransmitanceMeas1D.new (NdArray ref) (NdArray meas) ro mo dep raw_ref
    raw_meas interp = Ok self →
  ref_ self = Some (np_map (λ x, fadd x ro) ref) ∧
  meas_ self = Some (np_map (λ x, fadd x mo) meas) ∧
  dep_is_available_ self = Some (bool_decide (is_Some dep)) ∧
  (is_Some dep → dep_ self = dep) ∧
  transmitance_ self = None ∧
  np_shape ref = np_shape meas ∧
  (∀ d, dep = Some d → np_shape (arg_array d) = np_shape ref).
Proof.
  intros (_ & Hs & Hd & s0 & Ht & _ & _ & _ & ->)%new_1d_inv. simpl in *.
  destruct (base_init_accepts s0 ref meas ro mo dep Hs Hd)
    as (self' & -> & Href & Hmeas & Havail & Hdep & Ht').
  simpl. rewrite Ht in Ht'. done.
Qed.

Lemma new_1d_compatible (ref meas : ndarray R) (ro mo : R) dep raw_ref raw_meas
    interp self :
  TransmitanceMeas1D.new (NdArray ref) (NdArray meas) ro mo dep raw_ref
    raw_meas interp = Ok self →
  holds_compatible_data self.
Proof.
  intros (Href & Hmeas & Havail & Hdep & _ & Hs & Hd)%new_1d_data.
  exists (np_map (λ x, fadd x ro) ref), (np_map (λ x, fadd x mo) meas),
    (bool_decide (is_Some dep)).
  repeat split; try done; rewrite ?np_map_shape; try done.
  intros [d ->]%bool_decide_eq_true. exists d. split; [by apply Hdep|].
  symmetry. by apply Hd.
Qed.

Lemma new_1d_accepts (ref meas : pyarg R) (ro mo : R) (dep : option (pyarg R))
    raw_ref raw_meas interp :
  np_ndim (arg_array ref) = 1 →
  np_shape (arg_array ref) = np_shape (arg_array meas) →
  (∀ d, dep = Some d → np_shape (arg_array d) = np_shape (arg_array ref)) →
  is_Some interp ∨ dep = None →
  ∃ self,
    TransmitanceMeas1D.new ref meas ro mo dep raw_ref raw_meas interp = Ok self.
Proof.
  intros Hn Hs Hd Hroute.
  unfold TransmitanceMeas1D.new, TransmitanceMeas1D.__init__, instantiate.
  rewrite decide_False by (by intros ?).
  rewrite decide_False by (by intros ?).
  assert (match dep with
          | Some d => bool_decide (np_shape (arg_array ref)
                                   ≠ np_shape (arg_array d))
          | None => false
          end = false) as ->.
  { destruct dep as [d|]; [|done]. apply bool_decide_eq_false_2.
    intros Hne. apply Hne. symmetry. by apply Hd. }
  destruct Hroute as [[f ->]| ->]; simpl.
  - destruct (TransmitanceMeas.__init__ _ ref meas ro mo dep). simpl. eauto.
  - destruct interp;
      simpl; destruct (TransmitanceMeas.__init__ _ ref meas ro mo None);
      simpl; eauto.
Qed.

(** X5.  The one-dimensional constructor rejects, in this order, a reference
    that is not one-dimensional (ERR0), a with-filter array of another shape
    (ERR1) and a dependent variable of another shape (ERR2): the call raises
    and there is no instance.  When none of these applies and an
    interpolator is passed or no dependent variable is given, the call
    returns an instance. *)
Theorem one_dimensional_constructor_checks (ref meas : pyarg R) (ro mo : R)
    (dep : option (pyarg R)) raw_ref raw_meas interp :
  let built :=
    TransmitanceMeas1D.new ref meas ro mo dep raw_ref raw_meas interp in
  let one_dimensional := np_ndim (arg_array ref) = 1 in
  let same_shape := np_shape (arg_array ref) = np_shape (arg_array meas) in
  let dep_fits :=
    ∀ d, dep = Some d → np_shape (arg_array d) = np_shape (arg_array ref) in
  (¬ one_dimensional →
   built = Raise (InitReturnedValue TransmitanceMeas1D.ERR0_init)) ∧
  (one_dimensional → ¬ same_shape →
   built = Raise (InitReturnedValue TransmitanceMeas1D.ERR1_init)) ∧
  (one_dimensional → same_shape → ¬ dep_fits →
   built = Raise (InitReturnedValue TransmitanceMeas1D.ERR2_init)) ∧
  (one_dimensional → same_shape → dep_fits →
   is_Some interp ∨ dep = None → ∃ self, built = Ok self).
Proof.
  intros built one_dimensional same_shape dep_fits.
  subst built one_dimensional same_shape dep_fits.
  unfold TransmitanceMeas1D.new, TransmitanceMeas1D.__init__, instantiate.
  split; [|split; [|split]].
  - intros Hn. by rewrite decide_True.
  - intros Hn Hs. rewrite decide_False by (by intros ?).
    by rewrite decide_True.
  - intros Hn Hs Hd. rewrite decide_False by (by intros ?).
    rewrite decide_False by (by intros ?).
    destruct dep as [d|]; [|by destruct Hd].
    rewrite bool_decide_eq_true_2; [done|].
    intros Heq. apply Hd. by intros ? [= <-].
  - intros Hn Hs Hd Hroute. by apply new_1d_accepts.
Qed.

(** X6.  Arguments that are not ndarrays (lists, say) get through the
    one-dimensional constructor: the failure of the base initialiser is
    dropped, and the instance returned has no reference, no with-filter data
    and no availability flag, so that asking for its reference or its ratio
    raises an AttributeError. *)
Theorem lists_build_an_empty_instance (ref meas : pyarg R) (ro mo : R) dep
    raw_ref raw_meas interp self :
  is_ndarray ref = false ∨ is_ndarray meas = false →
  TransmitanceMeas1D.new ref meas ro mo dep raw_ref raw_meas interp = Ok self →
  ref_ self = None ∧ meas_ self = None ∧ dep_is_available_ self = None ∧
  TransmitanceMeas.get_ref self = Raise (AttributeError "ref_") ∧
  TransmitanceMeas.get_transmitance self
    = Raise (AttributeError "dep_is_available_").
Proof.
  intros Hlist (_ & _ & _ & s0 & _ & Hr & Hm & Ha & ->)%new_1d_inv.
  assert (TransmitanceMeas.__init__ s0 ref meas ro mo dep
          = (s0, MinusOne TransmitanceMeas.ERR0_init)) as ->.
  { unfold TransmitanceMeas.__init__.
    destruct Hlist as [-> | ->]; simpl; [done|]. by rewrite orb_true_r. }
  simpl. unfold TransmitanceMeas.get_ref, TransmitanceMeas.get_transmitance,
    TransmitanceMeas.check_compatibility.
  by rewrite Hr, Hm, Ha.
Qed.

(** X7.  An instance completed from two ndarrays returns them with the offsets
    added, returns the dependent variable as passed, and holds compatible
    data: every call of [get_transmitance] on it yields an array. *)
Theorem one_dimensional_instance_is_usable (ref meas : ndarray R) (ro mo : R)
    dep raw_ref raw_meas interp self :
  TransmitanceMeas1D.new (NdArray ref) (NdArray meas) ro mo dep raw_ref
    raw_meas interp = Ok self →
  TransmitanceMeas.get_ref self = Ok (np_map (λ x, fadd x ro) ref) ∧
  TransmitanceMeas.get_meas self = Ok (np_map (λ x, fadd x mo) meas) ∧
  TransmitanceMeas.get_dep self = Ok dep ∧
  TransmitanceMeas.check_compatibility self = Ok true ∧
  ∃ t, TransmitanceMeas.get_transmitance self
         = Ok (set_transmitance_ t self, Val t) ∧
       ∀ idx, item t idx
              = (m ← item meas idx; r ← item ref idx;
                 Some (fdiv (fadd m mo) (fadd r ro))).
Proof.
  intros Hnew. pose proof (new_1d_compatible _ _ _ _ _ _ _ _ _ Hnew) as Hc.
  apply new_1d_data in Hnew as (Href & Hmeas & Havail & Hdep & _ & _ & _).
  unfold TransmitanceMeas.get_ref, TransmitanceMeas.get_meas,
    TransmitanceMeas.get_dep.
  rewrite Href, Hmeas, Havail. simpl.
  split; [done|]. split; [done|]. split.
  { destruct dep as [d|]; simpl; [|done]. by rewrite Hdep by eauto. }
  destruct (compatible_ratio self _ _ Hc Href Hmeas) as (Hcheck & t & Ht & Hdiv).
  split; [done|]. exists t. split; [done|]. intros idx.
  rewrite (np_map2_item _ _ _ _ idx Hdiv), !np_map_item.
  destruct (item meas idx); simpl; [|done]. by destruct (item ref idx).
Qed.

(** X8.  The accessors of the subclass on a completed instance: the rawest data
    are the raw arrays when the constructor was given them and the stored
    reference resp. with-filter array when it was not; the model is the one
    passed in, and None when neither a model nor a dependent variable was
    given. *)
Theorem accessors_after_construction (ref meas : ndarray R) (ro mo : R) dep
    raw_ref raw_meas interp self :
  TransmitanceMeas1D.new (NdArray ref) (NdArray meas) ro mo dep raw_ref
    raw_meas interp = Ok self →
  TransmitanceMeas1D.get_rawest_ref self
    = Ok (default (Val (np_map (λ x, fadd x ro) ref)) raw_ref) ∧
  TransmitanceMeas1D.get_rawest_meas self
    = Ok (default (Val (np_map (λ x, fadd x mo) meas)) raw_meas) ∧
  (∀ f, interp = Some f →
        TransmitanceMeas1D.get_refInterpolator self = Ok (Some f)) ∧
  (interp = None → dep = None →
   TransmitanceMeas1D.get_refInterpolator self = Ok None).
Proof.
  intros Hnew.
  pose proof (init_attributes _ _ _ _ _ _ _ _ _ Hnew)
    as (Hrr & Hrm & Hflag & Hmodel).
  apply new_1d_data in Hnew as (Href & Hmeas & _).
  unfold TransmitanceMeas1D.get_rawest_ref, TransmitanceMeas1D.get_rawest_meas,
    TransmitanceMeas1D.get_refInterpolator.
  rewrite Hrr, Hrm, Hflag, Hmodel, Href, Hmeas. simpl.
  split; [by destruct raw_ref|]. split; [by destruct raw_meas|]. split.
  - intros f ->. rewrite bool_decide_eq_true_2 by eauto. done.
  - intros -> ->. rewrite bool_decide_eq_false_2; [done|].
    intros [[? [=]]|[? [=]]].
Qed.

(** ** TransmitanceMeas1D: the ragged-data factory *)

(** A completed call of the factory, taken apart: the model it built and the
    constructor call it ended with. *)
Lemma ragged_inv (dep_ref ref dep_meas meas : list R) (ro mo : R)
    (ref_ref_func : option (callable R)) self :
  TransmitanceMeas1D.from_ragged_data (NdArray (A1 dep_ref)) (NdArray (A1 ref))
    (NdArray (A1 dep_meas)) (NdArray (A1 meas)) ro mo ref_ref_func
    = Ok (Val self) →
  length dep_ref = length ref ∧ length dep_meas = length meas ∧
  ∃ (f : callable R) raw_ref raw_meas,
    match ref_ref_func with
    | None => CubicSpline dep_ref ((λ x, fadd x ro) <$> ref) = Ok f
    | Some g =>
        ∃ sca off,
          curve_fit (λ x sca off, fmul sca (fadd off (g x))) dep_ref
            ((λ x, fadd x ro) <$> ref) = Ok (sca, off) ∧
          f = (λ x, fmul sca (fadd off (g x))) ∧ dep_meas ≠ []
    end ∧
    TransmitanceMeas1D.new (NdArray (A1 (f <$> dep_meas)))
      (NdArray (A1 ((λ x, fadd x mo) <$> meas))) fzero fzero
      (Some (NdArray (A1 dep_meas))) (Some raw_ref) (Some raw_meas) (Some f)
    = Ok self.
Proof.
  unfold TransmitanceMeas1D.from_ragged_data. simpl. intros H.
  case_decide as Hlen; [done|].
  assert (length dep_ref = length ref ∧ length dep_meas = length meas)
    as [Hr Hm].
  { split; apply dec_stable; intros Hne; apply Hlen; [left|right]; congruence. }
  split; [done|]. split; [done|].
  destruct ref_ref_func as [g|]; simpl in H.
  - destruct (curve_fit _ dep_ref _) as [[sca off]|] eqn:Hfit; [|done].
    simpl in H. case_bool_decide as He; [done|]. simpl in H.
    destruct (TransmitanceMeas1D.stick_together _ _ true) as [raw_ref|];
      [|done].
    simpl in H.
    destruct (TransmitanceMeas1D.stick_together _ _ false) as [raw_meas|];
      [|done].
    simpl in H. unfold returns in H.
    destruct (TransmitanceMeas1D.new _ _ _ _ _ _ _ _) as [s|] eqn:Hnew; [|done].
    injection H as ->.
    exists (λ x, fmul sca (fadd off (g x))), raw_ref, raw_meas.
    split; [|done]. by exists sca, off.
  - destruct (CubicSpline dep_ref _) as [f|] eqn:Hspline; [|done].
    simpl in H.
    destruct (TransmitanceMeas1D.stick_together _ _ true) as [raw_ref|];
      [|done].
    simpl in H.
    destruct (TransmitanceMeas1D.stick_together _ _ false) as [raw_meas|];
      [|done].
    simpl in H. unfold returns in H.
    destruct (TransmitanceMeas1D.new _ _ _ _ _ _ _ _) as [s|] eqn:Hnew; [|done].
    injection H as ->. by exists f, raw_ref, raw_meas.
Qed.

(** X9.  The instance the factory returns carries the model that produced its
    reference: the model returned by [get_refInterpolator], evaluated at the
    stored dependent variable (the with-filter sample points), gives the
    stored reference; the with-filter array is the input plus its offset;
    without [ref_ref_func] the model is the spline through (dep_ref,
    ref + ref_offset), with it the fitted function
    [sca * (off + ref_ref_func(x))].  (The zero offsets passed on to the
    constructor are added once more.) *)
Theorem ragged_instance_evaluates_its_model (dep_ref ref dep_meas meas : list R)
    (ro mo : R) (ref_ref_func : option (callable R)) self :
  TransmitanceMeas1D.from_ragged_data (NdArray (A1 dep_ref)) (NdArray (A1 ref))
    (NdArray (A1 dep_meas)) (NdArray (A1 meas)) ro mo ref_ref_func
    = Ok (Val self) →
  ∃ f : callable R,
    TransmitanceMeas1D.get_refInterpolator self = Ok (Some f) ∧
    TransmitanceMeas.get_dep self = Ok (Some (NdArray (A1 dep_meas))) ∧
    TransmitanceMeas.get_ref self
      = Ok (A1 ((λ x, fadd (f x) fzero) <$> dep_meas)) ∧
    TransmitanceMeas.get_meas self
      = Ok (A1 ((λ x, fadd (fadd x mo) fzero) <$> meas)) ∧
    TransmitanceMeas.check_compatibility self = Ok true ∧
    match ref_ref_func with
    | None => CubicSpline dep_ref ((λ x, fadd x ro) <$> ref) = Ok f
    | Some g =>
        ∃ sca off,
          curve_fit (λ x sca off, fmul sca (fadd off (g x))) dep_ref
            ((λ x, fadd x ro) <$> ref) = Ok (sca, off) ∧
          f = (λ x, fmul sca (fadd off (g x)))
    end.
Proof.
  intros (_ & _ & f & raw_ref & raw_meas & Hmodel & Hnew)%ragged_inv.
  exists f.
  pose proof (init_attributes _ _ _ _ _ _ _ _ _ Hnew) as (_ & _ & Hflag & Hf).
  pose proof (new_1d_compatible _ _ _ _ _ _ _ _ _ Hnew) as Hc.
  apply new_1d_data in Hnew as (Href & Hmeas & Havail & Hdep & _).
  destruct (compatible_ratio self _ _ Hc Href Hmeas) as (Hcheck & _).
  unfold TransmitanceMeas1D.get_refInterpolator, TransmitanceMeas.get_dep,
    TransmitanceMeas.get_ref, TransmitanceMeas.get_meas.
  rewrite Hflag, Hf, Havail, Href, Hmeas, Hdep by eauto. simpl.
  rewrite <- !list_fmap_compose.
  split; [done|]. split; [done|]. split; [done|]. split; [done|].
  split; [done|].
  destruct ref_ref_func as [g|]; [|done].
  destruct Hmodel as (sca & off & ? & ? & _). eauto.
Qed.

(** X10.  On four one-dimensional ndarrays the factory returns an instance
    exactly when the two pairs have matching lengths and the reference model
    can be built: the spline through (dep_ref, ref + ref_offset), or, with
    [ref_ref_func], the fit, which also needs at least one with-filter
    sample. *)
Theorem ragged_factory_returns_an_instance (dep_ref ref dep_meas meas : list R)
    (ro mo : R) (ref_ref_func : option (callable R)) :
  (∃ self,
     TransmitanceMeas1D.from_ragged_data (NdArray (A1 dep_ref))
       (NdArray (A1 ref)) (NdArray (A1 dep_meas)) (NdArray (A1 meas)) ro mo
       ref_ref_func = Ok (Val self)) ↔
  length dep_ref = length ref ∧ length dep_meas = length meas ∧
  match ref_ref_func with
  | None => ∃ f, CubicSpline dep_ref ((λ x, fadd x ro) <$> ref) = Ok f
  | Some g =>
      (∃ popt,
         curve_fit (λ x sca off, fmul sca (fadd off (g x))) dep_ref
           ((λ x, fadd x ro) <$> ref) = Ok popt) ∧
      dep_meas ≠ []
  end.
Proof.
  split.
  - intros [self (Hr & Hm & f & _ & _ & Hmodel & _)%ragged_inv].
    split; [done|]. split; [done|].
    destruct ref_ref_func as [g|]; [|by eauto].
    destruct Hmodel as (sca & off & ? & _ & ?). eauto.
  - intros (Hr & Hm & Hmodel).
    unfold TransmitanceMeas1D.from_ragged_data. simpl.
    rewrite decide_False by (intros [Hne|Hne]; apply Hne; congruence).
    assert (∀ (f : callable R) raw_ref raw_meas, ∃ self,
      returns (TransmitanceMeas1D.new (NdArray (A1 (f <$> dep_meas)))
                 (NdArray (A1 ((λ x, fadd x mo) <$> meas))) fzero fzero
                 (Some (NdArray (A1 dep_meas))) (Some raw_ref) (Some raw_meas)
                 (Some f)) = Ok (Val self)) as Hnew.
    { intros f raw_ref raw_meas.
      destruct (new_1d_accepts (NdArray (A1 (f <$> dep_meas)))
                  (NdArray (A1 ((λ x, fadd x mo) <$> meas))) fzero fzero
                  (Some (NdArray (A1 dep_meas))) (Some raw_ref) (Some raw_meas)
                  (Some f)) as [self Hself]; simpl; try done.
      - by rewrite !length_fmap, Hm.
      - intros d [= <-]. simpl. by rewrite length_fmap.
      - by eauto.
      - exists self. by rewrite Hself. }
    unfold TransmitanceMeas1D.stick_together.
    destruct ref_ref_func as [g|]; simpl.
    + destruct Hmodel as [[[sca off] ->] Hne]. simpl.
      rewrite bool_decide_eq_false_2 by done. simpl.
      rewrite stick_1d_axis1 by (by rewrite length_fmap). simpl.
      rewrite stick_1d_axis0 by (by rewrite length_fmap). simpl.
      apply Hnew.
    + destruct Hmodel as [f ->]. simpl.
      rewrite stick_1d_axis1 by (by rewrite length_fmap). simpl.
      rewrite stick_1d_axis0 by (by rewrite length_fmap). simpl.
      apply Hnew.
Qed.

(** X11.  The factory answers unusable arguments with the float -1. after
    printing, in this order: an argument that is not an ndarray (ERR0), one
    that is not one-dimensional (ERR1), a pair of different lengths (ERR2).
    On arguments that pass the three checks it never returns -1. *)
Theorem ragged_factory_rejections (dep_ref ref dep_meas meas : pyarg R)
    (ro mo : R) (ref_ref_func : option (callable R)) :
  let built :=
    TransmitanceMeas1D.from_ragged_data dep_ref ref dep_meas meas ro mo
      ref_ref_func in
  let all_arrays :=
    is_ndarray dep_ref = true ∧ is_ndarray ref = true ∧
    is_ndarray dep_meas = true ∧ is_ndarray meas = true in
  let all_one_dimensional :=
    np_ndim (arg_array dep_ref) = 1 ∧ np_ndim (arg_array ref) = 1 ∧
    np_ndim (arg_array dep_meas) = 1 ∧ np_ndim (arg_array meas) = 1 in
  let paired :=
    np_shape (arg_array dep_ref) = np_shape (arg_array ref) ∧
    np_shape (arg_array dep_meas) = np_shape (arg_array meas) in
  (¬ all_arrays → built = Ok (MinusOne TransmitanceMeas1D.ERR0_ragged)) ∧
  (all_arrays → ¬ all_one_dimensional →
   built = Ok (MinusOne TransmitanceMeas1D.ERR1_ragged)) ∧
  (all_arrays → all_one_dimensional → ¬ paired →
   built = Ok (MinusOne TransmitanceMeas1D.ERR2_ragged)) ∧
  (all_arrays → all_one_dimensional → paired →
   ∀ printed, built ≠ Ok (MinusOne printed)).
Proof.
  intros built all_arrays all_1d paired. subst built all_arrays all_1d paired.
  unfold TransmitanceMeas1D.from_ragged_data.
  split; [|split; [|split]].
  - intros Hna.
    destruct (is_ndarray dep_ref), (is_ndarray ref), (is_ndarray dep_meas),
      (is_ndarray meas); simpl; try done. by destruct Hna.
  - intros (-> & -> & -> & ->) Hnd. simpl.
    rewrite decide_True; [done|].
    destruct (decide (np_ndim (arg_array dep_ref) = 1)); [|by left].
    destruct (decide (np_ndim (arg_array ref) = 1)); [|by right; left].
    destruct (decide (np_ndim (arg_array dep_meas) = 1));
      [|by right; right; left].
    destruct (decide (np_ndim (arg_array meas) = 1));
      [|by right; right; right].
    by destruct Hnd.
  - intros (-> & -> & -> & ->) (? & ? & ? & ?) Hnp. simpl.
    rewrite decide_False by (by intros [|[|[|]]]).
    rewrite decide_True; [done|].
    destruct (decide (np_shape (arg_array dep_ref) = np_shape (arg_array ref)));
      [|by left].
    destruct (decide (np_shape (arg_array dep_meas)
                      = np_shape (arg_array meas))); [|by right].
    by destruct Hnp.
  - intros (-> & -> & -> & ->) (Hn1 & Hn2 & Hn3 & Hn4) [Hp1 Hp2] printed.
    simpl.
    rewrite decide_False by (by intros [|[|[|]]]).
    rewrite decide_False by (by intros [|]).
    destruct dep_ref as [[|dr| |]|[|dr| |]], ref as [[|rf| |]|[|rf| |]],
      dep_meas as [[|dm| |]|[|dm| |]], meas as [[|ms| |]|[|ms| |]];
      try done.
    all: simpl in Hp1, Hp2; injection Hp1 as Hp1; injection Hp2 as Hp2.
    all: unfold TransmitanceMeas1D.entries; simpl.
    all: destruct (match ref_ref_func with Some _ => _ | None => _ end)
           as [[f v]|]; [|done]; simpl.
    all: destruct (if v && _ then _ else _) as [ref0|]; [|done]; simpl.
    all: unfold TransmitanceMeas1D.stick_together.
    all: rewrite stick_1d_axis1 by (by rewrite length_fmap); simpl.
    all: rewrite stick_1d_axis0 by (by rewrite length_fmap); simpl.
    all: unfold returns;
         by destruct (TransmitanceMeas1D.new _ _ _ _ _ _ _ _).
Qed.
End OneDimensionalFacts.

(** A two-dimensional reference is turned away with ERR0; one-dimensional
    arrays of one length with a model passed in are accepted. *)
Lemma one_dimensional_constructor_checks_witness :
  let square : pyarg Q := NdArray (A2 2 [[1; 2]; [3; 4]]%Q) in
  let line : pyarg Q := NdArray (A1 [1; 2; 3]%Q) in
  TransmitanceMeas1D.new square square 0%Q 0%Q None None None None
    = Raise (InitReturnedValue TransmitanceMeas1D.ERR0_init) ∧
  ∃ self,
    TransmitanceMeas1D.new line line 0%Q 0%Q None None None
      (Some (λ x, x)) = Ok self.
Proof.
  intros square line. split.
  - apply (one_dimensional_constructor_checks square square 0%Q 0%Q None
             None None None).
    intros [=].
  - apply (one_dimensional_constructor_checks line line 0%Q 0%Q None
             None None (Some (λ x, x))); try reflexivity.
    + intros d [=].
    + left. eexists. reflexivity.
Defined.

(** Two Python lists of three numbers. *)
Lemma lists_build_an_empty_instance_witness :
  let ref : pyarg Q := ArrayLike (A1 [10; 20; 30]%Q) in
  let meas : pyarg Q := ArrayLike (A1 [5; 10; 15]%Q) in
  ∃ self,
    TransmitanceMeas1D.new ref meas 0%Q 0%Q None None None None = Ok self ∧
    TransmitanceMeas.get_ref self = Raise (AttributeError "ref_").
Proof.
  intros ref meas.
  destruct (TransmitanceMeas1D.new ref meas 0%Q 0%Q None None None None)
    as [self|] eqn:Hnew; [|discriminate Hnew].
  exists self. split; [reflexivity|].
  destruct (lists_build_an_empty_instance ref meas 0%Q 0%Q None None None None
              self (or_introl eq_refl) Hnew) as (_ & _ & _ & Hget & _).
  exact Hget.
Defined.

(** Reference [10, 20, 30] with offset 1 under filtered [5, 10, 15], on the
    dependent variable [1, 2, 3]. *)
Lemma one_dimensional_instance_is_usable_witness :
  let ref : ndarray Q := A1 [10; 20; 30]%Q in
  let meas : ndarray Q := A1 [5; 10; 15]%Q in
  let dep := Some (NdArray (A1 [1; 2; 3]%Q)) in
  ∃ self t,
    TransmitanceMeas1D.new (NdArray ref) (NdArray meas) 1%Q 0%Q dep None None
      None = Ok self ∧
    TransmitanceMeas.get_transmitance self
      = Ok (set_transmitance_ t self, Val t) ∧
    item t [0%nat] = Some (5 # 11)%Q.
Proof.
  intros ref meas dep.
  destruct (TransmitanceMeas1D.new (NdArray ref) (NdArray meas) 1%Q 0%Q dep
              None None None) as [self|] eqn:Hnew; [|discriminate Hnew].
  destruct (one_dimensional_instance_is_usable ref meas 1%Q 0%Q dep None None
              None self Hnew) as (_ & _ & _ & _ & t & Hget & Hitem).
  exists self, t. split; [reflexivity|]. split; [exact Hget|].
  rewrite Hitem. reflexivity.
Defined.

(** A direct construction without raw data and with a model passed in. *)
Lemma accessors_after_construction_witness :
  let ref : ndarray Q := A1 [10; 20; 30]%Q in
  let meas : ndarray Q := A1 [5; 10; 15]%Q in
  let model : callable Q := λ x, x in
  ∃ self,
    TransmitanceMeas1D.new (NdArray ref) (NdArray meas) 0%Q 0%Q None None None
      (Some model) = Ok self ∧
    TransmitanceMeas1D.get_rawest_ref self = Ok (Val ref) ∧
    TransmitanceMeas1D.get_refInterpolator self = Ok (Some model).
Proof.
  intros ref meas model.
  destruct (TransmitanceMeas1D.new (NdArray ref) (NdArray meas) 0%Q 0%Q None
              None None (Some model)) as [self|] eqn:Hnew;
    [|discriminate Hnew].
  destruct (accessors_after_construction ref meas 0%Q 0%Q None None None
              (Some model) self Hnew) as (Hraw & _ & Hmodel & _).
  exists self. split; [reflexivity|]. split; [exact Hraw|].
  exact (Hmodel model eq_refl).
Defined.

(** The ragged inputs of the reconciliation example: the reference stored
    is the spline through (0,1), (1,2), (2,3), (3,4) at 1/2, 3/2, 5/2. *)
Lemma ragged_instance_evaluates_its_model_witness :
  let built :=
    TransmitanceMeas1D.from_ragged_data (NdArray (A1 [0; 1; 2; 3]%Q))
      (NdArray (A1 [1; 2; 3; 4]%Q)) (NdArray (A1 [1 # 2; 3 # 2; 5 # 2]%Q))
      (NdArray (A1 [1; 1; 1]%Q)) 0%Q 0%Q None in
  ∃ self,
    built = Ok (Val self) ∧
    TransmitanceMeas.get_ref self = Ok (A1 [3 # 2; 5 # 2; 7 # 2]%Q) ∧
    TransmitanceMeas.check_compatibility self = Ok true.
Proof.
  intros built.
  destruct built as [[self|?]|] eqn:Hbuilt; try discriminate Hbuilt.
  destruct (ragged_instance_evaluates_its_model _ _ _ _ _ _ _ _ Hbuilt)
    as (f & _ & _ & Href & _ & Hcheck & Hf).
  exists self. split; [reflexivity|]. split; [|exact Hcheck].
  rewrite Href. simpl in Hf. injection Hf as <-. reflexivity.
Defined.

(** The same inputs: lengths 4, 4, 3, 3 and a spline that can be built. *)
Lemma ragged_factory_returns_an_instance_witness :
  ∃ self,
    TransmitanceMeas1D.from_ragged_data (NdArray (A1 [0; 1; 2; 3]%Q))
      (NdArray (A1 [1; 2; 3; 4]%Q)) (NdArray (A1 [1 # 2; 3 # 2; 5 # 2]%Q))
      (NdArray (A1 [1; 1; 1]%Q)) 0%Q 0%Q None = Ok (Val self).
Proof.
  apply (ragged_factory_returns_an_instance [0; 1; 2; 3]%Q [1; 2; 3; 4]%Q
           [1 # 2; 3 # 2; 5 # 2]%Q [1; 1; 1]%Q 0%Q 0%Q None).
  split; [reflexivity|]. split; [reflexivity|].
  eexists. reflexivity.
Defined.

(** Three reference positions against four reference values. *)
Lemma ragged_factory_rejections_witness :
  TransmitanceMeas1D.from_ragged_data (NdArray (A1 [0; 1; 2]%Q))
    (NdArray (A1 [1; 2; 3; 4]%Q)) (NdArray (A1 [1 # 2; 3 # 2]%Q))
    (NdArray (A1 [1; 1]%Q)) 0%Q 0%Q None
  = Ok (MinusOne TransmitanceMeas1D.ERR2_ragged).
Proof.
  apply (ragged_factory_rejections (NdArray (A1 [0; 1; 2]%Q))
           (NdArray (A1 [1; 2; 3; 4]%Q)) (NdArray (A1 [1 # 2; 3 # 2]%Q))
           (NdArray (A1 [1; 1]%Q)) 0%Q 0%Q None).
  - repeat split.
  - repeat split.
  - intros [[=] _].
Defined.

(** ** stick_together: what it returns and when *)

Section MoreStackingFacts.
Context {T : Type}.

(** X12.  A one-dimensional operand is placed first whichever argument it is
    passed as: with a vector [v] and a two-dimensional array, along axis 0 the
    result has [v] as its top row, along axis 1 as its first column; and two
    two-dimensional arrays are joined in the order given. *)
Theorem stick_together_puts_the_vector_first (c : nat) (rows r2 : list (list T))
    (c2 : nat) (v : list T) :
  (length v = c →
   Stacking.stick_together (NdArray (A2 c rows)) (NdArray (A1 v)) false
     = Ok (Val (A2 c (v :: rows))) ∧
   Stacking.stick_together (NdArray (A1 v)) (NdArray (A2 c rows)) false
     = Ok (Val (A2 c (v :: rows)))) ∧
  (length v = length rows →
   Stacking.stick_together (NdArray (A2 c rows)) (NdArray (A1 v)) true
     = Ok (Val (A2 (1 + c) (zip_with (λ x row, x :: row) v rows))) ∧
   Stacking.stick_together (NdArray (A1 v)) (NdArray (A2 c rows)) true
     = Ok (Val (A2 (1 + c) (zip_with (λ x row, x :: row) v rows)))) ∧
  (c = c2 →
   Stacking.stick_together (NdArray (A2 c rows)) (NdArray (A2 c2 r2)) false
     = Ok (Val (A2 c (rows ++ r2)))) ∧
  (length rows = length r2 →
   Stacking.stick_together (NdArray (A2 c rows)) (NdArray (A2 c2 r2)) true
     = Ok (Val (A2 (c + c2) (zip_with app rows r2)))).
Proof.
  assert (∀ (w : list T) (rs : list (list T)),
            zip_with app ((λ x, [x]) <$> w) rs
            = zip_with (λ x row, x :: row) w rs) as Hzip.
  { induction w as [|x w IH]; intros [|r rs]; simpl; try done.
    by rewrite IH. }
  unfold Stacking.stick_together, Stacking.concatenate, Stacking.expand_dims.
  simpl. split; [|split; [|split]].
  - intros <-. rewrite decide_False by lia. simpl.
    by rewrite decide_True by done.
  - intros Hv. rewrite decide_False by lia. simpl.
    rewrite length_fmap, decide_True by done. simpl. by rewrite Hzip.
  - intros ->. rewrite decide_False by lia. simpl.
    by rewrite decide_True by done.
  - intros Hr. rewrite decide_False by lia. simpl.
    by rewrite decide_True by done.
Qed.

(** X13.  Whenever [stick_together] returns an array, both operands were ndarrays
    of one or two dimensions whose sizes off the target axis are equal, and
    the array returned is two-dimensional with that same size off the
    axis. *)
Theorem stick_together_returns_matrices (arr1 arr2 : pyarg T) (axis : bool)
    (a : ndarray T) :
  Stacking.stick_together arr1 arr2 axis = Ok (Val a) →
  is_ndarray arr1 = true ∧ is_ndarray arr2 = true ∧
  ∃ n, off_axis_size (arg_array arr1) axis = Some n ∧
       off_axis_size (arg_array arr2) axis = Some n ∧
       np_ndim a = 2 ∧
       off_axis_size a axis = Some n.
Proof.
  unfold Stacking.stick_together. intros H.
  destruct (is_ndarray arr1), (is_ndarray arr2); simpl in H; try done.
  split; [done|]. split; [done|].
  case_decide; [done|].
  unfold Stacking.concatenate, Stacking.expand_dims in H.
  destruct (arg_array arr1) as [|v1|c1 r1|], (arg_array arr2) as [|v2|c2 r2|];
    simpl in H; try done; destruct axis; simpl in H;
    repeat (case_decide; simplify_eq/=; try done).
  all: eexists; (split; [done|]).
  all: rewrite ?length_fmap in *.
  all: repeat split; simpl; rewrite ?length_zip_with, ?length_fmap;
    try done; f_equal; lia.
Qed.
End MoreStackingFacts.

(** The vector [9, 9] on top of, and to the left of, [[1, 2], [3, 4]]. *)
Lemma stick_together_puts_the_vector_first_witness :
  let m : pyarg Z := NdArray (A2 2 [[1; 2]; [3; 4]]%Z) in
  let v : pyarg Z := NdArray (A1 [9; 9]%Z) in
  Stacking.stick_together m v false
    = Ok (Val (A2 2 [[9; 9]; [1; 2]; [3; 4]]%Z)) ∧
  Stacking.stick_together m v true
    = Ok (Val (A2 3 [[9; 1; 2]; [9; 3; 4]]%Z)).
Proof.
  intros m v.
  destruct (stick_together_puts_the_vector_first 2 [[1; 2]; [3; 4]]%Z [] 0
              [9; 9]%Z) as (Hrow & Hcol & _).
  split.
  - exact (proj1 (Hrow eq_refl)).
  - exact (proj1 (Hcol eq_refl)).
Defined.

(** Two vectors of length 3 stacked along axis 1. *)
Lemma stick_together_returns_matrices_witness :
  let v : pyarg Z := NdArray (A1 [1; 2; 3]%Z) in
  ∃ a, Stacking.stick_together v v true = Ok (Val a) ∧
       np_ndim a = 2 ∧ off_axis_size a true = Some 3.
Proof.
  intros v.
  destruct (Stacking.stick_together v v true) as [[a|]|] eqn:Hs;
    try discriminate Hs.
  destruct (stick_together_returns_matrices v v true a Hs)
    as (_ & _ & n & Hn & _ & Hdim & Hsize).
  exists a. split; [reflexivity|]. split; [exact Hdim|].
  rewrite Hsize. exact (eq_sym Hn).
Defined.

(** ** sort_bidimensional_array_mutually: rejected calls, and axis 1 *)

Section MoreSortingFacts.
Context {T : Type}.
Variable argsortT : list T → exc (list nat).
Variable leb : T → T → bool.
Implicit Types rows picked sorted : list (list T).

(** X15.  A call that returns the float -1. leaves every array as it was.  Such
    are the calls with an axis other than 0 and 1, those with a negative
    [line], and, for axis 1, those whose row index [line] is not below the
    number of columns. *)
Theorem rejected_sort_changes_nothing (h : heap T) (bid_array : loc)
    (axis line : Z) (c : nat) rows :
  h !! bid_array = Some (c, rows) →
  let outcome :=
    Sorting.sort_bidimensional_array_mutually argsortT h bid_array axis line in
  (∀ h' printed, outcome = Ok (h', MinusOne printed) → h' = h) ∧
  ((axis ≠ 0 ∧ axis ≠ 1)%Z → outcome = Ok (h, MinusOne Sorting.msg_axis)) ∧
  ((axis = 0 ∨ axis = 1)%Z → (line < 0)%Z →
   outcome = Ok (h, MinusOne Sorting.msg_line)) ∧
  (axis = 1%Z → (Z.of_nat c ≤ line)%Z →
   outcome = Ok (h, MinusOne Sorting.msg_line)).
Proof.
  intros Hl outcome. subst outcome.
  unfold Sorting.sort_bidimensional_array_mutually. rewrite Hl. simpl.
  split; [|split; [|split]].
  - intros h' printed H.
    destruct (Sorting.sort_contents argsortT c rows axis line) as [[?|?]|];
      simpl in H; try done. by injection H as <- _.
  - intros Ha. unfold Sorting.sort_contents. by rewrite decide_True.
  - intros Ha Hneg. unfold Sorting.sort_contents.
    rewrite decide_False by lia. by rewrite decide_True.
  - intros -> Hc. unfold Sorting.sort_contents.
    rewrite decide_False by lia.
    destruct (decide (line < 0)%Z); [done|].
    rewrite decide_False by lia. by rewrite decide_True by lia.
Qed.

(** One round of the loop over the rows (axis 1). *)
Lemma row_round c rows (idx : list nat) picked j :
  Forall2 (λ row prow, Forall2 (λ k x, row !! k = Some x) idx prow) rows picked →
  length idx = c →
  j < length rows →
  (vals ← Sorting.row_pick (take j picked ++ drop j rows) j idx;
   Sorting.assign_row c (take j picked ++ drop j rows) j vals)
  = Ok (take (S j) picked ++ drop (S j) rows).
Proof.
  intros Hpick Hlen Hj.
  pose proof (Forall2_length _ _ _ Hpick) as Hpl.
  destruct (lookup_lt_is_Some_2 rows j Hj) as [row Hrow].
  destruct (Forall2_lookup_l _ _ _ _ _ Hpick Hrow) as (prow & Hprow & Hrp).
  assert ((take j picked ++ drop j rows) !! j = Some row) as Hcur.
  { rewrite lookup_app_r by (rewrite length_take; lia).
    rewrite length_take, Nat.min_l, Nat.sub_diag by lia.
    by rewrite lookup_drop, Nat.add_0_r. }
  unfold Sorting.row_pick, Sorting.row_at. rewrite Hcur. simpl.
  replace (mapM _ idx) with (Some prow)
    by (symmetry; by apply mapM_Some). simpl.
  unfold Sorting.assign_row.
  rewrite decide_True by (by rewrite <- (Forall2_length _ _ _ Hrp)).
  f_equal. rewrite (take_S_r _ _ _ Hprow), (drop_S _ _ _ Hrow).
  rewrite insert_app_r_alt by (rewrite length_take; lia).
  rewrite length_take, Nat.min_l, Nat.sub_diag by lia. simpl.
  by rewrite <- app_assoc.
Qed.

Lemma row_loop c rows (idx : list nat) picked n j :
  Forall2 (λ row prow, Forall2 (λ k x, row !! k = Some x) idx prow) rows picked →
  length idx = c →
  j + n = length rows →
  for_each
    (λ sorted i, vals ← Sorting.row_pick sorted i idx;
                 Sorting.assign_row c sorted i vals)
    (take j picked ++ drop j rows) (seq j n)
  = Ok picked.
Proof.
  intros Hpick Hlen. pose proof (Forall2_length _ _ _ Hpick) as Hpl.
  revert j. induction n as [|n IH]; intros j Hjn; simpl.
  - rewrite firstn_all2, drop_ge, app_nil_r by lia. done.
  - rewrite (row_round c rows idx picked j) by (done || lia). simpl.
    apply IH. lia.
Qed.

(** X16.  Sorting along axis 1 by row [k], where the range check lets [k]
    through ([k] below both the number of columns and the number of rows of a
    rectangular array) and [argsort] keeps its promise: every row of the
    result is the same row of the input read in the order of one and the same
    index array, so that columns move as units, and row [k] of the result
    ascends. *)
Theorem sort_by_row_where_accepted (c : nat) rows (k : nat) (keys : list T)
    (idx : list nat) :
  wf_rows c rows →
  k < c →
  rows !! k = Some keys →
  argsortT keys = Ok idx →
  sorting_permutation leb keys idx →
  ∃ sorted key_row,
    Sorting.sort_contents argsortT c rows 1 (Z.of_nat k) = Ok (Val sorted) ∧
    Forall2 (λ row srow, Forall2 (λ i x, row !! i = Some x) idx srow)
      rows sorted ∧
    sorted !! k = Some key_row ∧
    ascending leb key_row.
Proof.
  intros Hwf Hkc Hkeys Hidx (Hperm & sorted_keys & Hsk & Hasc).
  assert (length keys = c) as Hlk by (by eapply (Forall_lookup_1 _ _ _ _ Hwf)).
  assert (length idx = c) as Hlen by (by rewrite Hperm, length_seq).
  assert (∃ picked,
    Forall2 (λ row prow, Forall2 (λ i x, row !! i = Some x) idx prow)
      rows picked) as [picked Hpick].
  { clear Hkeys. induction Hwf as [|row rows Hrow _ [picked IH]];
      [by eexists []|].
    destruct (picked_exists row idx) as [prow Hprow].
    { rewrite Hrow, <- Hlk. by apply indices_in_range. }
    exists (prow :: picked). by constructor. }
  destruct (Forall2_lookup_l _ _ _ _ _ Hpick Hkeys) as (key_row & Hkr & Hkk).
  assert (key_row = sorted_keys) as ->.
  { clear -Hkk Hsk. revert sorted_keys Hsk.
    induction Hkk as [|i x idx key_row Hx _ IH]; intros sk Hsk;
      inversion Hsk as [|? y ? sk' Hy Hsk']; subst; [done|].
    f_equal; [congruence | by apply IH]. }
  exists picked, sorted_keys. split; [|done].
  unfold Sorting.sort_contents.
  rewrite decide_False by lia. rewrite decide_False by lia.
  rewrite decide_False by lia. rewrite decide_False by lia.
  rewrite decide_False by lia.
  unfold Sorting.row_at at 1. rewrite Nat2Z.id, Hkeys. simpl.
  rewrite Hidx. simpl.
  pose proof (row_loop c rows idx picked (length rows) 0 Hpick Hlen eq_refl)
    as Hloop.
  rewrite take_0, drop_0 in Hloop. simpl in Hloop. by rewrite Hloop.
Qed.
End MoreSortingFacts.

(** A call with axis 2 on the array [[2, 1], [1, 2]]. *)
Lemma rejected_sort_changes_nothing_witness :
  Inputs.one_array !! 0%nat = Some (2%nat, [[2; 1]; [1; 2]]%Q) ∧
  Sorting.sort_bidimensional_array_mutually
    (λ keys : list Q, Ok (argsort keys)) Inputs.one_array 0%nat 2 0
  = Ok (Inputs.one_array, MinusOne Sorting.msg_axis).
Proof.
  split; [reflexivity|].
  apply (rejected_sort_changes_nothing (λ keys : list Q, Ok (argsort keys))
           Inputs.one_array 0%nat 2 0 2 [[2; 1]; [1; 2]]%Q eq_refl).
  lia.
Defined.

(** [[3, 1, 2], [30, 10, 20]] sorted along axis 1 by its first row. *)
Lemma sort_by_row_where_accepted_witness :
  let rows := [[3; 1; 2]; [30; 10; 20]]%Q in
  (wf_rows 3 rows ∧ 0 < 3 ∧ rows !! 0%nat = Some [3; 1; 2]%Q ∧
   sorting_permutation Qle_bool [3; 1; 2]%Q (argsort [3; 1; 2]%Q)) ∧
  ∃ sorted key_row,
    Sorting.sort_contents (λ keys : list Q, Ok (argsort keys)) 3 rows 1 0
      = Ok (Val sorted) ∧
    sorted !! 0%nat = Some key_row ∧ ascending Qle_bool key_row ∧
    sorted = [[1; 2; 3]; [10; 20; 30]]%Q.
Proof.
  intros rows.
  assert (wf_rows 3 rows) as Hwf by (by repeat constructor).
  assert (sorting_permutation Qle_bool [3; 1; 2]%Q (argsort [3; 1; 2]%Q))
    as Hsp by (apply insertion_argsort_sorts, Qle_bool_total).
  split; [repeat split; (exact Hwf || lia || exact (proj1 Hsp) || exact (proj2 Hsp) || idtac)|].
  destruct (sort_by_row_where_accepted (λ keys : list Q, Ok (argsort keys))
              Qle_bool 3 rows 0 [3; 1; 2]%Q (argsort [3; 1; 2]%Q)
              Hwf ltac:(lia) eq_refl eq_refl Hsp)
    as (sorted & key_row & Hsort & _ & Hk & Hasc).
  exists sorted, key_row. split; [exact Hsort|]. split; [exact Hk|].
  split; [exact Hasc|].
  assert (Ok (Val sorted) = Ok (Val [[1; 2; 3]; [10; 20; 30]]%Q)) as [= ->]
    by (rewrite <- Hsort; reflexivity).
  reflexivity.
Defined.

(** ** default_parser and from_files: what a parsed file looks like *)

Section MoreParserFacts.
Context {R : Type} `{!Scalar R} `{!Library R} `{!Files R}.
Implicit Types rows data : list (list (cell R)).

Lemma lookups_are_omap {A} (l : list A) (idx : list nat) (vals : list A) :
  Forall2 (λ k v, l !! k = Some v) idx vals →
  omap (λ k, l !! k) idx = vals.
Proof.
  induction 1 as [|k v idx vals Hk _ IH]; [done|].
  simpl. rewrite Hk. simpl. f_equal. exact IH.
Qed.

Lemma lookups_are_unique {A} (l : list A) (idx : list nat) (v w : list A) :
  Forall2 (λ k x, l !! k = Some x) idx v →
  Forall2 (λ k x, l !! k = Some x) idx w → v = w.
Proof.
  intros Hv%lookups_are_omap Hw%lookups_are_omap. congruence.
Qed.

(** What the two column updates of [default_parser] leave in the x column
    of each data row. *)
Lemma prepared_keys (c x_col y_col : nat) rows (ys1 xs0 : list (cell R))
    (xs1 : list R) data1 data2 :
  wf_rows c rows →
  y_col < c →
  Sorting.assign_column rows y_col ys1 = Ok data1 →
  Sorting.column c data1 x_col = Ok xs0 →
  mapM TransmitanceMeas1D.py_float xs0 = Ok xs1 →
  Sorting.assign_column data1 x_col (Num <$> xs1) = Ok data2 →
  length xs1 = length rows ∧
  Sorting.column c data2 x_col = Ok (Num <$> xs1) ∧
  (x_col ≠ y_col →
   Forall2 (λ row x, ∃ xc, row !! x_col = Some xc ∧
                           TransmitanceMeas1D.py_float xc = Ok x) rows xs1).
Proof.
  intros Hwf Hy Hd1 [Hx Hxs0]%column_Ok Hxs1%mapM_Ok Hd2.
  pose proof (assign_column_wf _ _ _ _ _ Hwf Hd1) as Hwf1.
  apply assign_column_Ok in Hd1 as [Hl1 ->].
  apply assign_column_Ok in Hd2 as [Hl2 ->].
  rewrite length_fmap, length_zip_with in Hl2.
  assert (length xs1 = length rows) as Hlen by lia.
  split; [done|]. split.
  - unfold Sorting.column. rewrite decide_True by done.
    match goal with
    | |- or_index_error ?m = _ => assert (m = Some (Num <$> xs1)) as ->; [|done]
    end.
    apply mapM_Some, Forall2_same_length_lookup.
    split; [rewrite !length_zip_with, !length_fmap; lia|].
    intros k r2 x. rewrite lookup_zip_with, list_lookup_fmap.
    destruct (zip_with _ rows ys1 !! k) as [r1|] eqn:Hr1; simpl; [|done].
    destruct (xs1 !! k) as [x1|]; simpl; [|done].
    intros [= <-] [= <-].
    apply list_lookup_insert_eq.
    by rewrite (Forall_lookup_1 _ _ _ _ Hwf1 Hr1).
  - intros Hne. apply Forall2_same_length_lookup. split; [done|].
    intros k r0 x1 Hr0 Hx1.
    destruct (lookup_lt_is_Some_2 ys1 k) as [y1 Hy1];
      [rewrite Hl1; by eapply lookup_lt_Some|].
    assert (zip_with (λ row v, <[y_col:=v]> row) rows ys1 !! k
            = Some (<[y_col:=y1]> r0)) as Hr1
      by (by rewrite lookup_zip_with, Hr0, Hy1).
    destruct (Forall2_lookup_l _ _ _ _ _ Hxs0 Hr1) as (x0 & Hx0 & Hr1x).
    destruct (Forall2_lookup_l _ _ _ _ _ Hxs1 Hx0) as (x1' & Hx1' & Hfl).
    assert (x1' = x1) as -> by congruence.
    rewrite list_lookup_insert_ne in Hr1x by done. eauto.
Qed.

(** A completed call of the parser, taken apart. *)
Lemma parser_inv (filepath separator : string) (x_col y_col c : nat) base rows
    (xs ys : list R) :
  read_csv filepath separator = Ok (c, base :: rows) →
  wf_rows c (base :: rows) →
  TransmitanceMeas1D.default_parser filepath x_col y_col separator
    = Ok (xs, ys) →
  ∃ offset keys,
    1 < c ∧ x_col < c ∧ y_col < c ∧ x_col < length rows ∧
    base !! 1 = Some (Num offset) ∧
    length keys = length rows ∧
    length (argsort keys) = length rows ∧
    (x_col ≠ y_col →
     Forall2 (λ row x, ∃ xc, row !! x_col = Some xc ∧
                             TransmitanceMeas1D.py_float xc = Ok x) rows keys) ∧
    Forall2 (λ k x, keys !! k = Some x) (argsort keys) xs ∧
    Forall2
      (λ k y, ∃ row v, rows !! k = Some row ∧ row !! y_col = Some (Num v) ∧
                       y = fsub v offset)
      (argsort keys) ys.
Proof.
  intros Hread Hwf H. unfold TransmitanceMeas1D.default_parser in H.
  rewrite Hread in H. simpl in H.
  apply Forall_cons in Hwf as [Hbase Hwf].
  case_decide as Hc; [|done].
  destruct (base !! 1) as [offset|] eqn:Hoff; [|done]. simpl in H.
  rewrite drop_0 in H.
  destruct (Sorting.column c rows y_col) as [ys0|] eqn:Hys0; [|done].
  simpl in H.
  destruct (mapM _ ys0) as [ys1|] eqn:Hys1; [|done]. simpl in H.
  destruct (Sorting.assign_column rows y_col ys1) as [data1|] eqn:Hd1; [|done].
  simpl in H.
  destruct (Sorting.column c data1 x_col) as [xs0|] eqn:Hxs0; [|done].
  simpl in H. case_decide as Hne; [done|].
  destruct (mapM _ xs0) as [xs1|] eqn:Hxs1; [|done]. simpl in H.
  destruct (Sorting.assign_column data1 x_col (Num <$> xs1)) as [data2|] eqn:Hd2;
    [|done].
  simpl in H.
  destruct (Sorting.sort_contents _ _ _ _ _) as [[sorted|?]|] eqn:Hsort;
    try done.
  simpl in H.
  destruct (Sorting.column c sorted x_col) as [xs2|] eqn:Hxs2; [|done].
  simpl in H.
  destruct (Sorting.column c sorted y_col) as [ys2|] eqn:Hys2; [|done].
  simpl in H.
  destruct (mapM _ xs2) as [xs3|] eqn:Hxs3; [|done]. simpl in H.
  destruct (mapM _ ys2) as [ys3|] eqn:Hys3; [|done]. simpl in H.
  injection H as <- <-.
  pose proof Hys0 as [Hyc _]%column_Ok.
  destruct (prepared_rows c x_col y_col rows offset ys0 ys1 xs0 xs1 data1 data2)
    as [Hlen2 Hprep]; try done.
  destruct (prepared_keys c x_col y_col rows ys1 xs0 xs1 data1 data2)
    as (Hlx & Hkcol & Hkeys); try done.
  assert (wf_rows c data2) as Hwf2
    by (eapply assign_column_wf; [eapply assign_column_wf|]; done).
  apply sort_axis0_inv in Hsort
    as (kcells & idx & Hline & Hxc & Hkc & Hidx & Hlen & Hpick); [|done].
  rewrite Nat2Z.id in Hkc, Hxc. rewrite Hkcol in Hkc. injection Hkc as <-.
  unfold TransmitanceMeas1D.argsort_cells in Hidx.
  assert (mapM TransmitanceMeas1D.as_num (Num <$> xs1) = Ok xs1) as Hnum.
  { apply mapM_Ok. clear. induction xs1; by constructor. }
  rewrite Hnum in Hidx. simpl in Hidx. injection Hidx as <-.
  apply column_Ok in Hxs2 as [_ Hxs2]. apply mapM_Ok in Hxs3.
  apply column_Ok in Hys2 as [_ Hys2]. apply mapM_Ok in Hys3.
  apply column_Ok in Hkcol as [_ Hkcol].
  assert (∃ o, offset = Num o) as [o ->].
  { destruct data2 as [|r2 data2'].
    - simpl in Hline. lia.
    - destruct (Hprep 0 r2 eq_refl) as (? & ? & o & _ & _ & -> & _). eauto. }
  exists o, xs1.
  split; [done|]. split; [done|]. split; [done|].
  split; [rewrite <- Hlen2; lia|]. split; [done|]. split; [done|].
  split; [by rewrite Hlen|]. split; [done|]. split.
  - apply Forall2_same_length_lookup. split.
    { rewrite (Forall2_length _ _ _ Hpick), (Forall2_length _ _ _ Hxs2).
      by rewrite (Forall2_length _ _ _ Hxs3). }
    intros p k x Hp Hx.
    destruct (Forall2_lookup_l _ _ _ _ _ Hpick Hp) as (r2 & Hr2 & Hk2).
    destruct (Forall2_lookup_l _ _ _ _ _ Hxs2 Hr2) as (cl & Hcl & Hr2x).
    destruct (Forall2_lookup_l _ _ _ _ _ Hxs3 Hcl) as (x' & Hx' & Hnumx).
    assert (x' = x) as -> by congruence.
    destruct (Forall2_lookup_l _ _ _ _ _ Hkcol Hk2) as (kc & Hkc & Hr2k).
    rewrite list_lookup_fmap in Hkc.
    destruct (xs1 !! k) as [x1|]; [|done]. simpl in Hkc. injection Hkc as <-.
    rewrite Hr2x in Hr2k. injection Hr2k as ->. simpl in Hnumx. congruence.
  - apply Forall2_same_length_lookup. split.
    { rewrite (Forall2_length _ _ _ Hpick), (Forall2_length _ _ _ Hys2).
      by rewrite (Forall2_length _ _ _ Hys3). }
    intros p k y Hp Hy.
    destruct (Forall2_lookup_l _ _ _ _ _ Hpick Hp) as (r2 & Hr2 & Hk2).
    destruct (Forall2_lookup_l _ _ _ _ _ Hys2 Hr2) as (cl & Hcl & Hr2y).
    destruct (Forall2_lookup_l _ _ _ _ _ Hys3 Hcl) as (y' & Hy' & Hnumy).
    assert (y' = y) as -> by congruence.
    destruct (Hprep k r2 Hk2) as (r0 & v & o' & Hr0 & Hv & [= <-] & Hval).
    exists r0, v. split; [done|]. split; [done|].
    rewrite Hval in Hr2y. injection Hr2y as <-. simpl in Hnumy. congruence.
Qed.

(** X17.  The parser only returns when the file has more readings than the index
    of its x column (with the default [x_col] = 3: at least four readings
    after the dark-current row), at least two columns, and both column
    indices in range; it then returns one x and one value per reading. *)
Theorem parser_needs_more_readings_than_x_col (filepath separator : string)
    (x_col y_col c : nat) (table : list (list (cell R))) (xs ys : list R) :
  read_csv filepath separator = Ok (c, table) →
  wf_rows c table →
  TransmitanceMeas1D.default_parser filepath x_col y_col separator
    = Ok (xs, ys) →
  1 < c ∧ x_col < c ∧ y_col < c ∧
  S x_col < length table ∧
  S (length xs) = length table ∧ length ys = length xs.
Proof.
  intros Hread Hwf H.
  destruct table as [|base rows].
  { unfold TransmitanceMeas1D.default_parser in H. by rewrite Hread in H. }
  destruct (parser_inv _ _ _ _ _ _ _ _ _ Hread Hwf H)
    as (o & keys & ? & ? & ? & ? & _ & Hlk & Hli & _ & Hxs & Hys).
  apply Forall2_length in Hxs, Hys. simpl.
  repeat split; try done; lia.
Qed.

(** X18.  The two arrays the parser returns are paired and ordered by one index
    array, [argsort] of the converted x column: the x at each position is
    [float] of the x entry of a reading, the value at the same position is
    that reading's value entry minus the dark current; and if [argsort]
    keeps its promise the x array ascends and holds the x of every reading
    once.  (Stated for an x column other than the value column.) *)
Theorem parser_returns_sorted_pairs (filepath separator : string)
    (x_col y_col c : nat) base rows (xs ys : list R) :
  read_csv filepath separator = Ok (c, base :: rows) →
  wf_rows c (base :: rows) →
  x_col ≠ y_col →
  TransmitanceMeas1D.default_parser filepath x_col y_col separator
    = Ok (xs, ys) →
  ∃ offset keys,
    base !! 1 = Some (Num offset) ∧
    Forall2 (λ row x, ∃ xc, row !! x_col = Some xc ∧
                            TransmitanceMeas1D.py_float xc = Ok x) rows keys ∧
    Forall2
      (λ k xy, ∃ row v,
         keys !! k = Some xy.1 ∧ rows !! k = Some row ∧
         row !! y_col = Some (Num v) ∧ xy.2 = fsub v offset)
      (argsort keys) (zip xs ys) ∧
    (sorting_permutation fleb keys (argsort keys) →
     ascending fleb xs ∧ xs ≡ₚ keys).
Proof.
  intros Hread Hwf Hne H.
  destruct (parser_inv _ _ _ _ _ _ _ _ _ Hread Hwf H)
    as (o & keys & _ & _ & _ & _ & Hoff & Hlk & _ & Hkeys & Hxs & Hys).
  exists o, keys. split; [done|]. split; [by apply Hkeys|]. split.
  - apply Forall2_same_length_lookup. split.
    { rewrite length_zip_with, <- (Forall2_length _ _ _ Hxs).
      rewrite <- (Forall2_length _ _ _ Hys). lia. }
    intros p k [x y] Hp Hxy.
    apply lookup_zip_with_Some in Hxy as (x' & y' & [= <- <-] & Hx & Hy).
    pose proof (Forall2_lookup_lr _ _ _ _ _ _ Hxs Hp Hx) as Hkx.
    destruct (Forall2_lookup_lr _ _ _ _ _ _ Hys Hp Hy) as (row & v & ? & ? & ?).
    exists row, v. simpl in *. by repeat split.
  - intros (Hperm & sorted_keys & Hsk & Hasc).
    assert (sorted_keys = xs) as -> by (by eapply lookups_are_unique).
    split; [done|].
    rewrite <- (lookups_are_omap _ _ _ Hxs), Hperm.
    by rewrite omap_all_indices.
Qed.

(** X19.  When the two files are aligned, the third path is never looked at:
    [from_files] returns the same with and without it, whether or not a file
    of that name exists. *)
Theorem aligned_files_ignore_the_third_path (ref_filepath meas_filepath : string)
    (ref_ref_filepath : option string) (dep_ref ref dep_meas meas : list R) :
  TransmitanceMeas1D.default_parser ref_filepath 3 1 tab = Ok (dep_ref, ref) →
  TransmitanceMeas1D.default_parser meas_filepath 3 1 tab
    = Ok (dep_meas, meas) →
  aligned dep_ref dep_meas →
  TransmitanceMeas1D.from_files ref_filepath meas_filepath ref_ref_filepath
  = TransmitanceMeas1D.from_files ref_filepath meas_filepath None.
Proof.
  intros Href Hmeas [Hlen Hprod]%aligned_test.
  unfold TransmitanceMeas1D.from_files. rewrite Href, Hmeas. simpl.
  rewrite decide_True by done. by rewrite decide_True by done.
Qed.
End MoreParserFacts.

(** The first log: four columns, the baseline row and four readings. *)
Lemma parser_needs_more_readings_than_x_col_witness :
  let table := Inputs.reference_log.2 in
  (read_csv "reference.txt" tab = Ok (4, table) ∧ wf_rows 4 table ∧
   TransmitanceMeas1D.default_parser "reference.txt" 3 1 tab
     = Ok ([400; 500; 600; 700]%Q, [10; 20; 30; 40]%Q)) ∧
  (S 3 < length table)%nat ∧
  S (length [400; 500; 600; 700]%Q) = length table.
Proof.
  intros table.
  assert (wf_rows 4 table) as Hwf by (repeat constructor).
  assert (read_csv "reference.txt" tab = Ok (4%nat, table)) as Hread
    by reflexivity.
  assert (TransmitanceMeas1D.default_parser "reference.txt" 3 1 tab
          = Ok ([400; 500; 600; 700]%Q, [10; 20; 30; 40]%Q)) as Hparse
    by reflexivity.
  split; [split; [exact Hread | split; [exact Hwf | exact Hparse]] |].
  destruct (parser_needs_more_readings_than_x_col "reference.txt" tab 3 1 4
              table _ _ Hread Hwf Hparse) as (_ & _ & _ & Hrows & Hlen & _).
  split; [exact Hrows | exact Hlen].
Defined.

(** The third log, whose readings are not in ascending order of the
    wavelength. *)
Lemma parser_returns_sorted_pairs_witness :
  let base : list (cell Q) :=
    [Str "09:00:00"; Num 2; Num (1 # 10); Str "DC"]%Q in
  let rows := drop 1 Inputs.ragged_log.2 in
  let xs := [450; 550; 1301 # 2; 750]%Q in
  (read_csv "ragged.txt" tab = Ok (4, base :: rows) ∧
   wf_rows 4 (base :: rows) ∧ 3 ≠ 1 ∧
   TransmitanceMeas1D.default_parser "ragged.txt" 3 1 tab
     = Ok (xs, [5; 10; 15; 20]%Q)) ∧
  ascending fleb xs.
Proof.
  intros base rows xs.
  assert (wf_rows 4 (base :: rows)) as Hwf by (repeat constructor).
  assert (read_csv "ragged.txt" tab = Ok (4%nat, base :: rows)) as Hread
    by reflexivity.
  assert (TransmitanceMeas1D.default_parser "ragged.txt" 3 1 tab
          = Ok (xs, [5; 10; 15; 20]%Q)) as Hparse by reflexivity.
  assert (3 ≠ 1) as Hne by discriminate.
  split; [split; [exact Hread | split; [exact Hwf | split; [exact Hne | exact Hparse]]]|].
  destruct (parser_returns_sorted_pairs "ragged.txt" tab 3 1 4 base rows
              xs [5; 10; 15; 20]%Q Hread Hwf Hne Hparse)
    as (offset & keys & _ & _ & _ & Hsorted).
  apply Hsorted. apply insertion_argsort_sorts, Qle_bool_total.
Defined.

(** The first two logs, with the name of a file that does not exist as
    third path. *)
Lemma aligned_files_ignore_the_third_path_witness :
  let dep := [400; 500; 600; 700]%Q in
  (TransmitanceMeas1D.default_parser "reference.txt" 3 1 tab
     = Ok (dep, [10; 20; 30; 40]%Q) ∧
   TransmitanceMeas1D.default_parser "filtered.txt" 3 1 tab
     = Ok (dep, [5; 10; 15; 20]%Q) ∧
   aligned dep dep) ∧
  TransmitanceMeas1D.from_files "reference.txt" "filtered.txt"
    (Some "missing.txt")
  = TransmitanceMeas1D.from_files "reference.txt" "filtered.txt" None.
Proof.
  intros dep.
  assert (aligned dep dep) as Hal.
  { split; [reflexivity|]. intros i x y Hx Hy.
    assert (x = y) as <- by congruence.
    do 4 (destruct i as [|i]; [injection Hx as <-; reflexivity|]).
    discriminate Hx. }
  split; [split; [reflexivity | split; [reflexivity | exact Hal]] |].
  exact (aligned_files_ignore_the_third_path "reference.txt" "filtered.txt"
           (Some "missing.txt") dep _ dep _ eq_refl eq_refl Hal).
Defined.

(** ** ObjectCollection: membership, restriction and identifiers *)

Section MoreCollectionFacts.
Context {Obj PyType : Type} `{!EqDecision PyType}.
Variable type : Obj → PyType.
Local Abbreviation collection := (@ObjectCollection.collection Obj PyType).
Import ObjectCollection.

Lemma try_adding_frame (self : collection) (x : Obj) :
  let c := try_adding_an_element type self x in
  member_types_ c = member_types_ self ∧ fRestrictive_ c = fRestrictive_ self ∧
  fRestrictivenessIsLocked_ c = fRestrictivenessIsLocked_ self ∧
  name_ c = name_ self ∧ ID_ c = ID_ self ∧
  members_ c
  = members_ self ++
    (if bool_decide (fRestrictive_ self = false) then [x]
     else if decide (type x ∈ member_types_ self) then [x] else []).
Proof.
  unfold try_adding_an_element. simpl.
  case_bool_decide; [done|]. case_decide; simpl; [done|].

  by rewrite List.app_nil_r.
Qed.

Lemma adding_all (l : list Obj) (self : collection) :
  let c := foldl (try_adding_an_element type) self l in
  member_types_ c = member_types_ self ∧ fRestrictive_ c = fRestrictive_ self ∧
  fRestrictivenessIsLocked_ c = fRestrictivenessIsLocked_ self ∧
  name_ c = name_ self ∧ ID_ c = ID_ self ∧
  members_ c
  = members_ self ++
    (if fRestrictive_ self
     then filter (λ m, type m ∈ member_types_ self) l else l).
Proof.
  revert self. induction l as [|x l IH]; intros self; simpl.
  - repeat split; try done.
    by destruct (fRestrictive_ self); rewrite ?filter_nil, List.app_nil_r.
  - destruct (IH (try_adding_an_element type self x))
      as (Ht & Hr & Hl & Hn & Hi & Hm).
    destruct (try_adding_frame self x) as (Ht' & Hr' & Hl' & Hn' & Hi' & Hm').
    simpl in *. rewrite Ht, Hr, Hl, Hn, Hi, Hm, Ht', Hr', Hl', Hn', Hi', Hm'.
    repeat split; try done. rewrite <- app_assoc. f_equal.
    destruct (fRestrictive_ self); simpl; [|done].
    rewrite filter_cons. by case_decide.
Qed.

Lemma initial_frame (next_id_ : nat) (collection_name : string)
    (member_types : option (list PyType)) (init_members : option (list Obj))
    (restrictive : bool) :
  let created :=
    __init__ type next_id_ collection_name member_types init_members
      restrictive in
  let types := default [] member_types in
  created.1 = S next_id_ ∧ ID_ created.2 = next_id_ ∧
  name_ created.2 = collection_name ∧
  member_types_ created.2 = types ∧
  fRestrictive_ created.2 = restrictive ∧
  fRestrictivenessIsLocked_ created.2 = false ∧
  members_ created.2
  = (if restrictive then filter (λ m, type m ∈ types) (default [] init_members)
     else default [] init_members).
Proof.
  intros created types. subst created types.
  unfold __init__, get_new_ID.
  destruct init_members as [l|], member_types as [ts|]; simpl;
    try (destruct restrictive; repeat split; lia).
  all: match goal with
       | |- context [foldl _ ?s ?l] =>
           destruct (adding_all l s) as (Ht & Hr & Hl & Hn & Hi & Hm)
       end.
  all: simpl in *; rewrite Ht, Hr, Hl, Hn, Hi, Hm; repeat split; lia.
Qed.

(** X20.  The members a new collection starts with are the offered objects, in
    order: all of them when the collection is not restrictive, those whose
    type is among [member_types] when it is.  The collection is unlocked,
    takes the current value of the counter as its ID, and advances the
    counter by one. *)
Theorem initial_members_are_filtered (next_id_ : nat) (collection_name : string)
    (member_types : option (list PyType)) (init_members : option (list Obj))
    (restrictive : bool) :
  let created :=
    __init__ type next_id_ collection_name member_types init_members
      restrictive in
  let types := default [] member_types in
  created.1 = S next_id_ ∧ ID_ created.2 = next_id_ ∧
  name_ created.2 = collection_name ∧
  member_types_ created.2 = types ∧
  fRestrictive_ created.2 = restrictive ∧
  fRestrictivenessIsLocked_ created.2 = false ∧
  members_ created.2
  = (if restrictive then filter (λ m, type m ∈ types) (default [] init_members)
     else default [] init_members).
Proof. apply initial_frame. Qed.

Lemma perform_grows (self : collection) (c : call) :
  members_ self `prefix_of` members_ (perform type self c) ∧
  ID_ (perform type self c) = ID_ self.
Proof.
  destruct c; simpl; try done.
  - unfold switch_restrictiveness. by destruct (negb _).
  - destruct (try_adding_frame self candidate_element)
      as (_ & _ & _ & _ & Hi & Hm).
    simpl in *. rewrite Hi, Hm. split; [|done]. by apply prefix_app_r.
Qed.

(** X21.  No method takes a member out or moves one: whatever is called, the
    members a collection had are the first members it has afterwards, in the
    same order, and its ID stays the same. *)
Theorem members_are_never_removed (self : collection) (calls : list call) :
  members_ self `prefix_of` members_ (perform_all type self calls) ∧
  ID_ (perform_all type self calls) = ID_ self.
Proof.
  revert self. induction calls as [|c calls IH]; intros self; [done|].
  destruct (perform_grows self c) as [Hp Hi].
  destruct (IH (perform type self c)) as [Hp' Hi'].
  unfold perform_all in *. simpl. split; [by etrans | congruence].
Qed.

(** The loop of [switch_restrictiveness] over the indices of the members
    is a loop over the members. *)
Lemma collect_types (members : list Obj) (types : list PyType) (j : nat)
    (all : list Obj) :
  drop j all = members →
  foldl
    (λ types i,
       match all !! i with
       | Some m => if decide (type m ∉ types) then types ++ [type m] else types
       | None => types
       end) types (seq j (length members))
  = foldl (λ types m, if decide (type m ∉ types) then types ++ [type m]
                      else types) types members.
Proof.
  revert types j. induction members as [|m members IH]; intros types j Hd;
    [done|].
  simpl.
  assert (all !! j = Some m) as ->.
  { rewrite <- (Nat.add_0_r j), <- lookup_drop, Hd. done. }
  apply IH. replace (S j) with (j + 1) by lia.
  by rewrite <- drop_drop, Hd.
Qed.

Lemma collected_types (members : list Obj) (types : list PyType) :
  let types' :=
    foldl (λ types m, if decide (type m ∉ types) then types ++ [type m]
                      else types) types members in
  types `prefix_of` types' ∧
  (∀ m, m ∈ members → type m ∈ types') ∧
  (∀ t, t ∈ types' → t ∈ types ∨ ∃ m, m ∈ members ∧ type m = t) ∧
  (NoDup types → NoDup types').
Proof.
  revert types. induction members as [|m members IH]; intros types; simpl.
  - repeat split; try done.
    + by intros ? ?%elem_of_nil.
    + by left.
  - destruct (IH (if decide (type m ∉ types) then types ++ [type m] else types))
      as (Hp & Hin & Hout & Hnd).
    assert (types `prefix_of`
            (if decide (type m ∉ types) then types ++ [type m] else types))
      as Hp0 by (case_decide; [by apply prefix_app_r | done]).
    split; [by etrans|]. split; [|split].
    + intros m' [->|Hm']%elem_of_cons; [|by apply Hin].
      eapply elem_of_prefix; [|exact Hp]. case_decide as Hd.
      * apply elem_of_app. right. by apply list_elem_of_singleton.
      * done.
    + intros t [Ht|(m' & ? & ?)]%Hout.
      * case_decide; [|by left].
        apply elem_of_app in Ht as [?|Ht]; [by left|].
        apply list_elem_of_singleton in Ht as ->.
        right. exists m. split; [by left|done].
      * right. exists m'. split; [by right|done].
    + intros Ht. apply Hnd. case_decide; [|done].
      apply NoDup_app. split; [done|]. split; [|by apply NoDup_singleton].
      intros t ? Ht'. by apply list_elem_of_singleton in Ht' as ->.
Qed.

(** X22.  Switching an unlocked collection from unrestricted to restrictive keeps
    the allowed types it had (as the first entries, in order), adds the type
    of every present member and nothing else, adds no type twice, and leaves
    the members alone; switching back only clears the flag. *)
Theorem switching_on_admits_the_members (self : collection) :
  fRestrictivenessIsLocked_ self = false →
  let c := switch_restrictiveness type self in
  fRestrictive_ c = negb (fRestrictive_ self) ∧
  members_ c = members_ self ∧ ID_ c = ID_ self ∧ name_ c = name_ self ∧
  fRestrictivenessIsLocked_ c = false ∧
  (fRestrictive_ self = true → member_types_ c = member_types_ self) ∧
  (fRestrictive_ self = false →
   member_types_ self `prefix_of` member_types_ c ∧
   (∀ m, m ∈ members_ self → type m ∈ member_types_ c) ∧
   (∀ t, t ∈ member_types_ c →
         t ∈ member_types_ self ∨ ∃ m, m ∈ members_ self ∧ type m = t) ∧
   (NoDup (member_types_ self) → NoDup (member_types_ c))).
Proof.
  intros Hl c. subst c. unfold switch_restrictiveness. rewrite Hl. simpl.
  do 5 (split; [done|]). split.
  - by intros ->.
  - intros ->. simpl. unfold get_collection_size.
    rewrite (collect_types (members_ self) _ 0 (members_ self)) by done.
    apply (collected_types (members_ self) (member_types_ self)).
Qed.

Lemma restricted_step (T : PyType) (self : collection) (c : call) :
  fRestrictive_ self = true → fRestrictivenessIsLocked_ self = true →
  member_types_ self = [T] → Forall (λ m, type m = T) (members_ self) →
  let self' := perform type self c in
  fRestrictive_ self' = true ∧ fRestrictivenessIsLocked_ self' = true ∧
  member_types_ self' = [T] ∧ Forall (λ m, type m = T) (members_ self').
Proof.
  intros Hr Hl Ht Hm. destruct c; simpl; try done.
  - unfold switch_restrictiveness. by rewrite Hl.
  - destruct (try_adding_frame self candidate_element)
      as (Ht' & Hr' & Hl' & _ & _ & Hm').
    simpl in *. rewrite Ht', Hr', Hl', Hm', Hr, Ht. repeat split; try done.
    clear Ht' Hr' Hl' Hm'. simpl. apply Forall_app. split; [done|].
    case_decide as Hin; [|constructor].
    apply list_elem_of_singleton in Hin. by repeat constructor.
Qed.

Lemma homogeneous (TransmitanceMeas1D : PyType) (next_id_ : nat)
    (collection_name : string) (init_members : option (list Obj))
    (calls : list call) :
  let c :=
    perform_all type
      (TransmitanceMeas1DCollection_init type TransmitanceMeas1D next_id_
         collection_name init_members).2 calls in
  fRestrictive_ c = true ∧ fRestrictivenessIsLocked_ c = true ∧
  member_types_ c = [TransmitanceMeas1D] ∧
  Forall (λ m, type m = TransmitanceMeas1D) (members_ c).
Proof.
  intros c. subst c. unfold perform_all.
  set (start := (TransmitanceMeas1DCollection_init _ _ _ _ _).2).
  assert (fRestrictive_ start = true ∧
          fRestrictivenessIsLocked_ start = true ∧
          member_types_ start = [TransmitanceMeas1D] ∧
          Forall (λ m, type m = TransmitanceMeas1D) (members_ start))
    as Hstart.
  { subst start. unfold TransmitanceMeas1DCollection_init.
    pose proof (initial_frame next_id_ collection_name
                  (Some [TransmitanceMeas1D]) init_members true) as Hf.
    destruct (__init__ _ _ _ _ _ _) as [n self]. simpl in *.
    destruct Hf as (_ & _ & _ & Ht & Hr & _ & Hm).
    rewrite Hr, Ht, Hm. repeat split; try done.
    apply Forall_forall. intros m Hin.
    apply list_elem_of_filter in Hin as [Hin _].
    by apply list_elem_of_singleton in Hin. }
  clearbody start. revert start Hstart.
  induction calls as [|call calls IH]; intros start Hstart; [done|].
  simpl. apply IH. destruct Hstart as (? & ? & ? & ?).
  by apply restricted_step.
Qed.

(** X23.  A collection built by [TransmitanceMeas1DCollection.__init__] holds
    objects of type [TransmitanceMeas1D] only, whatever was offered to the
    initialiser, and no sequence of method calls changes that: it stays
    restrictive, and its list of allowed types stays the one-element
    list. *)
Theorem measurement_collections_stay_homogeneous (TransmitanceMeas1D : PyType)
    (next_id_ : nat) (collection_name : string)
    (init_members : option (list Obj)) (calls : list call) :
  let c :=
    perform_all type
      (TransmitanceMeas1DCollection_init type TransmitanceMeas1D next_id_
         collection_name init_members).2 calls in
  Forall (λ m, type m = TransmitanceMeas1D) (members_ c) ∧
  fRestrictive_ c = true ∧ member_types_ c = [TransmitanceMeas1D].
Proof.
  intros c.
  destruct (homogeneous TransmitanceMeas1D next_id_ collection_name
              init_members calls) as (Hr & Hl & Ht & Hm).
  by fold c in Hr, Hl, Ht, Hm.
Qed.
End MoreCollectionFacts.

(** ** The counter behind the IDs *)

Section CounterFacts.
Context {Obj PyType : Type} `{!EqDecision PyType}.
Variable type : Obj → PyType.
Import ObjectCollection ClassAttributes.

Lemma created_base (ids : next_ids) collection_name member_types
    (init_members : option (list Obj)) restrictive :
  let created :=
    create_ObjectCollection type ids collection_name member_types init_members
      restrictive in
  ID_ created.2 = of_ObjectCollection ids ∧
  of_ObjectCollection created.1 = S (of_ObjectCollection ids) ∧
  of_TransmitanceMeas1DCollection created.1
  = of_TransmitanceMeas1DCollection ids.
Proof.
  unfold create_ObjectCollection.
  pose proof (initial_frame type (of_ObjectCollection ids) collection_name
                member_types init_members restrictive) as Hf.
  destruct (__init__ _ _ _ _ _ _) as [n self]. simpl in *.
  by destruct Hf as (-> & -> & _).
Qed.

Lemma created_derived (T : PyType) (ids : next_ids) collection_name
    (init_members : option (list Obj)) :
  let created :=
    create_TransmitanceMeas1DCollection type T ids collection_name
      init_members in
  let inherited :=
    default (of_ObjectCollection ids) (of_TransmitanceMeas1DCollection ids) in
  ID_ created.2 = inherited ∧
  of_ObjectCollection created.1 = of_ObjectCollection ids ∧
  of_TransmitanceMeas1DCollection created.1 = Some (S inherited).
Proof.
  unfold create_TransmitanceMeas1DCollection,
    TransmitanceMeas1DCollection_init.
  set (inherited := match of_TransmitanceMeas1DCollection ids with
                    | Some n => n | None => of_ObjectCollection ids end).
  pose proof (initial_frame type inherited collection_name (Some [T])
                init_members true) as Hf.
  destruct (__init__ _ _ _ _ _ _) as [n self]. simpl in *.
  destruct Hf as (-> & Hi & _). subst inherited.
  by destruct (of_TransmitanceMeas1DCollection ids).
Qed.

(** X24.  IDs are not unique across the two classes.  As long as no
    [TransmitanceMeas1DCollection] has been created, the first one takes the
    ID the next [ObjectCollection] takes too, whatever the two are built
    from, because the derived class starts a counter of its own from the
    value it reads off the base class.  Within each class the IDs are
    consecutive: a second [ObjectCollection] and a second
    [TransmitanceMeas1DCollection] both get the following number. *)
Theorem first_derived_collection_shares_an_id (T : PyType) (ids : next_ids)
    (name1 name2 name3 name4 : string)
    (members1 members2 members3 members4 : option (list Obj))
    (types2 types3 : option (list PyType)) (restrictive2 restrictive3 : bool) :
  of_TransmitanceMeas1DCollection ids = None →
  let first := create_TransmitanceMeas1DCollection type T ids name1 members1 in
  let second :=
    create_ObjectCollection type first.1 name2 types2 members2 restrictive2 in
  let third :=
    create_ObjectCollection type second.1 name3 types3 members3 restrictive3 in
  let fourth :=
    create_TransmitanceMeas1DCollection type T third.1 name4 members4 in
  ID_ first.2 = of_ObjectCollection ids ∧
  ID_ second.2 = ID_ first.2 ∧
  ID_ third.2 = S (ID_ second.2) ∧
  ID_ fourth.2 = S (ID_ first.2).
Proof.
  intros Hnone first second third fourth.
  destruct (created_derived T ids name1 members1) as (H1 & H1b & H1d).
  fold first in H1, H1b, H1d.
  destruct (created_base first.1 name2 types2 members2 restrictive2)
    as (H2 & H2b & H2d).
  fold second in H2, H2b, H2d.
  destruct (created_base second.1 name3 types3 members3 restrictive3)
    as (H3 & H3b & H3d).
  fold third in H3, H3b, H3d.
  destruct (created_derived T third.1 name4 members4) as (H4 & _).
  fold fourth in H4.
  rewrite Hnone in *. simpl in *.
  rewrite H3d, H2d, H1d in H4. simpl in H4.
  repeat split; congruence.
Qed.
End CounterFacts.

(** ** TransmitanceMeas1DCollection: the data of the members *)

Section MemberDataFacts.
Context {R : Type} `{!Scalar R}.
Import ObjectCollection.

Lemma gather_reading {A} (name : string) (inherited : bool)
    (method : instance R → exc A) (members : list (pyobject R)) :
  Forall (λ m, type_of m = TransmitanceMeas1D_type) members →
  let r :=
    TransmitanceMeas1DCollection.gather
      (TransmitanceMeas1DCollection.call_on name inherited
         (TransmitanceMeas1DCollection.reading method)) members in
  r.1 = members ∧
  (∀ vs, r.2 = Ok vs ↔
         Forall2 (λ m v, ∃ self, m = Meas1D self ∧ method self = Ok v)
           members vs) ∧
  (∀ e, r.2 = Raise e →
        ∃ self, Meas1D self ∈ members ∧ method self = Raise e).
Proof.
  induction 1 as [|m members Hm _ IH]; simpl.
  - split; [done|]. split; [|done].
    intros vs. split; [intros [= <-]; constructor | by inversion 1].
  - destruct m as [self| |]; try done. simpl.
    unfold TransmitanceMeas1DCollection.reading.
    unfold mbind, exc_bind, mret, exc_ret in *.
    destruct (method self) as [v|e0] eqn:Hv; simpl.
    + destruct (TransmitanceMeas1DCollection.gather _ members) as [rest r].
      simpl in *. destruct IH as (-> & Hok & Herr).
      split; [done|]. split.
      * intros vs. destruct r as [vs'|e']; split.
        -- intros [= <-]. constructor; [by exists self | by apply Hok].
        -- intros Hall. inversion Hall as [|? v0 ? vs0 Hhd Hrest]; subst.
           destruct Hhd as (self' & Heq & Hv'). injection Heq as <-.
           apply Hok in Hrest. congruence.
        -- done.
        -- intros Hall. inversion Hall as [|? v0 ? vs0 _ Hrest]; subst.
           by apply Hok in Hrest.
      * intros e. destruct r as [vs'|e']; [done|]. intros [= <-].
        destruct (Herr e' eq_refl) as (self' & Hin & He).
        exists self'. split; [by right | done].
    + split; [done|]. split.
      * intros vs. split; [done|].
        intros Hall. inversion Hall as [|? v0 ? vs0 Hhd _]; subst.
        destruct Hhd as (self' & Heq & Hv'). injection Heq as <-.
        congruence.
      * intros e [= <-]. exists self. split; [by left | done].
Qed.

(** X25.  On a collection built by [TransmitanceMeas1DCollection.__init__], with
    whatever method calls afterwards, a data list made with a method that
    only reads its object leaves the collection as it was; the list is
    returned exactly when the method returns for every member, and then
    holds the results member by member; an exception that ends the call is
    one the method raised on a member, never a missing method. *)
Theorem data_lists_follow_the_members {A} (retrieval_func_str : string)
    (inherited : bool) (method : instance R → exc A) (next_id_ : nat)
    (collection_name : string) (init_members : option (list (pyobject R)))
    (calls : list call) :
  let self :=
    perform_all type_of
      (TransmitanceMeas1DCollection.__init__ next_id_ collection_name
         init_members).2 calls in
  let r :=
    TransmitanceMeas1DCollection.get_list_of_members_data retrieval_func_str
      inherited (TransmitanceMeas1DCollection.reading method) self in
  r.1 = self ∧
  (∀ vs, r.2 = Ok vs ↔
         Forall2 (λ m v, ∃ member, m = Meas1D member ∧ method member = Ok v)
           (members_ self) vs) ∧
  (∀ e, r.2 = Raise e →
        ∃ member, Meas1D member ∈ members_ self ∧ method member = Raise e).
Proof.
  intros self r.
  assert (Forall (λ m, type_of m = TransmitanceMeas1D_type) (members_ self))
    as Hm.
  { subst self. unfold TransmitanceMeas1DCollection.__init__.
    apply (homogeneous type_of TransmitanceMeas1D_type). }
  pose proof (gather_reading retrieval_func_str inherited method
                (members_ self) Hm) as Hg.
  subst r. unfold TransmitanceMeas1DCollection.get_list_of_members_data.
  destruct (TransmitanceMeas1DCollection.gather _ _) as [members res].
  simpl in *. destruct Hg as (-> & Hok & Herr).
  split; [by destruct self|]. done.
Qed.

Lemma stick_1d_axis1_inv (v w : list R) (c : nat) (rows : list (list R)) :
  Stacking.stick_together (NdArray (A1 v)) (NdArray (A1 w)) true
  = Ok (Val (A2 c rows)) →
  length v = length w ∧ c = 2 ∧ rows = zip_with (λ x y, [x; y]) v w.
Proof.
  destruct (decide (length v = length w)) as [Hlen|Hlen].
  - rewrite (stick_1d_axis1 v w Hlen). by intros [= <- <-].
  - unfold Stacking.stick_together. simpl. by rewrite decide_True by done.
Qed.

(** X26.  [unzip_list] undoes [stick_together] along axis 1: from the arrays made
    by sticking pairs of one-dimensional arrays together column by column it
    returns the list of the first arrays and the list of the second ones. *)
Theorem unzip_list_undoes_stick_together (pairs : list (list R * list R))
    (aList : list (nat * list (list R))) :
  Forall2
    (λ p a, Stacking.stick_together (NdArray (A1 p.1)) (NdArray (A1 p.2)) true
            = Ok (Val (A2 a.1 a.2))) pairs aList →
  TransmitanceMeas1DCollection.unzip_list aList = Ok (pairs.*1, pairs.*2).
Proof.
  intros Hall. unfold TransmitanceMeas1DCollection.unzip_list.
  assert (mapM (λ a : nat * list (list R), Sorting.column a.1 a.2 0) aList
          = Ok pairs.*1 ∧
          mapM (λ a : nat * list (list R), Sorting.column a.1 a.2 1) aList
          = Ok pairs.*2) as [-> ->]; [|done].
  split; apply mapM_Ok, Forall2_fmap_r, Forall2_flip;
    eapply Forall2_impl; [exact Hall| |exact Hall|].
  all: intros [v w] [c rows] Hs; simpl in *.
  all: apply stick_1d_axis1_inv in Hs as (Hlen & -> & ->).
  all: unfold Sorting.column; simpl; unfold or_index_error.
  - assert (mapM (λ row : list R, row !! 0) (zip_with (λ x y, [x; y]) v w)
            = Some v) as ->; [|done].
    apply mapM_Some. clear -Hlen. revert w Hlen.
    induction v as [|x v IH]; intros [|y w] Hlen; simpl in *;
      try done; constructor; [done|]. apply IH. lia.
  - assert (mapM (λ row : list R, row !! 1) (zip_with (λ x y, [x; y]) v w)
            = Some w) as ->; [|done].
    apply mapM_Some. clear -Hlen. revert w Hlen.
    induction v as [|x v IH]; intros [|y w] Hlen; simpl in *;
      try done; constructor; [done|]. apply IH. lia.
Qed.
End MemberDataFacts.

Section TransmitanceListFacts.
Context {R : Type} `{!Scalar R}.
Import ObjectCollection.

Lemma ratio_twice (member : instance R) :
  holds_compatible_data member →
  ∃ ref meas t,
    ref_ member = Some ref ∧ meas_ member = Some meas ∧
    np_map2 fdiv meas ref = Some t ∧
    TransmitanceMeas.get_transmitance member
    = Ok (set_transmitance_ t member, Val t) ∧
    TransmitanceMeas.get_transmitance (set_transmitance_ t member)
    = Ok (set_transmitance_ t member, Val t).
Proof.
  intros Hc. pose proof Hc as (ref & meas & avail & Href & Hmeas & _).
  destruct (compatible_ratio member ref meas Hc Href Hmeas)
    as (_ & t & Hcall & Ht).
  exists ref, meas, t. repeat split; try done.
  assert (holds_compatible_data (set_transmitance_ t member)) as Hc'
    by exact Hc.
  destruct (compatible_ratio (set_transmitance_ t member) ref meas Hc' Href
              Hmeas) as (_ & t' & Hcall' & Ht').
  assert (t' = t) as -> by congruence. exact Hcall'.
Qed.

Lemma gather_ratio (members : list (pyobject R)) :
  let f :=
    TransmitanceMeas1DCollection.call_on "get_transmitance" true
      TransmitanceMeas.get_transmitance in
  Forall (λ m, type_of m = TransmitanceMeas1D_type) members →
  (∀ member, Meas1D member ∈ members → holds_compatible_data member) →
  ∃ ts members',
    TransmitanceMeas1DCollection.gather f members
    = (members', Ok (Val <$> ts)) ∧
    Forall2 (λ m t, ∃ member ref meas,
               m = Meas1D member ∧ ref_ member = Some ref ∧
               meas_ member = Some meas ∧ np_map2 fdiv meas ref = Some t)
      members ts ∧
    Forall2 (λ m t, ∃ member, m = Meas1D member ∧
                              transmitance_ member = Some t) members' ts ∧
    TransmitanceMeas1DCollection.gather f members'
    = (members', Ok (Val <$> ts)).
Proof.
  intros f Hty. induction Hty as [|m members Hm _ IH]; intros Hc.
  - exists [], []. by repeat split; try constructor.
  - destruct m as [member| |]; try done.
    destruct IH as (ts & members' & Hg & Hin & Hout & Hg').
    { intros member' Hin. apply Hc. by right. }
    destruct (ratio_twice member) as (ref & meas & t & Href & Hmeas & Ht & H1 & H2).
    { apply Hc. by left. }
    exists (t :: ts), (Meas1D (set_transmitance_ t member) :: members').
    repeat split.
    + simpl. rewrite H1. simpl. by rewrite Hg.
    + constructor; [|done]. by exists member, ref, meas.
    + constructor; [|done]. by exists (set_transmitance_ t member).
    + simpl. rewrite H2. simpl. by rewrite Hg'.
Qed.

(** X27.  On a collection built by [TransmitanceMeas1DCollection.__init__], with
    whatever method calls afterwards, whose members all hold compatible
    data, [get_list_of_transmitance] returns one array per member, the
    element-wise quotient of the member's with-filter data by its reference
    data; the call caches each array in its member, and a second call
    returns the same list and changes nothing more. *)
Theorem transmitance_list_of_usable_members (next_id_ : nat)
    (collection_name : string) (init_members : option (list (pyobject R)))
    (calls : list call) :
  let self :=
    perform_all type_of
      (TransmitanceMeas1DCollection.__init__ next_id_ collection_name
         init_members).2 calls in
  (∀ member, Meas1D member ∈ members_ self → holds_compatible_data member) →
  ∃ ts self',
    TransmitanceMeas1DCollection.get_list_of_transmitance self
    = (self', Ok (Val <$> ts)) ∧
    Forall2 (λ m t, ∃ member ref meas,
               m = Meas1D member ∧ ref_ member = Some ref ∧
               meas_ member = Some meas ∧ np_map2 fdiv meas ref = Some t)
      (members_ self) ts ∧
    Forall2 (λ m t, ∃ member, m = Meas1D member ∧
                              transmitance_ member = Some t)
      (members_ self') ts ∧
    TransmitanceMeas1DCollection.get_list_of_transmitance self'
    = (self', Ok (Val <$> ts)).
Proof.
  intros self Hc.
  assert (Forall (λ m, type_of m = TransmitanceMeas1D_type) (members_ self))
    as Hm.
  { subst self. unfold TransmitanceMeas1DCollection.__init__.
    apply (homogeneous type_of TransmitanceMeas1D_type). }
  destruct (gather_ratio (members_ self) Hm Hc)
    as (ts & members' & Hg & Hin & Hout & Hg').
  exists ts,
    (Collection (member_types_ self) (fRestrictive_ self)
       (fRestrictivenessIsLocked_ self) (name_ self) (ID_ self) members').
  unfold TransmitanceMeas1DCollection.get_list_of_transmitance,
    TransmitanceMeas1DCollection.get_list_of_members_data.
  simpl in *. rewrite Hg, Hg'. done.
Qed.
End TransmitanceListFacts.

(** An unrestricted collection that allows [TransmitanceMeas] and holds an
    int, a measurement and another int. *)
Lemma switching_on_admits_the_members_witness :
  let self :=
    ObjectCollection.Collection [TransmitanceMeas_type] false false "bench" 0
      [Other "int"; Meas1D Inputs.ratio_instance; Other "int"] in
  let c := ObjectCollection.switch_restrictiveness type_of self in
  ObjectCollection.fRestrictivenessIsLocked_ self = false ∧
  ObjectCollection.fRestrictive_ c = true ∧
  ObjectCollection.member_types_ c
  = [TransmitanceMeas_type; other_type "int"; TransmitanceMeas1D_type] ∧
  NoDup (ObjectCollection.member_types_ c).
Proof.
  intros self c.
  destruct (switching_on_admits_the_members type_of self eq_refl)
    as (Hr & _ & _ & _ & _ & _ & Hoff).
  destruct (Hoff eq_refl) as (_ & _ & _ & Hnd).
  split; [reflexivity|]. split; [exact Hr|]. split; [reflexivity|].
  apply Hnd. apply NoDup_singleton.
Defined.

(** A program that creates a measurement collection, then two plain
    collections, then another measurement collection. *)
Lemma first_derived_collection_shares_an_id_witness :
  let ids := ClassAttributes.at_start in
  let first :=
    ClassAttributes.create_TransmitanceMeas1DCollection type_of
      TransmitanceMeas1D_type ids "a"
      (Some [Meas1D Inputs.ratio_instance]) in
  let second :=
    ClassAttributes.create_ObjectCollection (@type_of Q) first.1 "b" None
      None false in
  ClassAttributes.of_TransmitanceMeas1DCollection ids = None ∧
  ObjectCollection.ID_ first.2 = 0 ∧ ObjectCollection.ID_ second.2 = 0.
Proof.
  intros ids first second.
  destruct (first_derived_collection_shares_an_id type_of
              TransmitanceMeas1D_type ids "a" "b" "c" "d"
              (Some [Meas1D Inputs.ratio_instance]) None None None None None
              false false eq_refl) as (H1 & H2 & _).
  split; [reflexivity|]. split; [exact H1 | exact (eq_trans H2 H1)].
Defined.

(** Two pairs of vectors, of lengths 2 and 1. *)
Lemma unzip_list_undoes_stick_together_witness :
  let stick (v w : list Q) :=
    Stacking.stick_together (NdArray (A1 v)) (NdArray (A1 w)) true in
  (stick [1; 2]%Q [3; 4]%Q = Ok (Val (A2 2 [[1; 3]; [2; 4]]%Q)) ∧
   stick [5]%Q [6]%Q = Ok (Val (A2 2 [[5; 6]]%Q))) ∧
  TransmitanceMeas1DCollection.unzip_list
    [(2, [[1; 3]; [2; 4]]%Q); (2, [[5; 6]]%Q)]
  = Ok ([[1; 2]; [5]]%Q, [[3; 4]; [6]]%Q).
Proof.
  intros stick. split; [split; reflexivity|].
  apply (unzip_list_undoes_stick_together
           [([1; 2]%Q, [3; 4]%Q); ([5]%Q, [6]%Q)]).
  repeat constructor.
Defined.

(** A measurement collection offered a measurement and an int, then a
    base-class instance and another measurement. *)
Lemma transmitance_list_of_usable_members_witness :
  let self :=
    ObjectCollection.perform_all type_of
      (TransmitanceMeas1DCollection.__init__ 0 "bench"
         (Some [Meas1D Inputs.ratio_instance; Other "int"])).2
      [ObjectCollection.call_try_adding_an_element
         (Meas Inputs.ratio_instance);
       ObjectCollection.call_try_adding_an_element
         (Meas1D Inputs.ratio_instance)] in
  (∀ member, Meas1D member ∈ ObjectCollection.members_ self →
             holds_compatible_data member) ∧
  ∃ ts self',
    TransmitanceMeas1DCollection.get_list_of_transmitance self
    = (self', Ok (Val <$> ts)) ∧
    length ts = 2.
Proof.
  intros self.
  assert (∀ member, Meas1D member ∈ ObjectCollection.members_ self →
                    holds_compatible_data member) as Hc.
  { intros member Hin.
    assert (ObjectCollection.members_ self
            = [Meas1D Inputs.ratio_instance; Meas1D Inputs.ratio_instance])
      as Hm by reflexivity.
    rewrite Hm in Hin.
    assert (member = Inputs.ratio_instance) as ->.
    { apply elem_of_cons in Hin as [Hin|Hin]; [by injection Hin|].
      apply elem_of_cons in Hin as [Hin|Hin]; [by injection Hin|].
      by apply elem_of_nil in Hin. }
    exists (A1 [1; 2; 4]%Q), (A1 [3; 3; 2]%Q), false.
    repeat split; intros [=]. }
  split; [exact Hc|].
  destruct (transmitance_list_of_usable_members 0 "bench"
              (Some [Meas1D Inputs.ratio_instance; Other "int"])
              [ObjectCollection.call_try_adding_an_element
                 (Meas Inputs.ratio_instance);
               ObjectCollection.call_try_adding_an_element
                 (Meas1D Inputs.ratio_instance)] Hc)
    as (ts & self' & Hcall & Hin & _).
  exists ts, self'. split; [exact Hcall|].
  apply Forall2_length in Hin. exact (eq_sym Hin).
Defined.
